(** * TMDB MCP gateway: OAuth endpoints, bearer gate, session registry, tools

    A shallow embedding of the Express servers of the repository:

    - [Js]           the values the handlers work on: request fields, and
                     numbers as doubles with Number.prototype.toString;
    - [OAuth], [OAuthServer]  the full authorization server
                     (src/unnamed/part_002: authorizationCodes, accessTokens,
                     clients, PKCE, requireAuth with expiry);
    - [SseOAuth], [SseOAuthServer]  the single-map authorization server
                     (src/src/server-sse-oauth.js: tokens, requireAuth);
    - [Registry], [ServerHttp]  the streamable-HTTP session registry
                     (src/src/server-http.js: transports, GET/POST /mcp);
    - [ServerSse]    the SSE session registry
                     (src/unnamed/part_000, second file: /sse, /messages);
    - [Tools]        the CallToolRequestSchema handlers
                     (src/src/server-chatgpt.js, src/src/server-final.js,
                     src/src/server-sse-oauth.js).

    Every handler is a function from the state of the module-level maps to a
    response and the new state.  What a handler reads from its environment
    (crypto.randomUUID(), Date.now(), the outcome of the outbound fetch) is an
    explicit argument.  The properties C1 to C10 of the specification follow
    the definitions. *)

From Stdlib Require Import ZArith Lia Ascii String DecimalString.
From Stdlib Require Import DecimalFacts DecimalPos DecimalN DecimalZ.
From stdpp Require Import base option strings list gmap.

Set Warnings "-register-all".

(** ** JavaScript values used by the handlers *)

Module Js.

(** A request field ([req.query.x], [req.body.x], [req.headers.x]) is an
    [option string]: a string or [undefined].  Structured values (arrays,
    nested objects, numbers in a JSON body) are not modelled.

    ToBoolean on a field: [undefined] and the empty string are falsy. *)
Definition truthy (x : option string) : bool :=
  match x with
  | Some EmptyString => false
  | Some _ => true
  | None => false
  end.

(** [x || d] on a field. *)
Definition or_else (x : option string) (d : string) : string :=
  match x with
  | Some s => if truthy x then s else d
  | None => d
  end.

(** ToString on a field, as applied by [new URL(x)] and by a computed
    property key [o[x]]. *)
Definition to_string (x : option string) : string :=
  match x with
  | Some s => s
  | None => "undefined"
  end.

(** [s.startsWith(p)] *)
Fixpoint startsWith (s p : string) {struct p} : bool :=
  match p, s with
  | EmptyString, _ => true
  | String a p', String b s' => Ascii.eqb a b && startsWith s' p'
  | String _ _, EmptyString => false
  end.

(** [s.slice(n)] for [0 <= n]. *)
Fixpoint slice (n : nat) (s : string) : string :=
  match n, s with
  | O, _ => s
  | S n', String _ s' => slice n' s'
  | S _, EmptyString => EmptyString
  end.

(** [s.split('-')[0]]: the text before the first hyphen, the whole string
    when there is none. *)
Fixpoint split_hyphen_0 (s : string) : string :=
  match s with
  | EmptyString => EmptyString
  | String c s' =>
      if Ascii.eqb c "-"%char then EmptyString
      else String c (split_hyphen_0 s')
  end.

(** *** Numbers

    A Number is an IEEE 754 double.  The finite doubles are the numbers
    [f * 2 ^ x] and their opposites, for [0 <= f < 2 ^ 53] and
    [-1074 <= x <= 971]; JSON.parse yields one of them, or an infinity for a
    literal that is too large.  [Finite m e] is the double nearest to
    [m * 2 ^ e], the tie going to the even significand, which is how a literal
    is read; so the integer [n] is read as [Finite n 0], whatever its size.
    The two zeros are not told apart, and there is no NaN: the numbers of the
    handlers come out of JSON.parse and are only printed. *)
Local Open Scope Z_scope.

Inductive number :=
| Finite (m e : Z)
| Infinite (negative : bool).

Definition of_Z (n : Z) : number := Finite n 0.

(** The significand and the exponent of the double nearest to [m * 2 ^ e],
    for [0 < m]; [None] when the rounding overflows. *)
Definition round (m e : Z) : option (Z * Z) :=
  let x := Z.max (e + (Z.log2 m + 1) - 53) (-1074) in
  let f :=
    if x <=? e then m * 2 ^ (e - x)
    else
      let q := m / 2 ^ (x - e) in
      match 2 * (m mod 2 ^ (x - e)) ?= 2 ^ (x - e) with
      | Lt => q
      | Gt => q + 1
      | Eq => if Z.even q then q else q + 1
      end in
  let '(f, x) := if f =? 2 ^ 53 then (2 ^ 52, x + 1) else (f, x) in
  if 971 <? x then None else Some (f, x).

(** The number that the decimal literal [digits]e[exponent] is read as.  For
    a negative exponent the quotient is cut 65 bits or more below its leading
    bit and what is cut off is kept as one more bit, which leaves the nearest
    double the same. *)
Definition literal (digits exponent : Z) : number :=
  if 0 <=? exponent then Finite (digits * 10 ^ exponent) 0
  else
    let d := 10 ^ (- exponent) in
    let s := 64 + Z.log2 d + 1 in
    let q := Z.abs digits * 2 ^ s / d in
    let rest := if Z.abs digits * 2 ^ s mod d =? 0 then 0 else 1 in
    Finite (Z.sgn digits * (2 * q + rest)) (- s - 1).

(** [a * 10 ^ p ?= b * 2 ^ q] *)
Definition compare_scaled (a p b q : Z) : comparison :=
  a * 10 ^ Z.max p 0 * 2 ^ Z.max (- q) 0 ?= b * 2 ^ Z.max q 0 * 10 ^ Z.max (- p) 0.

(** Is [f * 2 ^ x] the double nearest to [s * 10 ^ t]?  The bounds are the
    midpoints to the two neighbours of the double, in units of
    [2 ^ (x - 2)]; the lower neighbour is half as far when [f] is the least
    significand of its exponent.  A midpoint is read as the double whose
    significand is even. *)
Definition rounds_to (f x s t : Z) : bool :=
  let low := if (f =? 2 ^ 52) && (-1074 <? x) then 4 * f - 1 else 4 * f - 2 in
  match compare_scaled s t low (x - 2), compare_scaled s t (4 * f + 2) (x - 2) with
  | Gt, Lt => true
  | Eq, Lt | Gt, Eq => Z.even f
  | _, _ => false
  end.

(** The [n] with [10 ^ (n - 1) <= f * 2 ^ x < 10 ^ n], searched from [n]. *)
Fixpoint magnitude (fuel : nat) (f x n : Z) : Z :=
  match fuel with
  | O => n
  | S fuel' =>
      match compare_scaled 1 (n - 1) f x with
      | Gt => magnitude fuel' f x (n - 1)
      | _ =>
          match compare_scaled 1 n f x with
          | Gt => n
          | _ => magnitude fuel' f x (n + 1)
          end
      end
  end.

(** The integer part of [f * 2 ^ x / 10 ^ t]. *)
Definition floor_scaled (f x t : Z) : Z :=
  (f * 2 ^ Z.max x 0 * 10 ^ Z.max (- t) 0) / (10 ^ Z.max t 0 * 2 ^ Z.max (- x) 0).

(** The digits [s] and the exponent [t] of the shortest decimal
    [s * 10 ^ t] that is read as the double [f * 2 ^ x], [k] being the number
    of digits tried: with that many digits only the decimal just below the
    double and the one just above can do, and of two that do, the nearer is
    taken.  Seventeen digits always do. *)
Fixpoint shortest (fuel : nat) (f x n k : Z) : Z * Z :=
  let t := n - k in
  let s := floor_scaled f x t in
  match fuel with
  | O => (s, t)
  | S fuel' =>
      match rounds_to f x s t, rounds_to f x (s + 1) t with
      | true, true =>
          match compare_scaled (2 * s + 1) t (2 * f) x with
          | Lt => (s + 1, t)
          | Gt => (s, t)
          | Eq => (if Z.even s then s else s + 1, t)
          end
      | true, false => (s, t)
      | false, true => (s + 1, t)
      | false, false => shortest fuel' f x n (k + 1)
      end
  end.

(** The zeros at the end of [s] go into the exponent. *)
Fixpoint strip (fuel : nat) (s t : Z) : Z * Z :=
  match fuel with
  | O => (s, t)
  | S fuel' => if s mod 10 =? 0 then strip fuel' (s / 10) (t + 1) else (s, t)
  end.

(** The decimal digits of an integer. *)
Definition decimal (n : Z) : string := NilZero.string_of_int (Z.to_int n).

Fixpoint zeros (n : nat) : string :=
  match n with
  | O => EmptyString
  | S n' => String "0" (zeros n')
  end.

Definition exponent_text (n : Z) : string :=
  "e" +:+ (if n - 1 <? 0 then "-" else "+") +:+ decimal (Z.abs (n - 1)).

(** Number::toString of ECMAScript for the [k] digits [s] and
    [n = t + k]: plain digits up to [10 ^ 21], a point inside or after
    [0.] down to [10 ^ -7], the exponent notation outside. *)
Definition decimal_text (s t : Z) : string :=
  let d := decimal s in
  let k := Z.of_nat (String.length d) in
  let n := t + k in
  if (k <=? n) && (n <=? 21) then d +:+ zeros (Z.to_nat (n - k))
  else if (0 <? n) && (n <=? 21) then
    substring 0 (Z.to_nat n) d +:+ "." +:+ substring (Z.to_nat n) (Z.to_nat (k - n)) d
  else if (-6 <? n) && (n <=? 0) then "0." +:+ zeros (Z.to_nat (- n)) +:+ d
  else if k =? 1 then d +:+ exponent_text n
  else substring 0 1 d +:+ "." +:+ substring 1 (Z.to_nat (k - 1)) d +:+ exponent_text n.

Definition positive_text (f x : Z) : string :=
  let n := magnitude 700 f x ((Z.log2 f + x) * 30103 / 100000 + 1) in
  let '(s, t) := shortest 17 f x n 1 in
  let '(s, t) := strip 18 s t in
  decimal_text s t.

(** Number.prototype.toString, which is also what a template literal
    prints. *)
Definition number_toString (x : number) : string :=
  match x with
  | Infinite negative => if negative then "-Infinity" else "Infinity"
  | Finite m e =>
      if m =? 0 then "0"
      else
        match round (Z.abs m) e with
        | None => if m <? 0 then "-Infinity" else "Infinity"
        | Some (f, x) =>
            if f =? 0 then "0"
            else (if m <? 0 then "-" else EmptyString) +:+ positive_text f x
        end
  end.
Arguments number_toString : simpl never.

(** Number.isFinite *)
Definition is_finite (x : number) : bool :=
  match x with
  | Infinite _ => false
  | Finite m e =>
      (m =? 0) || match round (Z.abs m) e with Some _ => true | None => false end
  end.
Arguments is_finite : simpl never.

(** Two notions for the arguments about the digits of an integer. *)

(** A zero written after the digits. *)
Fixpoint snoc0 (d : Decimal.uint) : Decimal.uint :=
  match d with
  | Decimal.Nil => Decimal.D0 Decimal.Nil
  | Decimal.D0 l => Decimal.D0 (snoc0 l)
  | Decimal.D1 l => Decimal.D1 (snoc0 l)
  | Decimal.D2 l => Decimal.D2 (snoc0 l)
  | Decimal.D3 l => Decimal.D3 (snoc0 l)
  | Decimal.D4 l => Decimal.D4 (snoc0 l)
  | Decimal.D5 l => Decimal.D5 (snoc0 l)
  | Decimal.D6 l => Decimal.D6 (snoc0 l)
  | Decimal.D7 l => Decimal.D7 (snoc0 l)
  | Decimal.D8 l => Decimal.D8 (snoc0 l)
  | Decimal.D9 l => Decimal.D9 (snoc0 l)
  end.

(** The first digit is not zero. *)
Definition headed (d : Decimal.uint) : Prop :=
  match d with
  | Decimal.Nil | Decimal.D0 _ => False
  | _ => True
  end.

End Js.

(** An integer stands for the number it is read as. *)
Coercion Js.of_Z : Z >-> Js.number.

(** ** SHA-256 and base64url

    [crypto.createHash('sha256').update(s).digest('base64url')] of Node.js:
    FIPS 180-4 SHA-256 over the UTF-8 bytes of [s], then RFC 4648 section 5
    base64 with the URL alphabet and no padding.  Words are 32-bit integers in
    [Z], reduced modulo 2^32 after every addition and left shift. *)

Module Sha256.
Local Open Scope Z_scope.

Definition wrap (x : Z) : Z := x mod 2 ^ 32.
Definition add32 (x y : Z) : Z := wrap (x + y).
Definition rotr (n x : Z) : Z :=
  Z.lor (Z.shiftr x n) (wrap (Z.shiftl x (32 - n))).
Definition not32 (x : Z) : Z := 2 ^ 32 - 1 - x.

Definition Ch (x y z : Z) : Z := Z.lxor (Z.land x y) (Z.land (not32 x) z).
Definition Maj (x y z : Z) : Z :=
  Z.lxor (Z.lxor (Z.land x y) (Z.land x z)) (Z.land y z).
Definition Sigma0 (x : Z) : Z :=
  Z.lxor (Z.lxor (rotr 2 x) (rotr 13 x)) (rotr 22 x).
Definition Sigma1 (x : Z) : Z :=
  Z.lxor (Z.lxor (rotr 6 x) (rotr 11 x)) (rotr 25 x).
Definition sigma0 (x : Z) : Z :=
  Z.lxor (Z.lxor (rotr 7 x) (rotr 18 x)) (Z.shiftr x 3).
Definition sigma1 (x : Z) : Z :=
  Z.lxor (Z.lxor (rotr 17 x) (rotr 19 x)) (Z.shiftr x 10).

(** The constants are defined as FIPS 180-4 defines them (sections 4.2.2 and
    5.3.3): the first 32 bits of the fractional parts of the cube roots, and
    of the square roots, of the first primes. *)
Definition is_prime (n : nat) : bool :=
  forallb (fun d => negb (Nat.modulo n d =? 0)%nat) (seq 2 (n - 2)).

Definition primes_upto (n : nat) : list Z :=
  map Z.of_nat (filter is_prime (seq 2 (n - 1))).

(** The largest [r] below [2 ^ bits] whose cube does not exceed [x]. *)
Fixpoint cube_root (bits : nat) (x r : Z) : Z :=
  match bits with
  | O => r
  | S bits' =>
      let r' := r + 2 ^ Z.of_nat bits' in
      cube_root bits' x (if r' * r' * r' <=? x then r' else r)
  end.

Definition K : list Z :=
  Eval vm_compute in
    map (fun p => wrap (cube_root 36 (p * 2 ^ 96) 0)) (primes_upto 311).

Definition H0 : list Z :=
  Eval vm_compute in
    map (fun p => wrap (Z.sqrt (p * 2 ^ 64))) (primes_upto 19).

(** Big-endian bytes of a number, [n] bytes wide. *)
Fixpoint be_bytes (n : nat) (x : Z) : list Z :=
  match n with
  | O => []
  | S n' => (Z.shiftr x (8 * Z.of_nat n')) mod 256 :: be_bytes n' x
  end.

(** Padding: 0x80, zeros up to 56 modulo 64, the bit length on 8 bytes. *)
Definition pad (msg : list Z) : list Z :=
  let len := Z.of_nat (length msg) in
  let zeros := Z.to_nat ((55 - len) mod 64) in
  msg ++ 0x80 :: repeat 0 zeros ++ be_bytes 8 (8 * len).

(** Four bytes to one big-endian word. *)
Fixpoint words (bytes : list Z) : list Z :=
  match bytes with
  | a :: b :: c :: d :: rest =>
      (Z.shiftl a 24 + Z.shiftl b 16 + Z.shiftl c 8 + d) :: words rest
  | _ => []
  end.

(** The message schedule, produced from a sliding window of 16 words. *)
Fixpoint schedule (n : nat) (win : list Z) : list Z :=
  match n with
  | O => []
  | S n' =>
      match win with
      | w0 :: rest =>
          let next :=
            add32 (add32 (add32 (sigma1 (nth 14 win 0)) (nth 9 win 0))
                         (sigma0 (nth 1 win 0))) w0 in
          w0 :: schedule n' (rest ++ [next])
      | [] => []
      end
  end.

Record regs := Regs { ra : Z; rb : Z; rc : Z; rd : Z;
                      re : Z; rf : Z; rg : Z; rh : Z }.

Definition round (r : regs) (kw : Z * Z) : regs :=
  let t1 := add32 (add32 (add32 (add32 (rh r) (Sigma1 (re r)))
                                (Ch (re r) (rf r) (rg r))) (fst kw)) (snd kw) in
  let t2 := add32 (Sigma0 (ra r)) (Maj (ra r) (rb r) (rc r)) in
  Regs (add32 t1 t2) (ra r) (rb r) (rc r) (add32 (rd r) t1) (re r) (rf r) (rg r).

Definition regs_of (h : list Z) : regs :=
  Regs (nth 0 h 0) (nth 1 h 0) (nth 2 h 0) (nth 3 h 0)
       (nth 4 h 0) (nth 5 h 0) (nth 6 h 0) (nth 7 h 0).

Definition compress (h : list Z) (block : list Z) : list Z :=
  let w := schedule 64 (words block) in
  let r := fold_left round (combine K w) (regs_of h) in
  [ add32 (nth 0 h 0) (ra r); add32 (nth 1 h 0) (rb r);
    add32 (nth 2 h 0) (rc r); add32 (nth 3 h 0) (rd r);
    add32 (nth 4 h 0) (re r); add32 (nth 5 h 0) (rf r);
    add32 (nth 6 h 0) (rg r); add32 (nth 7 h 0) (rh r) ].

Fixpoint blocks (n : nat) (h : list Z) (bytes : list Z) : list Z :=
  match n with
  | O => h
  | S n' => blocks n' (compress h (firstn 64 bytes)) (skipn 64 bytes)
  end.

Definition digest (msg : list Z) : list Z :=
  let p := pad msg in
  flat_map (be_bytes 4) (blocks (Nat.div (length p) 64) H0 p).

Definition bytes_of_string (s : string) : list Z :=
  map (fun c => Z.of_N (N_of_ascii c)) (list_ascii_of_string s).

(** The base64url alphabet: A-Z a-z 0-9 - _ *)
Definition b64char (x : Z) : ascii :=
  ascii_of_N (Z.to_N
    (if x <? 26 then x + 65
     else if x <? 52 then x - 26 + 97
     else if x <? 62 then x - 52 + 48
     else if x =? 62 then 45 else 95)).

Fixpoint base64url (bytes : list Z) : string :=
  match bytes with
  | a :: b :: c :: rest =>
      String (b64char (Z.shiftr a 2))
     (String (b64char (Z.lor (Z.shiftl (Z.land a 3) 4) (Z.shiftr b 4)))
     (String (b64char (Z.lor (Z.shiftl (Z.land b 15) 2) (Z.shiftr c 6)))
     (String (b64char (Z.land c 63)) (base64url rest))))
  | [a; b] =>
      String (b64char (Z.shiftr a 2))
     (String (b64char (Z.lor (Z.shiftl (Z.land a 3) 4) (Z.shiftr b 4)))
     (String (b64char (Z.shiftl (Z.land b 15) 2)) EmptyString))
  | [a] =>
      String (b64char (Z.shiftr a 2))
     (String (b64char (Z.shiftl (Z.land a 3) 4)) EmptyString)
  | [] => EmptyString
  end.

(** [crypto.createHash('sha256').update(s).digest('base64url')] *)
Definition sha256_base64url (s : string) : string :=
  base64url (digest (bytes_of_string s)).

Definition hex_digit (x : Z) : ascii :=
  ascii_of_N (Z.to_N (if x <? 10 then x + 48 else x - 10 + 97)).

Definition hex (bytes : list Z) : string :=
  string_of_list_ascii
    (flat_map (fun b => [hex_digit (Z.shiftr b 4); hex_digit (Z.land b 15)]) bytes).

End Sha256.

(** ** Express responses *)

Module Express.
Local Open Scope Z_scope.

(** The JSON bodies the OAuth endpoints send. *)
Inductive Body :=
| ErrorBody (error : string) (details : option string)
| TokenBody (access_token token_type : string) (expires_in : Z) (scope : string).

Inductive Response :=
| Redirect (location : string)        (* res.redirect(url) *)
| Json (status : Z) (body : Body)     (* res.status(n).json(b); res.json(b) is status 200 *)
| Send (status : Z) (text : string)   (* res.status(n).send(text) *)
| Uncaught (error : string).          (* an exception left a synchronous handler:
                                         Express's default error handler answers
                                         with status 500 *)

Definition status_of (r : Response) : Z :=
  match r with
  | Redirect _ => 302
  | Json s _ => s
  | Send s _ => s
  | Uncaught _ => 500
  end.

Definition is_redirect (r : Response) : bool :=
  match r with Redirect _ => true | _ => false end.

(** What a middleware does: answer, or call [next()]. *)
Inductive Gate (T : Type) :=
| Reject (r : Response)
| Next (tokenData : T).
Arguments Reject {T} r.
Arguments Next {T} tokenData.

End Express.

(** ** The URL class

    [new URL(s)], [url.searchParams.set(k, v)] and [url.toString()] belong to
    the platform.  The handlers are written against this interface; [URL_new s]
    is [None] when the constructor throws its TypeError, whose message is
    [URL_error_message s]. *)

Class UrlApi := {
  URL : Type;
  URL_new : string -> option URL;
  URL_error_message : string -> string;
  searchParams_set : URL -> string -> string -> URL;
  URL_toString : URL -> string;
}.

(** A small instance, used only in the closed examples below, where the
    inputs are [https://example.com/cb] and [not-a-url].  It accepts the
    strings that start with [http://] or [https://], continue after that, and
    hold no [?] and no [#]; it rejects every other string, keeps the
    parameters in the order they were first set, and does no
    percent-encoding. *)
Module SimpleUrl.

Record t := { base : string; params : list (string * string) }.

Fixpoint plain (s : string) : bool :=
  match s with
  | EmptyString => true
  | String c s' => negb (Ascii.eqb c "?"%char) && negb (Ascii.eqb c "#"%char) && plain s'
  end.

Definition parse (s : string) : option t :=
  if (Js.startsWith s "https://" && (8 <? String.length s)%nat
      || Js.startsWith s "http://" && (7 <? String.length s)%nat)
     && plain s
  then Some {| base := s; params := [] |}
  else None.

Fixpoint set_param (k v : string) (ps : list (string * string)) : list (string * string) :=
  match ps with
  | [] => [(k, v)]
  | (k', v') :: rest =>
      if String.eqb k k' then (k, v) :: rest else (k', v') :: set_param k v rest
  end.

Fixpoint query (sep : string) (ps : list (string * string)) : string :=
  match ps with
  | [] => EmptyString
  | (k, v) :: rest => sep +:+ k +:+ "=" +:+ v +:+ query "&" rest
  end.

Definition api : UrlApi := {|
  URL := t;
  URL_new := parse;
  URL_error_message := fun _ => "Invalid URL"%string;
  searchParams_set := fun u k v => {| base := base u; params := set_param k v (params u) |};
  URL_toString := fun u => base u +:+ query "?" (params u);
|}.

End SimpleUrl.

(** ** The full authorization server (src/unnamed/part_002) *)

Module OAuth.
Import Js Express.
Local Open Scope Z_scope.

(** A value of [authorizationCodes]. *)
Record AuthData := {
  code_client_id : string;
  code_redirect_uri : option string;
  code_scope : string;
  code_challenge : option string;
  code_challenge_method : string;
  code_expires_at : Z;
}.

(** A value of [accessTokens]. *)
Record TokenData := {
  token_client_id : string;
  token_scope : string;
  token_expires_at : Z;
}.

(** A value of [clients]. *)
Record Client := {
  client_id : string;
  client_secret : string;
  redirect_uris : list string;
  scope : string;
}.

(** The three module-level Maps. *)
Record State := {
  authorizationCodes : gmap string AuthData;
  accessTokens : gmap string TokenData;
  clients : gmap string Client;
}.

Definition DEFAULT_CLIENT_client_id : string := "tmdb-mcp-client".

Definition DEFAULT_CLIENT (secret : string) : Client := {|
  client_id := DEFAULT_CLIENT_client_id;
  client_secret := secret;
  redirect_uris :=
    [ "https://chatgpt.com/oauth/callback";
      "https://chat.openai.com/oauth/callback";
      "https://platform.openai.com/oauth/callback";
      "http://localhost:3000/oauth/callback" ];
  scope := "tmdb:read";
|}.

(** The state after module initialisation; [secret] is the UUID drawn for
    the default client's secret. *)
Definition init (secret : string) : State := {|
  authorizationCodes := ∅;
  accessTokens := ∅;
  clients := {[ DEFAULT_CLIENT_client_id := DEFAULT_CLIENT secret ]};
|}.

(** [req.query] of GET /oauth/authorize. *)
Record AuthorizeQuery := {
  q_client_id : option string;
  q_redirect_uri : option string;
  q_scope : option string;
  q_state : option string;
  q_response_type : option string;
  q_code_challenge : option string;
  q_code_challenge_method : option string;
}.

(** [req.body] of POST /oauth/token. *)
Record TokenRequest := {
  grant_type : option string;
  code : option string;
  redirect_uri : option string;
  b_client_id : option string;
  b_client_secret : option string;
  code_verifier : option string;
}.

(** The record [authorize] stores: destructuring defaults apply to
    [undefined] only, [client_id || DEFAULT_CLIENT.client_id] also to the
    empty string. *)
Definition issued (now : Z) (q : AuthorizeQuery) : AuthData := {|
  code_client_id := or_else (q_client_id q) DEFAULT_CLIENT_client_id;
  code_redirect_uri := q_redirect_uri q;
  code_scope := default "tmdb:read"%string (q_scope q);
  code_challenge := q_code_challenge q;
  code_challenge_method := default "S256"%string (q_code_challenge_method q);
  code_expires_at := now + 600000;
|}.

Section Authorize.
Context {U : UrlApi}.

(** app.get('/oauth/authorize'): [authCode] is the UUID drawn by
    crypto.randomUUID(), [now] the reading of Date.now().  The lookup in
    [clients] only feeds a log line.  The code is stored before the try
    block; the catch answers 400. *)
Definition authorize (authCode : string) (now : Z) (q : AuthorizeQuery)
    (st : State) : Response * State :=
  let st' := {|
    authorizationCodes := <[authCode := issued now q]> (authorizationCodes st);
    accessTokens := accessTokens st;
    clients := clients st;
  |} in
  let redirect_uri := to_string (q_redirect_uri q) in
  match URL_new redirect_uri with
  | Some callbackUrl =>
      let callbackUrl := searchParams_set callbackUrl "code" authCode in
      let callbackUrl :=
        if truthy (q_state q)
        then searchParams_set callbackUrl "state" (to_string (q_state q))
        else callbackUrl in
      (Redirect (URL_toString callbackUrl), st')
  | None =>
      (Json 400 (ErrorBody "invalid_redirect_uri"
                           (Some (URL_error_message redirect_uri))), st')
  end.
End Authorize.

(** The PKCE test of the token endpoint:
    [authData.code_challenge && code_verifier], then the comparison of the
    digest with the stored challenge.  [true] means verification failed. *)
Definition pkce_failed (authData : AuthData) (code_verifier : option string) : bool :=
  match code_challenge authData, code_verifier with
  | Some challenge, Some verifier =>
      truthy (Some challenge) && truthy (Some verifier)
      && negb (String.eqb (Sha256.sha256_base64url verifier) challenge)
  | _, _ => false
  end.

Definition invalid_grant (details : string) : Response :=
  Json 400 (ErrorBody "invalid_grant" (Some details)).

(** app.post('/oauth/token'): [accessToken] is the UUID a successful branch
    draws, [now] the reading of Date.now() (the handler is synchronous; its
    two readings of the clock are taken to be the same instant). *)
Definition token (accessToken : string) (now : Z) (b : TokenRequest)
    (st : State) : Response * State :=
  if decide (grant_type b = Some "client_credentials"%string) then
    (Json 200 (TokenBody accessToken "Bearer" 3600 "tmdb:read"),
     {| authorizationCodes := authorizationCodes st;
        accessTokens :=
          <[accessToken := {| token_client_id := or_else (b_client_id b) DEFAULT_CLIENT_client_id;
                              token_scope := "tmdb:read";
                              token_expires_at := now + 3600000 |}]> (accessTokens st);
        clients := clients st |})
  else if decide (grant_type b = Some "authorization_code"%string) then
    match code b with
    | None =>
        (* the keys of the Map are strings: get(undefined) finds nothing *)
        (invalid_grant "Code not found or expired", st)
    | Some c =>
        match authorizationCodes st !! c with
        | None => (invalid_grant "Code not found or expired", st)
        | Some authData =>
            if code_expires_at authData <? now then
              (invalid_grant "Code not found or expired", st)
            else if pkce_failed authData (code_verifier b) then
              (invalid_grant "PKCE verification failed", st)
            else
              (Json 200 (TokenBody accessToken "Bearer" 3600 (code_scope authData)),
               {| authorizationCodes := delete c (authorizationCodes st);
                  accessTokens :=
                    <[accessToken := {| token_client_id := code_client_id authData;
                                        token_scope := code_scope authData;
                                        token_expires_at := now + 3600000 |}]>
                      (accessTokens st);
                  clients := clients st |})
        end
    end
  else
    (Json 400 (ErrorBody "unsupported_grant_type" None), st).

(** app.post('/oauth/register'): two UUIDs are drawn. *)
Definition register (id secret : string) (body_redirect_uris : option (list string))
    (body_scope : option string) (st : State) : Client * State :=
  let client := {|
    client_id := id;
    client_secret := secret;
    redirect_uris :=
      match body_redirect_uris with
      | Some uris => uris
      | None => redirect_uris (DEFAULT_CLIENT EmptyString)
      end;
    scope := default "tmdb:read"%string body_scope;
  |} in
  (client, {| authorizationCodes := authorizationCodes st;
              accessTokens := accessTokens st;
              clients := <[id := client]> (clients st) |}).

(** function requireAuth(req, res, next): [authHeader] is
    [req.headers.authorization].  The state is returned as the middleware
    leaves it. *)
Definition requireAuth (now : Z) (authHeader : option string) (st : State)
    : Gate TokenData * State :=
  if negb (truthy authHeader) || negb (startsWith (to_string authHeader) "Bearer ") then
    (Reject (Json 401 (ErrorBody "invalid_token" None)), st)
  else
    let token := slice 7 (to_string authHeader) in
    match accessTokens st !! token with
    | None => (Reject (Json 401 (ErrorBody "invalid_token" None)), st)
    | Some tokenData =>
        if token_expires_at tokenData <? now
        then (Reject (Json 401 (ErrorBody "invalid_token" None)), st)
        else (Next tokenData, st)
    end.

End OAuth.

(** ** The single-map authorization server (src/src/server-sse-oauth.js) *)

Module SseOAuth.
Import Js Express.
Local Open Scope Z_scope.

(** A value of [tokens]: authorization codes are stored without a [type],
    access tokens with [type: 'access_token'].  No record has an expiry. *)
Record Entry := {
  type : option string;
  client_id : string;
  scope : string;
  created_at : Z;
}.

Record AuthorizeQuery := {
  q_client_id : option string;
  q_redirect_uri : option string;
  q_scope : option string;
  q_state : option string;
  q_response_type : option string;
}.

Record TokenRequest := {
  grant_type : option string;
  code : option string;
  b_client_id : option string;
}.

Section Authorize.
Context {U : UrlApi}.

(** app.get('/oauth/authorize'): the URL constructor is called outside of
    any try block. *)
Definition authorize (code : string) (now : Z) (q : AuthorizeQuery)
    (tokens : gmap string Entry) : Response * gmap string Entry :=
  let tokens' :=
    <[code := {| type := None;
                 client_id := or_else (q_client_id q) "default";
                 scope := or_else (q_scope q) "read";
                 created_at := now |}]> tokens in
  let redirect_uri := to_string (q_redirect_uri q) in
  match URL_new redirect_uri with
  | Some callback =>
      let callback := searchParams_set callback "code" code in
      let callback :=
        if truthy (q_state q)
        then searchParams_set callback "state" (to_string (q_state q))
        else callback in
      (Redirect (URL_toString callback), tokens')
  | None => (Uncaught (URL_error_message redirect_uri), tokens')
  end.
End Authorize.

(** app.post('/oauth/token') *)
Definition token (accessToken : string) (now : Z) (b : TokenRequest)
    (tokens : gmap string Entry) : Response * gmap string Entry :=
  if decide (grant_type b = Some "authorization_code"%string) then
    match code b with
    | None => (Json 400 (ErrorBody "invalid_grant" None), tokens)
    | Some c =>
        match tokens !! c with
        | None => (Json 400 (ErrorBody "invalid_grant" None), tokens)
        | Some tokenData =>
            (Json 200 (TokenBody accessToken "Bearer" 3600 (scope tokenData)),
             delete c
               (<[accessToken := {| type := Some "access_token"%string;
                                    client_id := client_id tokenData;
                                    scope := scope tokenData;
                                    created_at := now |}]> tokens))
        end
    end
  else
    (Json 400 (ErrorBody "unsupported_grant_type" None), tokens).

(** function requireAuth(req, res, next) *)
Definition requireAuth (auth : option string) (tokens : gmap string Entry)
    : Gate unit * gmap string Entry :=
  if negb (truthy auth) || negb (startsWith (to_string auth) "Bearer ") then
    (Reject (Json 401 (ErrorBody "unauthorized" None)), tokens)
  else
    let token := slice 7 (to_string auth) in
    match tokens !! token with
    | None => (Reject (Json 401 (ErrorBody "invalid_token" None)), tokens)
    | Some tokenData =>
        if decide (type tokenData = Some "access_token"%string)
        then (Next (), tokens)
        else (Reject (Json 401 (ErrorBody "invalid_token" None)), tokens)
    end.

End SseOAuth.

(** ** Session registries

    [const transports = {}] is a plain object used as a map from session ids
    to transport objects.  A transport object is identified by the number of
    [new ...Transport(...)] calls made before its own. *)

Module Registry.

Definition Transport := nat.

Record State := {
  transports : gmap string Transport;
  created : nat;
}.

Definition init : State := {| transports := ∅; created := 0 |}.

(** The members a plain object inherits from Object.prototype. *)
Definition Object_prototype : list string :=
  [ "constructor"; "__defineGetter__"; "__defineSetter__"; "hasOwnProperty";
    "__lookupGetter__"; "__lookupSetter__"; "isPrototypeOf";
    "propertyIsEnumerable"; "toString"; "valueOf"; "__proto__";
    "toLocaleString" ].

(** The value of [transports[key]]. *)
Inductive Property :=
| Own (transport : Transport)   (* a transport stored under the key *)
| Inherited                     (* a member of Object.prototype: truthy, not a transport *)
| Undefined.

Definition get (o : gmap string Transport) (key : string) : Property :=
  match o !! key with
  | Some t => Own t
  | None => if bool_decide (key ∈ Object_prototype) then Inherited else Undefined
  end.

(** [transports[key] = t]: an own property, except under the key
    [__proto__], whose setter is inherited. *)
Definition set (o : gmap string Transport) (key : string) (t : Transport)
    : gmap string Transport :=
  if decide (key = "__proto__"%string) then o else <[key := t]> o.

End Registry.

(** *** src/src/server-http.js: GET /mcp and POST /mcp *)

Module ServerHttp.
Import Js Registry.

Inductive Outcome :=
| Handled (sessionId : string) (transport : Transport)
    (* the Mcp-Session-Id header is set and the request is passed to
       transport.handleGetRequest / transport.handlePostRequest *)
| NotATransport (sessionId : string).
    (* transports[sessionId] is an inherited member: the method call
       throws a TypeError inside the async handler *)

(** The body shared by app.get('/mcp') and app.post('/mcp'): [header] is
    [req.headers['mcp-session-id']], [uuid] the value randomUUID() returns
    when it is called. *)
Definition mcp (uuid : string) (header : option string) (st : State)
    : Outcome * State :=
  let sessionId := or_else header uuid in
  match get (transports st) sessionId with
  | Own transport => (Handled sessionId transport, st)
  | Inherited => (NotATransport sessionId, st)
  | Undefined =>
      let transport := created st in
      (Handled sessionId transport,
       {| transports := <[sessionId := transport]> (transports st);
          created := S (created st) |})
  end.

Definition get_mcp := mcp.

End ServerHttp.

(** *** src/unnamed/part_000 (second file): GET /sse and POST /messages *)

Module ServerSse.
Import Js Express Registry.
Local Open Scope Z_scope.

(** app.get('/sse'): [sessionId] is the id the SSEServerTransport
    constructor generates for the new transport. *)
Definition sse (sessionId : string) (st : State) : Transport * State :=
  let transport := created st in
  (transport,
   {| transports := set (transports st) sessionId transport;
      created := S (created st) |}).

(** The listener registered with res.on("close", ...) by the open that
    created the transport with this [sessionId]. *)
Definition close (sessionId : string) (st : State) : State :=
  {| transports := delete sessionId (transports st); created := created st |}.

Inductive Outcome :=
| Delivered (transport : Transport)   (* transport.handlePostMessage(req, res, req.body) *)
| Answered (r : Response).

(** app.post("/messages"): [sessionId] is [req.query.sessionId]. *)
Definition messages (sessionId : option string) (st : State) : Outcome :=
  match get (transports st) (to_string sessionId) with
  | Own transport => Delivered transport
  | Inherited | Undefined => Answered (Send 400 "No transport found for sessionId")
  end.

End ServerSse.

(** ** The tool handlers *)

Module Tools.
Import Js.
Local Open Scope Z_scope.

(** A value produced by [response.json()] or carried by a request.  The
    fields of an object are listed in the order of its properties and have
    distinct keys, as JSON.parse yields them.  [undefined] is [None] of
    [option json]. *)
Inductive json :=
| JNull
| JBool (b : bool)
| JNum (x : number)
| JStr (s : string)
| JArr (elements : list json)
| JObj (fields : list (string * json)).
Arguments JNum x%_Z.

(** A computation that returns or throws; [Throw] carries [error.message]. *)
Inductive result (A : Type) :=
| Ok (a : A)
| Throw (message : string).
Arguments Ok {A} a.
Arguments Throw {A} message.

#[global] Instance result_ret : MRet result := fun A a => Ok a.
#[global] Instance result_bind : MBind result := fun A B f m =>
  match m with
  | Ok a => f a
  | Throw message => Throw message
  end.

(** [try { body } catch (error) { handler }] *)
Definition try_catch {A} (body : result A) (handler : string -> result A) : result A :=
  match body with
  | Ok a => Ok a
  | Throw message => handler message
  end.

Fixpoint get_own (key : string) (fields : list (string * json)) : option json :=
  match fields with
  | [] => None
  | (k, v) :: rest => if String.eqb k key then Some v else get_own key rest
  end.

(** [value.key] for the keys the handlers read (query, id, results, title,
    release_date), none of which is an inherited member of a prototype.
    The messages of the engine's TypeErrors are worded as V8 words them. *)
Definition get (value : option json) (key : string) : result (option json) :=
  match value with
  | None => Throw ("Cannot read properties of undefined (reading '" +:+ key +:+ "')")
  | Some JNull => Throw ("Cannot read properties of null (reading '" +:+ key +:+ "')")
  | Some (JObj fields) => Ok (get_own key fields)
  | Some _ => Ok None
  end.

(** ToString of a value: primitives print, an array joins its elements
    with commas (null elements print as nothing), a plain object prints as
    [object Object] unless an own toString field hides the inherited
    method. *)
Fixpoint to_string (v : json) : result string :=
  match v with
  | JNull => Ok "null"%string
  | JBool true => Ok "true"%string
  | JBool false => Ok "false"%string
  | JNum x => Ok (number_toString x)
  | JStr s => Ok s
  | JArr elements =>
      (fix join (l : list json) : result string :=
         match l with
         | [] => Ok EmptyString
         | x :: rest =>
             s ← match x with JNull => Ok EmptyString | _ => to_string x end;
             match rest with
             | [] => Ok s
             | _ :: _ => r ← join rest; Ok (s +:+ "," +:+ r)
             end
         end) elements
  | JObj fields =>
      match get_own "toString" fields with
      | None => Ok "[object Object]"%string
      | Some _ => Throw "Cannot convert object to primitive value"
      end
  end.

(** [`${value}`] and the argument conversion of encodeURIComponent. *)
Definition template (value : option json) : result string :=
  match value with
  | None => Ok "undefined"%string
  | Some v => to_string v
  end.

(** [value.toString()] *)
Definition call_toString (callee : string) (value : option json) : result string :=
  match value with
  | None | Some JNull => _ ← get value "toString"; Ok EmptyString
  | Some (JObj fields) =>
      match get_own "toString" fields with
      | None => Ok "[object Object]"%string
      | Some _ => Throw (callee +:+ ".toString is not a function")
      end
  | Some v => to_string v
  end.

(** *** JSON.stringify *)

Definition dquote : string := String (ascii_of_nat 34) EmptyString.
Definition backslash : string := String (ascii_of_nat 92) EmptyString.
Definition newline : string := String (ascii_of_nat 10) EmptyString.

Definition hex_digit (x : nat) : ascii :=
  ascii_of_nat (if (x <? 10)%nat then x + 48 else x - 10 + 97).

Definition escape_char (c : ascii) : string :=
  let n := nat_of_ascii c in
  if (n =? 34)%nat then backslash +:+ dquote
  else if (n =? 92)%nat then backslash +:+ backslash
  else if (n =? 8)%nat then backslash +:+ "b"
  else if (n =? 9)%nat then backslash +:+ "t"
  else if (n =? 10)%nat then backslash +:+ "n"
  else if (n =? 12)%nat then backslash +:+ "f"
  else if (n =? 13)%nat then backslash +:+ "r"
  else if (n <? 32)%nat then
    backslash +:+ "u00"
      +:+ String (hex_digit (Nat.div n 16)) (String (hex_digit (Nat.modulo n 16)) EmptyString)
  else String c EmptyString.

Fixpoint escape (s : string) : string :=
  match s with
  | EmptyString => EmptyString
  | String c s' => escape_char c +:+ escape s'
  end.

Definition quote (s : string) : string := dquote +:+ escape s +:+ dquote.

(** The strings that JSON.stringify prints as they are between the two
    quotes: no quote, no backslash, no control character. *)
Fixpoint plain (s : string) : bool :=
  match s with
  | EmptyString => true
  | String c s' =>
      let n := nat_of_ascii c in
      (32 <=? n)%nat && negb (n =? 34)%nat && negb (n =? 92)%nat && plain s'
  end.

(** JSON.stringify of a number: the infinities print as null. *)
Definition number_json (x : number) : string :=
  if is_finite x then number_toString x else "null".

(** [JSON.stringify(value)] *)
Fixpoint stringify (v : json) : string :=
  match v with
  | JNull => "null"
  | JBool true => "true"
  | JBool false => "false"
  | JNum x => number_json x
  | JStr s => quote s
  | JArr elements =>
      "[" +:+
      (fix items (l : list json) : string :=
         match l with
         | [] => EmptyString
         | [x] => stringify x
         | x :: rest => stringify x +:+ "," +:+ items rest
         end) elements
      +:+ "]"
  | JObj fields =>
      "{" +:+
      (fix members (l : list (string * json)) : string :=
         match l with
         | [] => EmptyString
         | [(k, x)] => quote k +:+ ":" +:+ stringify x
         | (k, x) :: rest => quote k +:+ ":" +:+ stringify x +:+ "," +:+ members rest
         end) fields
      +:+ "}"
  end.

(** [JSON.stringify(value, null, 2)] at the indentation [indent]. *)
Fixpoint stringify_indented (indent : string) (v : json) : string :=
  let inner := (indent +:+ "  ")%string in
  match v with
  | JArr [] => "[]"
  | JArr elements =>
      "[" +:+ newline +:+
      (fix items (l : list json) : string :=
         match l with
         | [] => EmptyString
         | [x] => inner +:+ stringify_indented inner x
         | x :: rest =>
             inner +:+ stringify_indented inner x +:+ "," +:+ newline +:+ items rest
         end) elements
      +:+ newline +:+ indent +:+ "]"
  | JObj [] => "{}"
  | JObj fields =>
      "{" +:+ newline +:+
      (fix members (l : list (string * json)) : string :=
         match l with
         | [] => EmptyString
         | [(k, x)] => inner +:+ quote k +:+ ": " +:+ stringify_indented inner x
         | (k, x) :: rest =>
             inner +:+ quote k +:+ ": " +:+ stringify_indented inner x
               +:+ "," +:+ newline +:+ members rest
         end) fields
      +:+ newline +:+ indent +:+ "}"
  | _ => stringify v
  end.

(** *** The external collaborator *)

(** What [await response.json()] yields. *)
Inductive Payload :=
| Parsed (data : json)
| Malformed (message : string).   (* the promise rejects: the body is not JSON *)

(** What [await fetch(url)] yields. *)
Inductive Reply :=
| Responded (status : Z) (payload : Payload)
| NetworkError (message : string).   (* the promise rejects *)

(** [const response = await fetch(url); const data = await response.json();]
    The status of the response is not consulted. *)
Definition await_json (reply : Reply) : result json :=
  match reply with
  | Responded _ (Parsed data) => Ok data
  | Responded _ (Malformed message) => Throw message
  | NetworkError message => Throw message
  end.

(** *** Tool results *)

Record ContentBlock := { type : string; text : string }.
Record ToolResult := { content : list ContentBlock; isError : bool }.

Definition text_result (s : string) : ToolResult :=
  {| content := [ {| type := "text"; text := s |} ]; isError := false |}.

(** *** src/src/server-chatgpt.js (first file): the handler whose catch
    block returns an error result *)
Module Chatgpt.

Definition dispatch (name : string) (args : option json) (reply : Reply)
    : result ToolResult :=
  if String.eqb name "search" then
    query ← get args "query";
    _ ← template query;
    data ← await_json reply;
    Ok (text_result (stringify_indented EmptyString data))
  else if String.eqb name "fetch" then
    movieId ← get args "id";
    _ ← template movieId;
    data ← await_json reply;
    Ok (text_result (stringify_indented EmptyString data))
  else Throw ("Unknown tool: " +:+ name).

Definition callTool (name : string) (args : option json) (reply : Reply)
    : result ToolResult :=
  try_catch (dispatch name args reply) (fun message =>
    Ok {| content := [ {| type := "text"; text := "Error: " +:+ message |} ];
          isError := true |}).

End Chatgpt.

(** *** The formatted search of src/src/server-final.js and
    src/src/server-sse-oauth.js *)

Record Entry := { id : string; title : string; url : string }.

(** [movie.release_date?.split('-')[0]] *)
Definition release_year (release_date : option json) : result (option string) :=
  match release_date with
  | None | Some JNull => Ok None
  | Some (JStr s) => Ok (Some (split_hyphen_0 s))
  | Some _ => Throw "movie.release_date?.split is not a function"
  end.

(** The callback of [.map(movie => ({ id, title, url }))]. *)
Definition search_entry (movie : json) : result Entry :=
  movie_id ← get (Some movie) "id";
  id ← call_toString "movie.id" movie_id;
  movie_title ← get (Some movie) "title";
  title ← template movie_title;
  release_date ← get (Some movie) "release_date";
  year ← release_year release_date;
  id' ← template movie_id;
  Ok {| id := id;
        title := title +:+ " (" +:+ or_else year "Unknown" +:+ ")";
        url := "https://www.themoviedb.org/movie/" +:+ id' |}.

Fixpoint map_entries (movies : list json) : result (list Entry) :=
  match movies with
  | [] => Ok []
  | movie :: rest =>
      entry ← search_entry movie;
      entries ← map_entries rest;
      Ok (entry :: entries)
  end.

(** [data.results?.slice(0, 10).map(...) || []] *)
Definition search_results (data : json) : result (list Entry) :=
  results ← get (Some data) "results";
  match results with
  | None | Some JNull => Ok []
  | Some (JArr movies) => map_entries (firstn 10 movies)
  | Some (JStr _) => Throw "data.results?.slice(...).map is not a function"
  | Some _ => Throw "data.results?.slice is not a function"
  end.

Definition entry_json (e : Entry) : json :=
  JObj [ ("id"%string, JStr (id e)); ("title"%string, JStr (title e));
         ("url"%string, JStr (url e)) ].

(** [JSON.stringify({ results })] *)
Definition results_text (entries : list Entry) : string :=
  stringify (JObj [ ("results"%string, JArr (map entry_json entries)) ]).

Section Formatted.
(** The text the 'fetch' case builds from the parsed reply and [args.id];
    it may throw.  No statement below depends on it. *)
Variable fetch_document : json -> option json -> result string.
(** The two messages in which the copies of this handler differ. *)
Variable key_required : string.
Variable failed_prefix : string.

Definition dispatch (name : string) (args : option json) (reply : Reply)
    : result ToolResult :=
  if String.eqb name "search" then
    query ← get args "query";
    _ ← template query;
    data ← await_json reply;
    entries ← search_results data;
    Ok (text_result (results_text entries))
  else if String.eqb name "fetch" then
    movieId ← get args "id";
    _ ← template movieId;
    data ← await_json reply;
    document ← fetch_document data movieId;
    Ok (text_result document)
  else Throw ("Unknown tool: " +:+ name).

(** [apiKey] is [process.env.TMDB_API_KEY]. *)
Definition callTool (apiKey : option string) (name : string) (args : option json)
    (reply : Reply) : result ToolResult :=
  if negb (truthy apiKey) then Throw key_required
  else try_catch (dispatch name args reply) (fun message =>
         Throw (failed_prefix +:+ message)).
End Formatted.

(** src/src/server-final.js *)
Definition Final_callTool fetch_document :=
  callTool fetch_document "TMDB_API_KEY required" "Tool failed: ".


End Tools.

(** ** The full authorization server as a transition system

    Every route of src/unnamed/part_002 that can touch the three Maps, with
    the values the handler draws from its environment. *)

Module OAuthServer.
Import Js Express OAuth.

Inductive Request :=
| PostRegister (body_redirect_uris : option (list string)) (body_scope : option string)
| GetAuthorize (q : AuthorizeQuery)
| PostToken (b : TokenRequest)
| Mcp (authHeader : option string)   (* GET or POST /mcp, behind requireAuth *)
| Static.                            (* metadata and status routes *)

(** Two UUIDs (only /oauth/register draws the second) and the clock. *)
Record Draw := { uuid : string; uuid' : string; now : Z }.

Section Step.
Context {U : UrlApi}.

Definition step (d : Draw) (r : Request) (st : State) : State :=
  match r with
  | PostRegister uris sc => snd (register (uuid d) (uuid' d) uris sc st)
  | GetAuthorize q => snd (authorize (uuid d) (now d) q st)
  | PostToken b => snd (token (uuid d) (now d) b st)
  | Mcp authHeader => snd (requireAuth (now d) authHeader st)
  | Static => st
  end.

Fixpoint run (trace : list (Draw * Request)) (st : State) : State :=
  match trace with
  | [] => st
  | (d, r) :: rest => run rest (step d r st)
  end.
End Step.

End OAuthServer.

(** Sequences of stream-open requests on the two registries. *)

Module Opens.
Import Registry.

(** server-http.js: each open carries the UUID drawn and the header. *)
Fixpoint http (trace : list (string * option string)) (st : State) : State :=
  match trace with
  | [] => st
  | (uuid, header) :: rest => http rest (snd (ServerHttp.get_mcp uuid header st))
  end.

(** part_000: each open carries the id of the new transport. *)
Fixpoint sse (trace : list string) (st : State) : State :=
  match trace with
  | [] => st
  | sessionId :: rest => sse rest (snd (ServerSse.sse sessionId st))
  end.

(** The registry entries stored under one session id. *)
Definition entries (sessionId : string) (st : State) : list (string * Transport) :=
  filter (fun kv => fst kv = sessionId) (map_to_list (transports st)).

End Opens.

(** ** Concrete requests for the closed examples *)

Module Scenario.
Import OAuth.

(** The verifier and the S256 challenge of RFC 7636, appendix B. *)
Definition verifier : string := "dBjftJeZ4CVP-mB92K27uhbUJU1p1r_wW1gFWFOEjXk".
Definition challenge : string := "E9Melhoa2OwvFrEMTJguCHaoeK1t8URWbuGJSstw-cM".

(** GET /oauth/authorize?redirect_uri=...&state=xyz&response_type=code, with
    or without a redirect_uri and a code_challenge. *)
Definition query (redirect code_challenge : option string) : AuthorizeQuery := {|
  q_client_id := None;
  q_redirect_uri := redirect;
  q_scope := None;
  q_state := Some "xyz"%string;
  q_response_type := Some "code"%string;
  q_code_challenge := code_challenge;
  q_code_challenge_method := None;
|}.

Definition callback : option string := Some "https://example.com/cb"%string.

(** POST /oauth/token { grant_type: 'authorization_code', code, code_verifier } *)
Definition exchange (c : string) (code_verifier : option string) : TokenRequest := {|
  grant_type := Some "authorization_code"%string;
  code := Some c;
  redirect_uri := None;
  b_client_id := None;
  b_client_secret := None;
  code_verifier := code_verifier;
|}.

(** The server after one authorization at time 0 that drew the UUID code-1. *)
Definition authorized (code_challenge : option string) : Express.Response * State :=
  authorize (U := SimpleUrl.api) "code-1" 0 (query callback code_challenge) (init "secret").

(** The same requests for server-sse-oauth.js. *)
Definition simple_query (redirect : option string) : SseOAuth.AuthorizeQuery := {|
  SseOAuth.q_client_id := None;
  SseOAuth.q_redirect_uri := redirect;
  SseOAuth.q_scope := None;
  SseOAuth.q_state := Some "xyz"%string;
  SseOAuth.q_response_type := Some "code"%string;
|}.

Definition simple_exchange (c : string) : SseOAuth.TokenRequest := {|
  SseOAuth.grant_type := Some "authorization_code"%string;
  SseOAuth.code := Some c;
  SseOAuth.b_client_id := None;
|}.

End Scenario.

(** Tool calls for the closed examples. *)

Module ToolScenario.
Import Tools.

(** The record the collaborator returns for the query fight club. *)
Definition fight_club : json :=
  JObj [ ("id"%string, JNum 550); ("title"%string, JStr "Fight Club");
         ("release_date"%string, JStr "1999-10-15") ].

Definition one_record : json :=
  JObj [ ("page"%string, JNum 1); ("results"%string, JArr [fight_club]);
         ("total_results"%string, JNum 1) ].

Definition search_args : option json := Some (JObj [ ("query"%string, JStr "fight club") ]).
Definition fetch_args : option json := Some (JObj [ ("id"%string, JStr "550") ]).

(** The body the collaborator sends with status 404. *)
Definition not_found : json :=
  JObj [ ("success"%string, JBool false); ("status_code"%string, JNum 34);
         ("status_message"%string,
          JStr "The resource you requested could not be found.") ].

(** A stand-in for the text of the 'fetch' case, which is not reached in the
    examples. *)
Definition no_document (data : json) (id : option json) : result string := Ok EmptyString.

(** A record whose title holds a backslash and two quotes, and whose id is
    2 ^ 60, of which a double keeps sixteen digits. *)
Definition live_album : json :=
  JObj [ ("id"%string, JNum 1152921504606846976);
         ("title"%string,
          JStr ("AC" +:+ backslash +:+ "DC: " +:+ dquote +:+ "Live" +:+ dquote)) ].



(** A page of results with the kinds of values the collaborator sends:
    numbers that are not integers, null, nested and empty arrays. *)
Definition rated_page : json :=
  JObj [ ("page"%string, JNum 1);
         ("results"%string,
          JArr [ JObj [ ("adult"%string, JBool false);
                        ("backdrop_path"%string, JNull);
                        ("genre_ids"%string, JArr [ JNum 18; JNum 53 ]);
                        ("id"%string, JNum 550);
                        ("title"%string, JStr "Fight Club");
                        ("popularity"%string, JNum (Js.literal 61416 (-3)));
                        ("vote_average"%string, JNum (Js.literal 8433 (-3))) ] ]);
         ("total_pages"%string, JNum 1);
         ("warnings"%string, JArr []) ].

(** The details of one movie, with a line break inside a string. *)
Definition details : json :=
  JObj [ ("id"%string, JNum 550);
         ("title"%string, JStr "Fight Club");
         ("tagline"%string, JStr ("Mischief." +:+ newline +:+ "Mayhem."));
         ("vote_average"%string, JNum (Js.literal 8433 (-3)));
         ("genres"%string,
          JArr [ JObj [ ("id"%string, JNum 18); ("name"%string, JStr "Drama") ] ]);
         ("belongs_to_collection"%string, JNull);
         ("production_companies"%string, JArr []) ].

End ToolScenario.

(** ** More of the servers

    The routes and handlers of the cited files that the definitions above
    leave out. *)

(** *** The discovery documents *)

Module Discovery.
Import Js.

(** The body of GET /.well-known/oauth-authorization-server; the fields a
    server does not send are [None]. *)
Record Metadata := {
  issuer : string;
  authorization_endpoint : string;
  token_endpoint : string;
  userinfo_endpoint : option string;
  jwks_uri : option string;
  scopes_supported : list string;
  response_types_supported : list string;
  grant_types_supported : list string;
  code_challenge_methods_supported : option (list string);
  token_endpoint_auth_methods_supported : list string;
}.

(** [`${req.protocol}://${req.get('host')}`] *)
Definition baseUrl (protocol : string) (host : option string) : string :=
  protocol +:+ "://" +:+ to_string host.

(** src/unnamed/part_002 *)
Definition oauth (protocol : string) (host : option string) : Metadata := {|
  issuer := baseUrl protocol host;
  authorization_endpoint := baseUrl protocol host +:+ "/oauth/authorize";
  token_endpoint := baseUrl protocol host +:+ "/oauth/token";
  userinfo_endpoint := Some (baseUrl protocol host +:+ "/oauth/userinfo");
  jwks_uri := Some (baseUrl protocol host +:+ "/.well-known/jwks.json");
  scopes_supported := [ "tmdb:read"%string ];
  response_types_supported := [ "code"%string ];
  grant_types_supported := [ "authorization_code"%string; "client_credentials"%string ];
  code_challenge_methods_supported := Some [ "S256"%string ];
  token_endpoint_auth_methods_supported :=
    [ "client_secret_basic"%string; "client_secret_post"%string ];
|}.

(** src/src/server-sse-oauth.js and src/src/server-final.js *)
Definition sse_oauth (protocol : string) (host : option string) : Metadata := {|
  issuer := baseUrl protocol host;
  authorization_endpoint := baseUrl protocol host +:+ "/oauth/authorize";
  token_endpoint := baseUrl protocol host +:+ "/oauth/token";
  userinfo_endpoint := None;
  jwks_uri := None;
  scopes_supported := [ "read"%string ];
  response_types_supported := [ "code"%string ];
  grant_types_supported := [ "authorization_code"%string ];
  code_challenge_methods_supported := None;
  token_endpoint_auth_methods_supported := [ "none"%string ];
|}.

End Discovery.

(** *** src/unnamed/part_002: POST /mcp and GET /mcp behind requireAuth *)

Module ProtectedMcp.
Import Js Express.

Record State := {
  oauth : OAuth.State;
  registry : Registry.State;
}.

Inductive Outcome :=
| Refused (r : Response)
| Passed (tokenData : OAuth.TokenData) (handled : ServerHttp.Outcome).

(** app.post('/mcp', requireAuth, ...) and app.get('/mcp', requireAuth, ...):
    the middleware, then the body that server-http.js has too. *)
Definition mcp (now : Z) (authHeader : option string) (uuid : string)
    (header : option string) (st : State) : Outcome * State :=
  match OAuth.requireAuth now authHeader (oauth st) with
  | (Reject r, oauth') => (Refused r, {| oauth := oauth'; registry := registry st |})
  | (Next tokenData, oauth') =>
      let handled := ServerHttp.mcp uuid header (registry st) in
      (Passed tokenData (fst handled), {| oauth := oauth'; registry := snd handled |})
  end.

End ProtectedMcp.

(** *** src/src/server-sse-oauth.js: GET /sse and POST /messages *)

Module SseOAuthRoutes.
Import Js Express SseOAuth.

(** app.get('/sse'): the check made before the transport is created.
    [Next ()] is the fall-through to [new SSEServerTransport] and
    handleSSEConnection. *)
Definition sse (authorization : option string) (tokens : gmap string Entry) : Gate unit :=
  if truthy authorization then
    if startsWith (to_string authorization) "Bearer " then
      let token := slice 7 (to_string authorization) in
      match tokens !! token with
      | None => Reject (Json 401 (ErrorBody "invalid_token" None))
      | Some tokenData =>
          if decide (type tokenData = Some "access_token"%string)
          then Next ()
          else Reject (Json 401 (ErrorBody "invalid_token" None))
      end
    else Next ()
  else Next ().

(** app.post('/messages', requireAuth, ...) *)
Definition messages (auth : option string) (tokens : gmap string Entry) : Gate unit :=
  fst (requireAuth auth tokens).

End SseOAuthRoutes.

(** *** src/src/server-sse-oauth.js as a transition system

    Every route of the server, with the values the handler may draw from its
    environment when the request arrives: a UUID and the time. *)

Module SseOAuthServer.
Import Js Express SseOAuth.

Inductive Request :=
| GetAuthorize (q : AuthorizeQuery)
| PostToken (b : TokenRequest)
| GetSse (auth : option string)
| PostMessages (auth : option string)
| Static.                             (* the metadata and status routes *)

Record Draw := { uuid : string; now : Z }.

(** What the client gets: an answer of the route itself, the request handed
    to the transport, or the document of a static route. *)
Inductive Outcome :=
| Answered (r : Response)
| Transport
| Document.

Definition gated (g : Gate unit) : Outcome :=
  match g with
  | Reject r => Answered r
  | Next _ => Transport
  end.

Section Handle.
Context {U : UrlApi}.

Definition handle (d : Draw) (r : Request) (tokens : gmap string Entry)
    : Outcome * gmap string Entry :=
  match r with
  | GetAuthorize q =>
      let answer := authorize (uuid d) (now d) q tokens in
      (Answered (fst answer), snd answer)
  | PostToken b =>
      let answer := token (uuid d) (now d) b tokens in
      (Answered (fst answer), snd answer)
  | GetSse auth => (gated (SseOAuthRoutes.sse auth tokens), tokens)
  | PostMessages auth =>
      let checked := requireAuth auth tokens in
      (gated (fst checked), snd checked)
  | Static => (Document, tokens)
  end.

Fixpoint run (trace : list (Draw * Request)) (tokens : gmap string Entry)
    : gmap string Entry :=
  match trace with
  | [] => tokens
  | (d, r) :: rest => run rest (snd (handle d r tokens))
  end.
End Handle.

End SseOAuthServer.

(** *** src/src/server-final.js: the OAuth routes and checkAuth *)

Module FinalOAuth.
Import Js Express.

(** The records of [tokens] have the shape of those of server-sse-oauth.js,
    [SseOAuth.Entry]. *)

Section Authorize.
Context {U : UrlApi}.

(** app.get('/oauth/authorize') *)
Definition authorize (code : string) (now : Z) (client_id redirect_uri scope state : option string)
    (tokens : gmap string SseOAuth.Entry) : Response * gmap string SseOAuth.Entry :=
  let tokens' :=
    <[code := {| SseOAuth.type := None;
                 SseOAuth.client_id := or_else client_id "chatgpt";
                 SseOAuth.scope := or_else scope "read";
                 SseOAuth.created_at := now |}]> tokens in
  match URL_new (to_string redirect_uri) with
  | Some callback =>
      let callback := searchParams_set callback "code" code in
      let callback :=
        if truthy state
        then searchParams_set callback "state" (to_string state)
        else callback in
      (Redirect (URL_toString callback), tokens')
  | None => (Uncaught (URL_error_message (to_string redirect_uri)), tokens')
  end.
End Authorize.

(** app.post('/oauth/token') *)
Definition token (accessToken : string) (now : Z) (grant_type code : option string)
    (tokens : gmap string SseOAuth.Entry) : Response * gmap string SseOAuth.Entry :=
  if decide (grant_type = Some "authorization_code"%string) then
    match code with
    | None => (Json 400 (ErrorBody "invalid_grant" None), tokens)
    | Some c =>
        match tokens !! c with
        | None => (Json 400 (ErrorBody "invalid_grant" None), tokens)
        | Some authData =>
            (Json 200 (TokenBody accessToken "Bearer" 3600 (SseOAuth.scope authData)),
             delete c
               (<[accessToken := {| SseOAuth.type := Some "access_token"%string;
                                    SseOAuth.client_id := SseOAuth.client_id authData;
                                    SseOAuth.scope := SseOAuth.scope authData;
                                    SseOAuth.created_at := now |}]> tokens))
        end
    end
  else
    (Json 400 (ErrorBody "unsupported_grant_type" None), tokens).

(** function checkAuth(req): the value returned is [false], [undefined]
    (here [None]: no record under the token) or the outcome of the
    comparison of the record's type. *)
Definition checkAuth (auth : option string) (tokens : gmap string SseOAuth.Entry) : option bool :=
  if negb (truthy auth) || negb (startsWith (to_string auth) "Bearer ") then Some false
  else
    match tokens !! slice 7 (to_string auth) with
    | None => None
    | Some tokenData => Some (bool_decide (SseOAuth.type tokenData = Some "access_token"%string))
    end.

(** ToBoolean of the value checkAuth returns. *)
Definition passes (checked : option bool) : bool :=
  match checked with
  | Some b => b
  | None => false
  end.

(** app.get('/sse') and app.post('/messages'): [Next ()] is the call of the
    transport. *)
Definition guarded (auth : option string) (tokens : gmap string SseOAuth.Entry) : Gate unit :=
  if negb (passes (checkAuth auth tokens))
  then Reject (Json 401 (ErrorBody "unauthorized" None))
  else Next ().

End FinalOAuth.

(** *** src/unnamed/part_000: streams that open and close *)

Module SseEvents.
Import Registry.

Inductive Event :=
| Open (sessionId : string)     (* GET /sse, with the id of the new transport *)
| Close (sessionId : string).   (* the close listener of the stream with this id *)

Definition step (e : Event) (st : State) : State :=
  match e with
  | Open sessionId => snd (ServerSse.sse sessionId st)
  | Close sessionId => ServerSse.close sessionId st
  end.

Fixpoint run (trace : list Event) (st : State) : State :=
  match trace with
  | [] => st
  | e :: rest => run rest (step e st)
  end.

End SseEvents.

(** *** The tool lists and the remaining tool handlers *)

Module ToolList.

(** An element of the [tools] array of a ListToolsRequestSchema handler.
    Every input schema of the repository is an object with one property of
    type string, which is also its only required property. *)
Record Tool := {
  name : string;
  description : string;
  property : string;
  property_description : string;
  enum : option (list string);
}.

(** src/src/server-chatgpt.js (first file) *)
Definition chatgpt : list Tool :=
  [ {| name := "search";
       description := "Search for movies using TMDB API";
       property := "query";
       property_description := "Search query for movies";
       enum := None |};
    {| name := "fetch";
       description := "Fetch detailed movie information by ID";
       property := "id";
       property_description := "TMDB movie ID";
       enum := None |} ].

(** src/src/server-http.js and src/unnamed/part_002 *)
Definition http : list Tool :=
  [ {| name := "search";
       description := "Search for movies by title or keywords using TMDB";
       property := "query";
       property_description := "Search query for movies";
       enum := None |};
    {| name := "fetch";
       description := "Fetch detailed information about a specific movie by ID";
       property := "movieId";
       property_description := "TMDB movie ID to fetch details for";
       enum := None |};
    {| name := "get_recommendations";
       description := "Get movie recommendations based on a movie ID";
       property := "movieId";
       property_description := "TMDB movie ID";
       enum := None |};
    {| name := "get_trending";
       description := "Get trending movies for a specified time window";
       property := "timeWindow";
       property_description :=
         "Time window: " +:+ Tools.dquote +:+ "day" +:+ Tools.dquote +:+ " or "
           +:+ Tools.dquote +:+ "week" +:+ Tools.dquote;
       enum := Some [ "day"%string; "week"%string ] |} ].

(** src/src/server-final.js *)
Definition final : list Tool :=
  [ {| name := "search";
       description := "Search for movies by title or keywords";
       property := "query";
       property_description := "Search query for movies";
       enum := None |};
    {| name := "fetch";
       description := "Fetch detailed movie information by ID";
       property := "id";
       property_description := "Movie ID to fetch";
       enum := None |} ].

Definition names (tools : list Tool) : list string := map name tools.

End ToolList.

(** src/src/server-http.js and src/unnamed/part_002: the handler that
    returns the reply of the collaborator as it is. *)
Module RawTools.
Import Js Tools.

(** One case of the switch: read the argument, build the URL, await the
    reply, print it. *)
Definition forward (property : string) (args : option json) (reply : Reply)
    : result ToolResult :=
  value ← get args property;
  _ ← template value;
  data ← await_json reply;
  Ok (text_result (stringify_indented EmptyString data)).

Definition dispatch (name : string) (args : option json) (reply : Reply)
    : result ToolResult :=
  if String.eqb name "search" then forward "query" args reply
  else if String.eqb name "fetch" then forward "movieId" args reply
  else if String.eqb name "get_recommendations" then forward "movieId" args reply
  else if String.eqb name "get_trending" then forward "timeWindow" args reply
  else Throw ("Unknown tool: " +:+ name).

Definition callTool (apiKey : option string) (name : string) (args : option json)
    (reply : Reply) : result ToolResult :=
  if negb (truthy apiKey) then Throw "TMDB_API_KEY environment variable is required"
  else try_catch (dispatch name args reply) (fun message =>
         Throw ("Tool execution failed: " +:+ message)).

End RawTools.

(** src/unnamed/part_000 (second file): the search tool registered with
    server.tool; the SDK has checked that [query] is a string. *)
Module McpTools.
Import Js Tools.

Definition search (apiKey : option string) (query : string) (reply : Reply)
    : result ToolResult :=
  if negb (truthy apiKey) then Throw "TMDB_API_KEY environment variable is required"
  else
    data ← await_json reply;
    entries ← search_results data;
    Ok (text_result (results_text entries)).

End McpTools.

(** src/src/server-final.js: the document of the 'fetch' case. *)
Module FinalFetch.
Import Js Tools.

(** Is the value [undefined] or [null]? *)
Definition nullish (value : option json) : bool :=
  match value with
  | None | Some JNull => true
  | Some _ => false
  end.

(** [array.join(separator)] on an array whose elements may be undefined. *)
Fixpoint join (separator : string) (elements : list (option json)) : result string :=
  match elements with
  | [] => Ok EmptyString
  | x :: rest =>
      s ← (if nullish x then Ok EmptyString else template x);
      match rest with
      | [] => Ok s
      | _ :: _ => r ← join separator rest; Ok (s +:+ separator +:+ r)
      end
  end.

(** [array.map(x => x.name)] *)
Fixpoint names (elements : list json) : result (list (option json)) :=
  match elements with
  | [] => Ok []
  | x :: rest =>
      name ← get (Some x) "name";
      others ← names rest;
      Ok (name :: others)
  end.

(** [array.find(p => p.job === 'Director')] *)
Fixpoint find_director (crew : list json) : result (option json) :=
  match crew with
  | [] => Ok None
  | p :: rest =>
      job ← get (Some p) "job";
      match job with
      | Some (JStr s) => if String.eqb s "Director" then Ok (Some p) else find_director rest
      | _ => find_director rest
      end
  end.

(** [data.id?.toString() || args.id] *)
Definition document_id (data_id args_id : option json) : result (option json) :=
  if nullish data_id then Ok args_id
  else
    s ← call_toString "data.id" data_id;
    Ok (if truthy (Some s) then Some (JStr s) else args_id).

(** [data.release_date?.split('-')[0] || 'Unknown'] *)
Definition year (release_date : option json) : result string :=
  match release_date with
  | None | Some JNull => Ok "Unknown"%string
  | Some (JStr s) => Ok (or_else (Some (split_hyphen_0 s)) "Unknown")
  | Some _ => Throw "data.release_date?.split is not a function"
  end.

(** [data.genres?.map(g => g.name).join(', ')] *)
Definition genres (value : option json) : result (option string) :=
  match value with
  | None | Some JNull => Ok None
  | Some (JArr gs) => ns ← names gs; s ← join ", " ns; Ok (Some s)
  | Some _ => Throw "data.genres?.map is not a function"
  end.

(** [data.credits?.crew?.find(p => p.job === 'Director')?.name] *)
Definition director (credits : option json) : result (option json) :=
  if nullish credits then Ok None
  else
    crew ← get credits "crew";
    match crew with
    | None | Some JNull => Ok None
    | Some (JArr ps) =>
        found ← find_director ps;
        match found with
        | None => Ok None
        | Some p => get (Some p) "name"
        end
    | Some _ => Throw "data.credits?.crew?.find is not a function"
    end.

(** [data.credits?.cast?.slice(0, 5).map(a => a.name).join(', ')] *)
Definition main_cast (credits : option json) : result (option string) :=
  if nullish credits then Ok None
  else
    cast ← get credits "cast";
    match cast with
    | None | Some JNull => Ok None
    | Some (JArr actors) => ns ← names (firstn 5 actors); s ← join ", " ns; Ok (Some s)
    | Some (JStr _) => Throw "data.credits?.cast?.slice(...).map is not a function"
    | Some _ => Throw "data.credits?.cast?.slice is not a function"
    end.

(** [`${x}`] of a string that may be undefined. *)
Definition shown (x : option string) : string :=
  match x with
  | Some s => s
  | None => "undefined"
  end.

(** An object literal: the properties whose value is undefined are left
    out by JSON.stringify. *)
Fixpoint object (properties : list (string * option json)) : list (string * json) :=
  match properties with
  | [] => []
  | (k, Some v) :: rest => (k, v) :: object rest
  | (k, None) :: rest => object rest
  end.

(** The object [document], in the order in which its properties are
    evaluated. *)
Definition document (data : json) (args_id : option json) : result json :=
  data_id ← get (Some data) "id";
  id ← document_id data_id args_id;
  data_title ← get (Some data) "title";
  title ← template data_title;
  release_date ← get (Some data) "release_date";
  y ← year release_date;
  title' ← template data_title;
  release_date' ← template release_date;
  vote_average ← get (Some data) "vote_average";
  rating ← template vote_average;
  data_overview ← get (Some data) "overview";
  overview ← template data_overview;
  data_genres ← get (Some data) "genres";
  gs ← genres data_genres;
  data_runtime ← get (Some data) "runtime";
  runtime ← template data_runtime;
  credits ← get (Some data) "credits";
  who ← director credits;
  directed ← template who;
  cast ← main_cast credits;
  id' ← template data_id;
  popularity ← get (Some data) "popularity";
  budget ← get (Some data) "budget";
  revenue ← get (Some data) "revenue";
  Ok (JObj (object
    [ ("id"%string, id);
      ("title"%string, Some (JStr (title +:+ " (" +:+ y +:+ ")")));
      ("text"%string,
       Some (JStr (title' +:+ newline +:+ newline
                   +:+ "Release Date: " +:+ release_date' +:+ newline
                   +:+ "Rating: " +:+ rating +:+ "/10" +:+ newline +:+ newline
                   +:+ "Overview: " +:+ overview +:+ newline +:+ newline
                   +:+ "Genres: " +:+ shown gs +:+ newline
                   +:+ "Runtime: " +:+ runtime +:+ " minutes" +:+ newline
                   +:+ "Director: " +:+ directed +:+ newline
                   +:+ "Main Cast: " +:+ shown cast)));
      ("url"%string, Some (JStr ("https://www.themoviedb.org/movie/" +:+ id')));
      ("metadata"%string,
       Some (JObj (object [ ("tmdb_id"%string, data_id);
                            ("popularity"%string, popularity);
                            ("budget"%string, budget);
                            ("revenue"%string, revenue) ]))) ])).

(** [JSON.stringify(document)] *)
Definition fetch_document (data : json) (args_id : option json) : result string :=
  d ← document data args_id;
  Ok (stringify d).

(** The handler of server-final.js, whole. *)
Definition callTool : option string -> string -> option json -> Reply -> result ToolResult :=
  Final_callTool fetch_document.

End FinalFetch.

(** *** What a registry should satisfy *)

Module RegistryInvariant.
Import Registry.

(** Every stored transport has been created, and no transport is stored
    under two session ids. *)
Definition distinct (st : State) : Prop :=
  (forall sessionId t, transports st !! sessionId = Some t -> t < created st)
  /\
  (forall sessionId sessionId' t,
      transports st !! sessionId = Some t ->
      transports st !! sessionId' = Some t ->
      sessionId = sessionId').

End RegistryInvariant.

(** * Properties *)

(** ** The digest *)

Section Sha256Vectors.
Import Sha256.

(** FIPS 180-4 appendix B.1: the digest of the three bytes of abc. *)
Example digest_abc :
  hex (digest (bytes_of_string "abc"))
  = "ba7816bf8f01cfea414140de5dae2223b00361a396177a9cb410ff61f20015ad"%string.
Proof. vm_compute. reflexivity. Qed.

(** FIPS 180-4 appendix B.2: a message of 56 bytes, padded to two blocks. *)
Example digest_two_blocks :
  hex (digest (bytes_of_string
                 "abcdbcdecdefdefgefghfghighijhijkijkljklmklmnlmnomnopnopq"))
  = "248d6a61d20638b8e5c026930c3e6039a33ce45964ff2167f6ecedd419db06c1"%string.
Proof. vm_compute. reflexivity. Qed.

(** The first and the last round constant, and the first initial hash word. *)
Example constants :
  nth 0 K 0%Z = 0x428a2f98%Z /\ nth 63 K 0%Z = 0xc67178f2%Z /\ length K = 64
  /\ nth 0 H0 0%Z = 0x6a09e667%Z /\ length H0 = 8.
Proof. repeat split; reflexivity. Qed.

(** RFC 7636 appendix B: the S256 challenge of the example verifier. *)
Example rfc7636_appendix_B :
  sha256_base64url "dBjftJeZ4CVP-mB92K27uhbUJU1p1r_wW1gFWFOEjXk"
  = "E9Melhoa2OwvFrEMTJguCHaoeK1t8URWbuGJSstw-cM"%string.
Proof. vm_compute. reflexivity. Qed.
End Sha256Vectors.

(** ** The text of a number *)

Section NumberTexts.
Import Js.
Local Open Scope Z_scope.

(** Integers are printed with all their digits up to 2 ^ 53; beyond, with
    the digits that tell the double from its neighbours; from 10 ^ 21 on, in
    the exponent notation. *)
Example integer_texts :
  map (fun n : Z => number_toString n)
    [ 0; 550; -7; 9007199254740991; 9007199254740992; 9007199254740993;
      1152921504606846976; 123456789012345678901; 999999999999999999999;
      1000000000000000000000; 10 ^ 23 ]
  = [ "0"; "550"; "-7"; "9007199254740991"; "9007199254740992"; "9007199254740992";
      "1152921504606847000"; "123456789012345680000"; "1e+21"; "1e+21";
      "1e+23" ]%string.
Proof. vm_compute. reflexivity. Qed.

(** Numbers that are written with a point or an exponent. *)
Example literal_texts :
  map (fun p : Z * Z => number_toString (literal (fst p) (snd p)))
    [ (8433, -3); (61416, -3); (1, -1); (3, -1); (5, -1); (-25, -1); (1, -6); (1, -7);
      (12345, -10); (6022, 20); (5, -324); (17976931348623157, 292); (1, 400);
      (1, -400) ]
  = [ "8.433"; "61.416"; "0.1"; "0.3"; "0.5"; "-2.5"; "0.000001"; "1e-7";
      "0.0000012345"; "6.022e+23"; "5e-324"; "1.7976931348623157e+308"; "Infinity";
      "0" ]%string.
Proof. vm_compute. reflexivity. Qed.

(** One tenth is read as 0x1.999999999999ap-4, one as itself, 2 ^ 53 + 1 as
    2 ^ 53. *)
Example doubles :
  (match literal 1 (-1) with Finite m e => round m e | Infinite _ => None end)
  = Some (0x1999999999999a, -56)
  /\ round 1 0 = Some (2 ^ 52, -52)
  /\ round (2 ^ 53 + 1) 0 = Some (2 ^ 52, 1)
  /\ round (2 ^ 1024 - 2 ^ 970 - 1) 0 = Some (2 ^ 53 - 1, 971)
  /\ round (2 ^ 1024 - 2 ^ 970) 0 = None.
Proof. vm_compute. repeat split; reflexivity. Qed.

(** JSON.stringify prints a number as toString does, and an infinity as
    null. *)
Example number_json_texts :
  map Tools.number_json [ Finite 550 0; literal 8433 (-3); literal 1 400; Infinite true ]
  = [ "550"; "8.433"; "null"; "null" ]%string.
Proof. vm_compute. reflexivity. Qed.

End NumberTexts.

(** ** The digits of an integer *)

Section Digits.
Import Js.
Local Open Scope Z_scope.

Lemma acc_bounds d acc :
  Z.pos acc * 10 ^ Z.of_nat (Decimal.nb_digits d)
  <= Z.pos (Pos.of_uint_acc d acc)
  < (Z.pos acc + 1) * 10 ^ Z.of_nat (Decimal.nb_digits d).
Proof.
  revert acc. induction d; intros acc; cbn [Decimal.nb_digits Pos.of_uint_acc];
    [rewrite Z.pow_0_r; lia|..];
    rewrite Nat2Z.inj_succ, Z.pow_succ_r by lia;
    match goal with
    | |- context [Pos.of_uint_acc d ?a] => specialize (IHd a)
    end;
    assert (0 < 10 ^ Z.of_nat (Decimal.nb_digits d)) by (apply Z.pow_pos_nonneg; lia);
    nia.
Qed.

Lemma of_uint_bounds d :
  headed d ->
  10 ^ (Z.of_nat (Decimal.nb_digits d) - 1) <= Z.of_N (Pos.of_uint d)
  < 10 ^ Z.of_nat (Decimal.nb_digits d).
Proof.
  destruct d; cbn [headed]; try contradiction; intros _;
    cbn [Decimal.nb_digits Pos.of_uint];
    rewrite Nat2Z.inj_succ, Z.pow_succ_r by lia;
    replace (Z.succ (Z.of_nat (Decimal.nb_digits d)) - 1)
      with (Z.of_nat (Decimal.nb_digits d)) by lia;
    match goal with
    | |- context [Pos.of_uint_acc d ?a] => pose proof (acc_bounds d a)
    end;
    assert (0 < 10 ^ Z.of_nat (Decimal.nb_digits d)) by (apply Z.pow_pos_nonneg; lia);
    cbn [Z.of_N]; nia.
Qed.

Lemma to_uint_unorm p : Decimal.unorm (Pos.to_uint p) = Pos.to_uint p.
Proof.
  rewrite <- (DecimalPos.Unsigned.to_of (Pos.to_uint p)), DecimalPos.Unsigned.of_to.
  reflexivity.
Qed.

Lemma to_uint_headed p : headed (Pos.to_uint p).
Proof.
  pose proof (to_uint_unorm p) as Hnorm.
  pose proof (Unsigned.to_uint_nonnil p) as Hnil.
  pose proof (Unsigned.to_uint_nonzero p) as Hzero.
  destruct (Pos.to_uint p) as [|u| | | | | | | | |]; cbn [headed]; try exact I.
  - congruence.
  - unfold Decimal.unorm in Hnorm. cbn [Decimal.nzhead] in Hnorm.
    pose proof (nb_digits_nzhead u) as Hle.
    destruct (Decimal.nzhead u) eqn:Hhead; try congruence.
    injection Hnorm as Hnorm. rewrite Hnorm in Hle. cbn [Decimal.nb_digits] in Hle. lia.
Qed.

Lemma digits_of_pos p :
  let l := Z.of_nat (Decimal.nb_digits (Pos.to_uint p)) in
  10 ^ (l - 1) <= Z.pos p < 10 ^ l.
Proof.
  intros l. pose proof (of_uint_bounds _ (to_uint_headed p)) as Hb.
  rewrite DecimalPos.Unsigned.of_to in Hb. exact Hb.
Qed.

Lemma length_string_of_uint d :
  String.length (NilEmpty.string_of_uint d) = Decimal.nb_digits d.
Proof.
  induction d; cbn [NilEmpty.string_of_uint String.length Decimal.nb_digits];
    rewrite ?IHd; reflexivity.
Qed.

Lemma decimal_pos p : decimal (Z.pos p) = NilEmpty.string_of_uint (Pos.to_uint p).
Proof.
  unfold decimal. cbn [Z.to_int NilZero.string_of_int NilZero.string_of_uint].
  pose proof (Unsigned.to_uint_nonnil p).
  destruct (Pos.to_uint p); [congruence | reflexivity..].
Qed.

(** The number of digits of a positive integer. *)
Lemma decimal_length n :
  0 < n ->
  let l := Z.of_nat (String.length (decimal n)) in
  10 ^ (l - 1) <= n < 10 ^ l.
Proof.
  intros Hpos. destruct n as [|p|p]; try lia.
  rewrite decimal_pos, length_string_of_uint. apply digits_of_pos.
Qed.

Lemma snoc0_acc d acc :
  Pos.of_uint_acc (snoc0 d) acc = (10 * Pos.of_uint_acc d acc)%positive.
Proof. revert acc. induction d; intros acc; cbn [snoc0 Pos.of_uint_acc]; auto. Qed.

Lemma snoc0_of_uint d : Pos.of_uint (snoc0 d) = (10 * Pos.of_uint d)%N.
Proof.
  induction d; cbn [snoc0 Pos.of_uint]; try (rewrite snoc0_acc; reflexivity).
  - reflexivity.
  - exact IHd.
Qed.

Lemma snoc0_unorm d : headed d -> Decimal.unorm (snoc0 d) = snoc0 d.
Proof. destruct d; cbn [headed]; try contradiction; reflexivity. Qed.

Lemma snoc0_string d :
  NilEmpty.string_of_uint (snoc0 d) = NilEmpty.string_of_uint d +:+ "0".
Proof.
  induction d; cbn [snoc0 NilEmpty.string_of_uint]; try reflexivity;
    rewrite IHd; reflexivity.
Qed.

Lemma to_uint_times_ten p : Pos.to_uint (10 * p) = snoc0 (Pos.to_uint p).
Proof.
  change (Pos.to_uint (10 * p)) with (N.to_uint (N.pos (10 * p))).
  replace (N.pos (10 * p)) with (Pos.of_uint (snoc0 (Pos.to_uint p))).
  - rewrite DecimalPos.Unsigned.to_of. apply snoc0_unorm, to_uint_headed.
  - rewrite snoc0_of_uint, DecimalPos.Unsigned.of_to. reflexivity.
Qed.

Lemma decimal_times_ten n : 0 < n -> decimal (10 * n) = decimal n +:+ "0".
Proof.
  intros Hpos. destruct n as [|p|p]; try lia.
  change (10 * Z.pos p) with (Z.pos (10 * p)).
  rewrite !decimal_pos, to_uint_times_ten. apply snoc0_string.
Qed.

Lemma zeros_snoc t : zeros t +:+ "0" = zeros (S t).
Proof.
  induction t as [|t IH]; [reflexivity|].
  change (String "0" (zeros t +:+ "0") = String "0" (zeros (S t))). now rewrite IH.
Qed.

Lemma append_assoc (a b c : string) : (a +:+ b) +:+ c = a +:+ b +:+ c.
Proof.
  induction a as [|x a IH]; [reflexivity|].
  change (String x ((a +:+ b) +:+ c) = String x (a +:+ b +:+ c)). now rewrite IH.
Qed.

Lemma append_empty_r (a : string) : a +:+ EmptyString = a.
Proof.
  induction a as [|x a IH]; [reflexivity|].
  change (String x (a +:+ EmptyString) = String x a). now rewrite IH.
Qed.

(** Zeros after the digits multiply by a power of ten. *)
Lemma decimal_zeros s t :
  0 < s -> decimal (s * 10 ^ Z.of_nat t) = decimal s +:+ zeros t.
Proof.
  intros Hpos. induction t as [|t IH].
  - rewrite Z.pow_0_r, Z.mul_1_r. cbn [zeros]. now rewrite append_empty_r.
  - rewrite Nat2Z.inj_succ, Z.pow_succ_r by lia.
    replace (s * (10 * 10 ^ Z.of_nat t)) with (10 * (s * 10 ^ Z.of_nat t)) by ring.
    rewrite decimal_times_ten.
    + rewrite IH, append_assoc, zeros_snoc. reflexivity.
    + apply Z.mul_pos_pos; [exact Hpos|]. apply Z.pow_pos_nonneg; lia.
Qed.

End Digits.

Section Integers.
Import Js.
Local Open Scope Z_scope.

Lemma pow10_pos a : 0 <= a -> 0 < 10 ^ a.
Proof. intros. apply Z.pow_pos_nonneg; lia. Qed.

Lemma pow10_lt a b : 0 <= a -> 0 <= b -> 10 ^ a < 10 ^ b -> a < b.
Proof.
  intros Ha Hb Hlt. destruct (Z_lt_ge_dec a b) as [|Hge]; [assumption|].
  pose proof (Z.pow_le_mono_r 10 b a ltac:(lia) ltac:(lia)). lia.
Qed.

Lemma compare_scaled_neg a p b j :
  0 <= p -> 0 <= j -> compare_scaled a p b (- j) = (a * 10 ^ p * 2 ^ j ?= b).
Proof.
  intros Hp Hj. unfold compare_scaled.
  rewrite Z.opp_involutive, (Z.max_l p 0), (Z.max_l j 0), (Z.max_r (- j) 0),
    (Z.max_r (- p) 0) by lia.
  rewrite !Z.pow_0_r, !Z.mul_1_r. reflexivity.
Qed.

Variables n k : Z.
Hypothesis Hn : 0 < n.
Hypothesis Hk : 0 <= k.

Let f := n * 2 ^ k.
Let x := - k.

Lemma compare_integer a p : 0 <= p -> compare_scaled a p f x = (a * 10 ^ p ?= n).
Proof.
  intros Hp. unfold f, x. rewrite compare_scaled_neg by assumption.
  symmetry. apply Zmult_compare_compat_r.
  pose proof (Z.pow_pos_nonneg 2 k ltac:(lia) Hk). lia.
Qed.

Lemma rounds_to_integer s t : 0 <= t -> rounds_to f x s t = (s * 10 ^ t =? n).
Proof.
  intros Ht. unfold rounds_to, x.
  replace (- k - 2) with (- (k + 2)) by lia.
  rewrite !compare_scaled_neg by lia.
  rewrite Z.pow_add_r by lia. change (2 ^ 2) with 4.
  unfold f.
  pose proof (Z.pow_pos_nonneg 2 k ltac:(lia) Hk) as HP.
  set (P := 2 ^ k) in *. set (v := s * 10 ^ t).
  match goal with
  | |- context [if ?c then ?a else ?b] => set (low := if c then a else b)
  end.
  assert (Hlow : low = 4 * (n * P) - 1 \/ low = 4 * (n * P) - 2)
    by (unfold low; destruct (_ && _); auto).
  clearbody low.
  destruct (Z.eqb_spec v n) as [->|Hne].
  - destruct (Z.compare_spec (n * (P * 4)) low),
      (Z.compare_spec (n * (P * 4)) (4 * (n * P) + 2));
      try reflexivity; exfalso; lia.
  - assert (Hv : v * P <= n * P - P \/ n * P + P <= v * P) by nia.
    destruct (Z.compare_spec (v * (P * 4)) low),
      (Z.compare_spec (v * (P * 4)) (4 * (n * P) + 2));
      try reflexivity; exfalso; nia.
Qed.

Lemma floor_integer t : 0 <= t -> floor_scaled f x t = n / 10 ^ t.
Proof.
  intros Ht. unfold floor_scaled, f, x.
  rewrite Z.opp_involutive, (Z.max_r (- k) 0), (Z.max_r (- t) 0), (Z.max_l t 0),
    (Z.max_l k 0) by lia.
  rewrite !Z.pow_0_r, !Z.mul_1_r.
  pose proof (Z.pow_pos_nonneg 2 k ltac:(lia) Hk).
  pose proof (pow10_pos t Ht).
  apply Z.div_mul_cancel_r; lia.
Qed.

Variable D : Z.
Hypothesis HD : 10 ^ (D - 1) <= n < 10 ^ D.
Hypothesis HD1 : 1 <= D.

Lemma magnitude_integer fuel n0 :
  1 <= n0 -> Z.abs (n0 - D) < Z.of_nat fuel -> magnitude fuel f x n0 = D.
Proof.
  revert n0. induction fuel as [|fuel IH]; intros n0 Hn0 Hfuel; [lia|].
  cbn [magnitude]. rewrite !compare_integer by lia. rewrite !Z.mul_1_l.
  destruct (Z.compare_spec (10 ^ (n0 - 1)) n) as [Heq|Hlt|Hgt].
  - destruct (Z.compare_spec (10 ^ n0) n) as [Heq'|Hlt'|Hgt'].
    + assert (n0 < D) by (apply pow10_lt; lia).
      apply IH; lia.
    + assert (n0 < D) by (apply pow10_lt; lia).
      apply IH; lia.
    + assert (n0 - 1 < D) by (apply pow10_lt; lia).
      assert (D - 1 < n0) by (apply pow10_lt; lia). lia.
  - destruct (Z.compare_spec (10 ^ n0) n) as [Heq'|Hlt'|Hgt'].
    + assert (n0 < D) by (apply pow10_lt; lia).
      apply IH; lia.
    + assert (n0 < D) by (apply pow10_lt; lia).
      apply IH; lia.
    + assert (n0 - 1 < D) by (apply pow10_lt; lia).
      assert (D - 1 < n0) by (apply pow10_lt; lia). lia.
  - assert (D - 1 < n0 - 1) by (apply pow10_lt; lia).
    apply IH; lia.
Qed.

Lemma shortest_integer fuel kk :
  1 <= kk <= D ->
  (Z.to_nat (D - kk) < fuel)%nat ->
  exists t,
    0 <= t <= D - kk
    /\ shortest fuel f x D kk = (n / 10 ^ t, t)
    /\ n mod 10 ^ t = 0
    /\ forall t', t < t' <= D - kk -> n mod 10 ^ t' <> 0.
Proof.
  revert kk. induction fuel as [|fuel IH]; intros kk Hkk Hfuel; [lia|].
  cbn [shortest]. set (t := D - kk). assert (Ht : 0 <= t) by (unfold t; lia).
  rewrite !rounds_to_integer, floor_integer by assumption.
  pose proof (pow10_pos t Ht) as Hpow.
  pose proof (Z.div_mod n (10 ^ t) ltac:(lia)) as Hdiv.
  pose proof (Z.mod_pos_bound n (10 ^ t) Hpow) as Hmod.
  destruct (Z.eqb_spec ((n / 10 ^ t + 1) * 10 ^ t) n) as [Habove|_]; [nia|].
  destruct (Z.eqb_spec (n / 10 ^ t * 10 ^ t) n) as [Hexact|Hinexact].
  - exists t. repeat split; lia.
  - assert (Hrest : n mod 10 ^ t <> 0) by nia.
    assert (Hpos : 0 < t).
    { destruct (Z.eq_dec t 0) as [Hzero|]; [|lia].
      rewrite Hzero, Z.pow_0_r, Z.mod_1_r in Hrest. congruence. }
    destruct (IH (kk + 1) ltac:(unfold t in *; lia) ltac:(unfold t in *; lia))
      as (t1 & Hrange & Hshortest & Hdivides & Hnone).
    exists t1. split; [unfold t in *; lia|]. split; [exact Hshortest|].
    split; [exact Hdivides|].
    intros t' Ht'. destruct (Z.eq_dec t' t) as [->|Hother]; [exact Hrest|].
    apply Hnone. unfold t in *. lia.
Qed.

End Integers.

Section SafeIntegers.
Import Js.
Local Open Scope Z_scope.

(** An integer below 2 ^ 53 is printed with its own digits. *)
Lemma positive_text_integer n :
  0 < n < 2 ^ 53 ->
  positive_text (n * 2 ^ (52 - Z.log2 n)) (- (52 - Z.log2 n)) = decimal n.
Proof.
  intros Hn. set (k := 52 - Z.log2 n).
  assert (Hlog : 0 <= Z.log2 n < 53).
  { split; [apply Z.log2_nonneg|]. apply Z.log2_lt_pow2; lia. }
  assert (Hk : 0 <= k) by (unfold k; lia).
  pose proof (decimal_length n ltac:(lia)) as HD. cbv zeta in HD.
  set (D := Z.of_nat (String.length (decimal n))) in *.
  assert (HD0 : 0 <= D) by (unfold D; lia).
  assert (HD1 : 1 <= D).
  { destruct (Z.eq_dec D 0) as [Hzero|]; [|lia].
    rewrite Hzero in HD. change (10 ^ 0) with 1 in HD. lia. }
  assert (HD16 : D <= 16).
  { assert (D - 1 < 16); [|lia]. apply pow10_lt; [lia | lia |].
    change (10 ^ 16) with 10000000000000000. change (2 ^ 53) with 9007199254740992 in Hn.
    lia. }
  unfold positive_text.
  rewrite Z.log2_mul_pow2 by lia.
  replace (k + Z.log2 n + - k) with (Z.log2 n) by lia.
  assert (Hestimate : 1 <= Z.log2 n * 30103 / 100000 + 1 <= 16).
  { pose proof (Z.div_pos (Z.log2 n * 30103) 100000 ltac:(lia) ltac:(lia)).
    pose proof (Z.div_lt_upper_bound (Z.log2 n * 30103) 100000 16 ltac:(lia) ltac:(lia)).
    lia. }
  rewrite (magnitude_integer n k Hk D HD HD1) by lia.
  destruct (shortest_integer n k ltac:(lia) Hk D HD HD1 17 1 ltac:(lia) ltac:(lia))
    as (t & Ht & -> & Hdivides & Hnone).
  pose proof (pow10_pos t ltac:(lia)) as Hpow.
  set (s := n / 10 ^ t).
  assert (Hexact : n = s * 10 ^ t).
  { unfold s. pose proof (Z.div_mod n (10 ^ t) ltac:(lia)). lia. }
  assert (Hs : 0 < s) by nia.
  assert (Hlast : s mod 10 <> 0).
  { destruct (Z.eq_dec t (D - 1)) as [Htop|Hlower].
    - assert (s < 10).
      { replace D with (t + 1) in HD by lia.
        rewrite Z.pow_add_r in HD by lia. change (10 ^ 1) with 10 in HD. nia. }
      rewrite Z.mod_small by lia. lia.
    - intros Hzero. apply (Hnone (t + 1)); [lia|].
      pose proof (Z.div_mod s 10 ltac:(lia)) as Hs10.
      rewrite Hexact, Z.pow_add_r by lia. change (10 ^ 1) with 10.
      replace (s * 10 ^ t) with (s / 10 * (10 ^ t * 10)) by nia.
      apply Z.mod_mul. lia. }
  cbn [strip]. destruct (Z.eqb_spec (s mod 10) 0) as [|_]; [contradiction|].
  unfold decimal_text.
  pose proof (decimal_length s Hs) as Hlength. cbv zeta in Hlength.
  set (l := Z.of_nat (String.length (decimal s))) in *.
  assert (Hl : 0 <= l) by (unfold l; lia).
  assert (Hl16 : t + l <= 16).
  { assert (Hl1 : 1 <= l).
    { destruct (Z.eq_dec l 0) as [Hzero|]; [|lia].
      rewrite Hzero in Hlength. change (10 ^ 0) with 1 in Hlength. lia. }
    assert (l - 1 + t < 16); [|lia]. apply pow10_lt; [lia | lia |].
    rewrite Z.pow_add_r by lia.
    change (10 ^ 16) with 10000000000000000.
    change (2 ^ 53) with 9007199254740992 in Hn. nia. }
  destruct (Z.leb_spec l (t + l)); [|lia].
  destruct (Z.leb_spec (t + l) 21); [|lia].
  cbn [andb].
  replace (t + l - l) with t by lia.
  transitivity (decimal (s * 10 ^ Z.of_nat (Z.to_nat t))).
  - symmetry. apply decimal_zeros. exact Hs.
  - rewrite Z2Nat.id by lia. rewrite <- Hexact. reflexivity.
Qed.

Lemma round_integer n :
  0 < n < 2 ^ 53 ->
  round n 0 = Some (n * 2 ^ (52 - Z.log2 n), - (52 - Z.log2 n)).
Proof.
  intros Hn.
  assert (Hlog : 0 <= Z.log2 n < 53).
  { split; [apply Z.log2_nonneg|]. apply Z.log2_lt_pow2; lia. }
  unfold round.
  rewrite Z.max_l by lia.
  replace (0 + (Z.log2 n + 1) - 53) with (- (52 - Z.log2 n)) by lia.
  set (k := 52 - Z.log2 n). assert (Hk : 0 <= k) by (unfold k; lia).
  destruct (Z.leb_spec (- k) 0); [|lia].
  replace (0 - - k) with k by lia.
  assert (Hf : n * 2 ^ k < 2 ^ 53).
  { pose proof (Z.log2_spec n ltac:(lia)) as [_ Hupper].
    replace 53 with (Z.succ (Z.log2 n) + k) by (unfold k; lia).
    rewrite Z.pow_add_r by lia.
    pose proof (Z.pow_pos_nonneg 2 k ltac:(lia) Hk). nia. }
  destruct (Z.eqb_spec (n * 2 ^ k) (2 ^ 53)); [lia|].
  destruct (Z.ltb_spec 971 (- k)); [lia|]. reflexivity.
Qed.

Theorem number_toString_integer n :
  Z.abs n < 2 ^ 53 -> number_toString (of_Z n) = decimal n.
Proof.
  intros Hsafe. unfold of_Z, number_toString.
  destruct (Z.eqb_spec n 0) as [->|Hnonzero]; [reflexivity|].
  rewrite (round_integer (Z.abs n)) by lia.
  pose proof (Z.pow_pos_nonneg 2 (52 - Z.log2 (Z.abs n)) ltac:(lia)) as Hpow.
  assert (Hlog : Z.log2 (Z.abs n) < 53) by (apply Z.log2_lt_pow2; lia).
  destruct (Z.eqb_spec (Z.abs n * 2 ^ (52 - Z.log2 (Z.abs n))) 0) as [Hzero|_]; [nia|].
  rewrite positive_text_integer by lia.
  destruct n as [|p|p]; [contradiction| |].
  - reflexivity.
  - reflexivity.
Qed.

End SafeIntegers.

(** ** The authorization-code grant *)

Section TokenEndpoint.
Import Js Express OAuth.
Local Open Scope Z_scope.

(** The four ways the authorization-code branch of part_002 can end. *)
Lemma token_authorization_code accessToken now b st c :
  grant_type b = Some "authorization_code"%string ->
  code b = Some c ->
  token accessToken now b st =
    match authorizationCodes st !! c with
    | None => (invalid_grant "Code not found or expired", st)
    | Some authData =>
        if code_expires_at authData <? now then
          (invalid_grant "Code not found or expired", st)
        else if pkce_failed authData (code_verifier b) then
          (invalid_grant "PKCE verification failed", st)
        else
          (Json 200 (TokenBody accessToken "Bearer" 3600 (code_scope authData)),
           {| authorizationCodes := delete c (authorizationCodes st);
              accessTokens :=
                <[accessToken := {| token_client_id := code_client_id authData;
                                    token_scope := code_scope authData;
                                    token_expires_at := now + 3600000 |}]>
                  (accessTokens st);
              clients := clients st |})
    end.
Proof.
  intros Hgrant Hcode. unfold token. rewrite Hgrant, Hcode.
  destruct (decide _) as [Heq|_]; [discriminate Heq|].
  destruct (decide _) as [_|Hne]; [reflexivity|]. now destruct Hne.
Qed.

(** A code that is not in the Map is refused, and the state is kept. *)
Lemma token_unknown_code accessToken now b st c :
  grant_type b = Some "authorization_code"%string ->
  code b = Some c ->
  authorizationCodes st !! c = None ->
  token accessToken now b st = (invalid_grant "Code not found or expired", st).
Proof.
  intros Hgrant Hcode Hnone.
  rewrite (token_authorization_code _ _ _ _ c Hgrant Hcode), Hnone. reflexivity.
Qed.

(** A 200 answer of the authorization-code branch removes the code. *)
Lemma token_success_deletes accessToken now b st c resp st' :
  grant_type b = Some "authorization_code"%string ->
  code b = Some c ->
  token accessToken now b st = (resp, st') ->
  status_of resp = 200 ->
  authorizationCodes st' !! c = None.
Proof.
  intros Hgrant Hcode Hrun Hok.
  rewrite (token_authorization_code _ _ _ _ c Hgrant Hcode) in Hrun.
  destruct (authorizationCodes st !! c) as [authData|];
    [|inversion Hrun; subst; discriminate Hok].
  destruct (code_expires_at authData <? now);
    [inversion Hrun; subst; discriminate Hok|].
  destruct (pkce_failed authData (code_verifier b));
    [inversion Hrun; subst; discriminate Hok|].
  inversion Hrun; subst; simpl. apply lookup_delete_eq.
Qed.

End TokenEndpoint.

Section SimpleTokenEndpoint.
Import Js Express SseOAuth.
Local Open Scope Z_scope.

Lemma simple_token_unknown_code accessToken now b (tokens : gmap string Entry) c :
  grant_type b = Some "authorization_code"%string ->
  code b = Some c ->
  tokens !! c = None ->
  token accessToken now b tokens = (Json 400 (ErrorBody "invalid_grant" None), tokens).
Proof.
  intros Hgrant Hcode Hnone. unfold token. rewrite Hgrant, Hcode, Hnone.
  destruct (decide _) as [_|Hne]; [reflexivity|]. now destruct Hne.
Qed.

Lemma simple_token_success_deletes accessToken now b
    (tokens tokens' : gmap string Entry) c resp :
  grant_type b = Some "authorization_code"%string ->
  code b = Some c ->
  token accessToken now b tokens = (resp, tokens') ->
  status_of resp = 200 ->
  tokens' !! c = None.
Proof.
  intros Hgrant Hcode Hrun Hok. unfold token in Hrun. rewrite Hgrant, Hcode in Hrun.
  destruct (decide _) as [_|Hne]; [|now destruct Hne].
  destruct (tokens !! c) as [tokenData|];
    inversion Hrun; subst; [apply lookup_delete_eq | discriminate Hok].
Qed.

End SimpleTokenEndpoint.

(** C1.  In both authorization servers, an authorization-code exchange that
    is answered with status 200 leaves the code out of the store, and every
    later exchange that presents the same code is answered with status 400
    and the error invalid_grant, the store being left as it was. *)
Theorem C1_code_single_use :
  (forall accessToken now b st c resp st',
      OAuth.grant_type b = Some "authorization_code"%string ->
      OAuth.code b = Some c ->
      OAuth.token accessToken now b st = (resp, st') ->
      Express.status_of resp = 200%Z ->
      OAuth.authorizationCodes st' !! c = None /\
      forall accessToken2 now2 b2,
        OAuth.grant_type b2 = Some "authorization_code"%string ->
        OAuth.code b2 = Some c ->
        OAuth.token accessToken2 now2 b2 st'
        = (Express.Json 400 (Express.ErrorBody "invalid_grant"
                               (Some "Code not found or expired"%string)), st'))
  /\
  (forall accessToken now b (tokens tokens' : gmap string SseOAuth.Entry) c resp,
      SseOAuth.grant_type b = Some "authorization_code"%string ->
      SseOAuth.code b = Some c ->
      SseOAuth.token accessToken now b tokens = (resp, tokens') ->
      Express.status_of resp = 200%Z ->
      tokens' !! c = None /\
      forall accessToken2 now2 b2,
        SseOAuth.grant_type b2 = Some "authorization_code"%string ->
        SseOAuth.code b2 = Some c ->
        SseOAuth.token accessToken2 now2 b2 tokens'
        = (Express.Json 400 (Express.ErrorBody "invalid_grant" None), tokens')).
Proof.
  split.
  - intros accessToken now b st c resp st' Hgrant Hcode Hrun Hok.
    assert (Hgone : OAuth.authorizationCodes st' !! c = None)
      by exact (token_success_deletes _ _ _ _ _ _ _ Hgrant Hcode Hrun Hok).
    split; [exact Hgone|].
    intros accessToken2 now2 b2 Hgrant2 Hcode2.
    exact (token_unknown_code _ _ _ _ _ Hgrant2 Hcode2 Hgone).
  - intros accessToken now b tokens tokens' c resp Hgrant Hcode Hrun Hok.
    assert (Hgone : tokens' !! c = None)
      by exact (simple_token_success_deletes _ _ _ _ _ _ _ Hgrant Hcode Hrun Hok).
    split; [exact Hgone|].
    intros accessToken2 now2 b2 Hgrant2 Hcode2.
    exact (simple_token_unknown_code _ _ _ _ _ Hgrant2 Hcode2 Hgone).
Qed.

Lemma C1_code_single_use_witness :
  let issued := Scenario.authorized None in
  let first := OAuth.token "token-1" 1000 (Scenario.exchange "code-1" None) (snd issued) in
  let tokens1 :=
    snd (SseOAuth.authorize (U := SimpleUrl.api) "code-1" 0
           (Scenario.simple_query Scenario.callback) ∅) in
  let simple_first := SseOAuth.token "token-1" 1000 (Scenario.simple_exchange "code-1") tokens1 in
  (fst issued = Express.Redirect "https://example.com/cb?code=code-1&state=xyz" /\
   fst first = Express.Json 200 (Express.TokenBody "token-1" "Bearer" 3600 "tmdb:read") /\
   OAuth.authorizationCodes (snd first) !! "code-1"%string = None /\
   fst (OAuth.token "token-2" 2000 (Scenario.exchange "code-1" None) (snd first))
   = Express.Json 400 (Express.ErrorBody "invalid_grant"
                         (Some "Code not found or expired"%string)))
  /\
  (fst simple_first = Express.Json 200 (Express.TokenBody "token-1" "Bearer" 3600 "read") /\
   snd simple_first !! "code-1"%string = None /\
   fst (SseOAuth.token "token-2" 2000 (Scenario.simple_exchange "code-1") (snd simple_first))
   = Express.Json 400 (Express.ErrorBody "invalid_grant" None)).
Proof.
  intros issued first tokens1 simple_first. split.
  - assert (Hfirst : first = (fst first, snd first)) by (destruct first; reflexivity).
    destruct (proj1 C1_code_single_use "token-1"%string 1000%Z
                (Scenario.exchange "code-1" None) (snd issued)
                "code-1"%string (fst first) (snd first)
                eq_refl eq_refl Hfirst) as [Hgone Hagain].
    { vm_compute. reflexivity. }
    split; [vm_compute; reflexivity|].
    split; [vm_compute; reflexivity|].
    split; [exact Hgone|].
    rewrite (Hagain "token-2"%string 2000%Z (Scenario.exchange "code-1" None)
               eq_refl eq_refl).
    reflexivity.
  - assert (Hfirst : simple_first = (fst simple_first, snd simple_first))
      by (destruct simple_first; reflexivity).
    destruct (proj2 C1_code_single_use "token-1"%string 1000%Z
                (Scenario.simple_exchange "code-1") tokens1 (snd simple_first)
                "code-1"%string (fst simple_first)
                eq_refl eq_refl Hfirst) as [Hgone Hagain].
    { vm_compute. reflexivity. }
    split; [vm_compute; reflexivity|].
    split; [exact Hgone|].
    rewrite (Hagain "token-2"%string 2000%Z (Scenario.simple_exchange "code-1")
               eq_refl eq_refl).
    reflexivity.
Defined.

(** ** PKCE *)

Section Pkce.
Import Js Express OAuth.
Local Open Scope Z_scope.

Lemma truthy_nonempty (s : string) : s <> EmptyString -> truthy (Some s) = true.
Proof. destruct s; [congruence | reflexivity]. Qed.

(** Without a truthy verifier the comparison is never made. *)
Lemma pkce_skipped authData (verifier : option string) :
  truthy verifier = false -> pkce_failed authData verifier = false.
Proof.
  intros Hfalsy. unfold pkce_failed.
  destruct (code_challenge authData) as [challenge|]; [|reflexivity].
  destruct verifier as [v|]; [|reflexivity].
  rewrite Hfalsy. destruct (truthy (Some challenge)); reflexivity.
Qed.

(** With a challenge and a verifier, both non-empty, the test is the
    comparison of the digest with the challenge. *)
Lemma pkce_compared authData challenge verifier :
  code_challenge authData = Some challenge ->
  challenge <> EmptyString ->
  verifier <> EmptyString ->
  pkce_failed authData (Some verifier)
  = negb (String.eqb (Sha256.sha256_base64url verifier) challenge).
Proof.
  intros Hch Hne Hv. unfold pkce_failed. rewrite Hch.
  rewrite (truthy_nonempty _ Hne), (truthy_nonempty _ Hv). reflexivity.
Qed.

End Pkce.

(** C2, as the code has it.  For a stored, unexpired authorization code that
    carries a non-empty code_challenge: when the request presents a non-empty
    code_verifier, the exchange succeeds if the SHA-256 digest of the
    verifier, base64url-encoded without padding, equals the challenge, and is
    answered with invalid_grant (PKCE verification failed), the store
    unchanged, if it does not; when the request presents no verifier, or an
    empty one, the comparison is skipped and the exchange succeeds. *)
Theorem C2_pkce_checked_when_verifier_presented :
  forall accessToken now b st c authData challenge,
    OAuth.grant_type b = Some "authorization_code"%string ->
    OAuth.code b = Some c ->
    OAuth.authorizationCodes st !! c = Some authData ->
    (now <= OAuth.code_expires_at authData)%Z ->
    OAuth.code_challenge authData = Some challenge ->
    challenge <> EmptyString ->
    let success :=
      Express.Json 200 (Express.TokenBody accessToken "Bearer" 3600
                          (OAuth.code_scope authData)) in
    (forall verifier,
        OAuth.code_verifier b = Some verifier ->
        verifier <> EmptyString ->
        (Sha256.sha256_base64url verifier = challenge ->
         fst (OAuth.token accessToken now b st) = success) /\
        (Sha256.sha256_base64url verifier <> challenge ->
         OAuth.token accessToken now b st
         = (OAuth.invalid_grant "PKCE verification failed", st)))
    /\
    (Js.truthy (OAuth.code_verifier b) = false ->
     fst (OAuth.token accessToken now b st) = success).
Proof.
  intros accessToken now b st c authData challenge Hgrant Hcode Hstored Hfresh Hch Hne success.
  rewrite (token_authorization_code _ _ _ _ c Hgrant Hcode), Hstored.
  assert (Hlive : (OAuth.code_expires_at authData <? now)%Z = false)
    by (apply Z.ltb_ge; exact Hfresh).
  rewrite Hlive. split.
  - intros verifier Hv Hvne. rewrite Hv, (pkce_compared _ _ _ Hch Hne Hvne). split.
    + intros Hmatch. apply String.eqb_eq in Hmatch. rewrite Hmatch. reflexivity.
    + intros Hdiff. apply String.eqb_neq in Hdiff. rewrite Hdiff. reflexivity.
  - intros Hfalsy. rewrite (pkce_skipped _ _ Hfalsy). reflexivity.
Qed.

Lemma C2_pkce_checked_when_verifier_presented_witness :
  let st := snd (Scenario.authorized (Some Scenario.challenge)) in
  let success := Express.Json 200 (Express.TokenBody "token-1" "Bearer" 3600 "tmdb:read") in
  fst (OAuth.token "token-1" 1000
         (Scenario.exchange "code-1" (Some Scenario.verifier)) st) = success /\
  OAuth.token "token-1" 1000 (Scenario.exchange "code-1" (Some "guess"%string)) st
  = (OAuth.invalid_grant "PKCE verification failed", st) /\
  fst (OAuth.token "token-1" 1000
         (Scenario.exchange "code-1" (Some EmptyString)) st) = success.
Proof.
  intros st success.
  pose (authData := OAuth.issued 0 (Scenario.query Scenario.callback (Some Scenario.challenge))).
  assert (Hstored : OAuth.authorizationCodes st !! "code-1"%string = Some authData)
    by (vm_compute; reflexivity).
  assert (Hne : Scenario.challenge <> EmptyString) by discriminate.
  assert (Hlive : (1000 <= OAuth.code_expires_at authData)%Z) by (vm_compute; discriminate).
  split; [|split].
  - refine (proj1 (proj1 (C2_pkce_checked_when_verifier_presented
                            "token-1"%string 1000%Z
                            (Scenario.exchange "code-1" (Some Scenario.verifier))
                            st "code-1"%string authData Scenario.challenge
                            eq_refl eq_refl Hstored Hlive eq_refl Hne)
                         Scenario.verifier eq_refl _) _).
    + discriminate.
    + vm_compute. reflexivity.
  - refine (proj2 (proj1 (C2_pkce_checked_when_verifier_presented
                            "token-1"%string 1000%Z
                            (Scenario.exchange "code-1" (Some "guess"%string))
                            st "code-1"%string authData Scenario.challenge
                            eq_refl eq_refl Hstored Hlive eq_refl Hne)
                         "guess"%string eq_refl _) _).
    + discriminate.
    + vm_compute. discriminate.
  - exact (proj2 (C2_pkce_checked_when_verifier_presented
                    "token-1"%string 1000%Z
                    (Scenario.exchange "code-1" (Some EmptyString))
                    st "code-1"%string authData Scenario.challenge
                    eq_refl eq_refl Hstored Hlive eq_refl Hne) eq_refl).
Defined.

(** C2, as stated, fails: a code stored with the RFC 7636 challenge is
    exchanged by a request that presents no code_verifier at all, and the
    answer is the token response, not invalid_grant. *)
Lemma C2_absent_verifier_is_accepted :
  let st := snd (Scenario.authorized (Some Scenario.challenge)) in
  let b := Scenario.exchange "code-1" None in
  (OAuth.code_challenge <$> OAuth.authorizationCodes st !! "code-1"%string)
  = Some (Some Scenario.challenge) /\
  OAuth.code_verifier b = None /\
  fst (OAuth.token "token-1" 1000 b st)
  = Express.Json 200 (Express.TokenBody "token-1" "Bearer" 3600 "tmdb:read") /\
  OAuth.authorizationCodes (snd (OAuth.token "token-1" 1000 b st)) !! "code-1"%string = None.
Proof. vm_compute. repeat split; reflexivity. Qed.

(** ** The bearer gate *)

Section BearerGate.
Import Js Express OAuth.
Local Open Scope Z_scope.

(** What the gate reads off a header of the form Bearer <token>. *)
Lemma bearer_header (token : string) :
  truthy (Some ("Bearer " +:+ token)) = true /\
  startsWith ("Bearer " +:+ token) "Bearer " = true /\
  slice 7 ("Bearer " +:+ token) = token.
Proof. repeat split; reflexivity. Qed.

(** The gate of part_002 on a well-formed header is decided by the lookup
    and by the expiry of the record. *)
Lemma requireAuth_bearer now token st :
  requireAuth now (Some ("Bearer " +:+ token)) st =
    match accessTokens st !! token with
    | None => (Reject (Json 401 (ErrorBody "invalid_token" None)), st)
    | Some tokenData =>
        if token_expires_at tokenData <? now
        then (Reject (Json 401 (ErrorBody "invalid_token" None)), st)
        else (Next tokenData, st)
    end.
Proof.
  destruct (bearer_header token) as (Htruthy & Hstarts & Hslice).
  unfold requireAuth, to_string. rewrite Htruthy, Hstarts, Hslice. reflexivity.
Qed.

Lemma requireAuth_state now authHeader st :
  snd (requireAuth now authHeader st) = st.
Proof.
  unfold requireAuth.
  destruct (negb (truthy authHeader) || _); [reflexivity|].
  destruct (accessTokens st !! _) as [tokenData|]; [|reflexivity].
  destruct (token_expires_at tokenData <? now); reflexivity.
Qed.

Lemma simple_requireAuth_state auth (tokens : gmap string SseOAuth.Entry) :
  snd (SseOAuth.requireAuth auth tokens) = tokens.
Proof.
  unfold SseOAuth.requireAuth.
  destruct (negb (truthy auth) || _); [reflexivity|].
  destruct (tokens !! _) as [tokenData|]; [|reflexivity].
  destruct (decide _); reflexivity.
Qed.

End BearerGate.

(** ** No route removes an access token *)

Section TokensStay.
Import Js Express OAuth OAuthServer.
Context {U : UrlApi}.





End TokensStay.

(** ** What stays in the store of server-sse-oauth.js *)

Section SimpleTokensStay.
Import Js Express SseOAuth SseOAuthServer.
Context {U : UrlApi}.





End SimpleTokensStay.


(** C9.  The gate returns the store it was given: in both servers, whatever
    the header and whatever the outcome (next(), 401 unauthorized, 401
    invalid_token), the Maps after the gate are the Maps before it. *)
Theorem C9_gate_leaves_store_unchanged :
  (forall now authHeader st, snd (OAuth.requireAuth now authHeader st) = st) /\
  (forall auth (tokens : gmap string SseOAuth.Entry),
      snd (SseOAuth.requireAuth auth tokens) = tokens).
Proof.
  split.
  - exact requireAuth_state.
  - exact simple_requireAuth_state.
Qed.



(** ** The authorization endpoint *)

Section AuthorizationEndpoint.
Import Js Express.
Context {U : UrlApi}.

(** part_002 stores the code whatever becomes of the redirect. *)
Lemma authorize_stores authCode now q st :
  OAuth.authorizationCodes (snd (OAuth.authorize authCode now q st))
  = <[authCode := OAuth.issued now q]> (OAuth.authorizationCodes st).
Proof. unfold OAuth.authorize. destruct (URL_new _); reflexivity. Qed.

(** The catch block of part_002. *)
Lemma authorize_unparsable authCode now q st :
  URL_new (to_string (OAuth.q_redirect_uri q)) = None ->
  fst (OAuth.authorize authCode now q st)
  = Json 400 (ErrorBody "invalid_redirect_uri"
                (Some (URL_error_message (to_string (OAuth.q_redirect_uri q))))).
Proof. intros Hbad. unfold OAuth.authorize. rewrite Hbad. reflexivity. Qed.

(** server-sse-oauth.js has no try block around the constructor. *)
Lemma simple_authorize_unparsable code now q (tokens : gmap string SseOAuth.Entry) :
  URL_new (to_string (SseOAuth.q_redirect_uri q)) = None ->
  fst (SseOAuth.authorize code now q tokens)
  = Uncaught (URL_error_message (to_string (SseOAuth.q_redirect_uri q))).
Proof. intros Hbad. unfold SseOAuth.authorize. rewrite Hbad. reflexivity. Qed.

End AuthorizationEndpoint.

(** C4.  When the URL constructor rejects the redirect_uri, the authorization
    endpoint of part_002 answers with status 400 and the error
    invalid_redirect_uri, and no redirect; the authorization endpoint of
    server-sse-oauth.js lets the TypeError escape, which Express answers with
    status 500. *)
Theorem C4_unparsable_redirect_uri :
  forall (U : UrlApi) code now,
    (forall q st,
        URL_new (Js.to_string (OAuth.q_redirect_uri q)) = None ->
        let r := fst (OAuth.authorize code now q st) in
        r = Express.Json 400
              (Express.ErrorBody "invalid_redirect_uri"
                 (Some (URL_error_message (Js.to_string (OAuth.q_redirect_uri q)))))
        /\ Express.status_of r = 400%Z /\ Express.is_redirect r = false)
    /\
    (forall q (tokens : gmap string SseOAuth.Entry),
        URL_new (Js.to_string (SseOAuth.q_redirect_uri q)) = None ->
        let r := fst (SseOAuth.authorize code now q tokens) in
        r = Express.Uncaught (URL_error_message (Js.to_string (SseOAuth.q_redirect_uri q)))
        /\ Express.status_of r = 500%Z).
Proof.
  intros U code now. split.
  - intros q st Hbad r. unfold r. rewrite (authorize_unparsable _ _ _ _ Hbad).
    repeat split.
  - intros q tokens Hbad r. unfold r. rewrite (simple_authorize_unparsable _ _ _ _ Hbad).
    repeat split.
Qed.

Lemma C4_unparsable_redirect_uri_witness :
  let bad := Some "not-a-url"%string in
  fst (OAuth.authorize (U := SimpleUrl.api) "code-1" 0 (Scenario.query bad None)
         (OAuth.init "secret"))
  = Express.Json 400 (Express.ErrorBody "invalid_redirect_uri" (Some "Invalid URL"%string))
  /\
  fst (SseOAuth.authorize (U := SimpleUrl.api) "code-1" 0 (Scenario.simple_query bad) ∅)
  = Express.Uncaught "Invalid URL"
  /\
  Express.status_of
    (fst (SseOAuth.authorize (U := SimpleUrl.api) "code-1" 0 (Scenario.simple_query bad) ∅))
  = 500%Z.
Proof.
  intros bad.
  destruct (C4_unparsable_redirect_uri SimpleUrl.api "code-1"%string 0%Z) as [Hfull Hsimple].
  destruct (Hfull (Scenario.query bad None) (OAuth.init "secret") eq_refl) as (Hr & _ & _).
  destruct (Hsimple (Scenario.simple_query bad) ∅ eq_refl) as (Hs & Hstatus).
  split; [exact Hr|]. split; [exact Hs | exact Hstatus].
Defined.

(** C10.  Every request to the authorization endpoint of part_002 leaves the
    record of the drawn code in authorizationCodes; when the URL constructor
    rejects the redirect_uri the answer is the 400 invalid_redirect_uri
    failure, the record is in the Map all the same, and, the drawn code being
    new to the Map, the Map has grown by one entry. *)
Theorem C10_invalid_redirect_still_stores_code :
  forall (U : UrlApi) authCode now q st,
    OAuth.authorizationCodes (snd (OAuth.authorize authCode now q st))
    = <[authCode := OAuth.issued now q]> (OAuth.authorizationCodes st)
    /\
    (URL_new (Js.to_string (OAuth.q_redirect_uri q)) = None ->
     OAuth.authorizationCodes st !! authCode = None ->
     let result := OAuth.authorize authCode now q st in
     Express.status_of (fst result) = 400%Z
     /\ Express.is_redirect (fst result) = false
     /\ OAuth.authorizationCodes (snd result) !! authCode = Some (OAuth.issued now q)
     /\ size (OAuth.authorizationCodes (snd result))
        = S (size (OAuth.authorizationCodes st))).
Proof.
  intros U authCode now q st. split; [apply authorize_stores|].
  intros Hbad Hnew result. unfold result.
  rewrite (authorize_unparsable _ _ _ _ Hbad), authorize_stores.
  repeat split.
  - apply lookup_insert_eq.
  - apply map_size_insert_None. exact Hnew.
Qed.

Lemma C10_invalid_redirect_still_stores_code_witness :
  let q := Scenario.query (Some "not-a-url"%string) None in
  let result := OAuth.authorize (U := SimpleUrl.api) "code-1" 0 q (OAuth.init "secret") in
  Express.status_of (fst result) = 400%Z
  /\ OAuth.authorizationCodes (snd result) !! "code-1"%string = Some (OAuth.issued 0 q)
  /\ size (OAuth.authorizationCodes (snd result)) = 1%nat.
Proof.
  intros q result.
  destruct (proj2 (C10_invalid_redirect_still_stores_code SimpleUrl.api
                     "code-1"%string 0%Z q (OAuth.init "secret")) eq_refl eq_refl)
    as (Hstatus & _ & Hstored & Hsize).
  split; [exact Hstatus|]. split; [exact Hstored | exact Hsize].
Defined.

(** ** The session registries *)

Section Registries.
Import Js Express Registry.

(** No pair is kept by the filter when the key does not occur. *)
Lemma filter_key_absent {V} (key : string) (l : list (string * V)) :
  key ∉ l.*1 -> filter (fun kv => fst kv = key) l = [].
Proof.
  induction l as [|[k v] l IH]; simpl; intros Habsent; [reflexivity|].
  apply not_elem_of_cons in Habsent as [Hne Habsent].
  rewrite filter_cons. destruct (decide (fst (k, v) = key)) as [Heq|_].
  - simpl in Heq. congruence.
  - apply IH, Habsent.
Qed.

(** A list of pairs with distinct keys holds at most one pair per key. *)
Lemma at_most_one_per_key {V} (key : string) (l : list (string * V)) :
  NoDup l.*1 ->
  length (filter (fun kv => fst kv = key) l) <= 1.
Proof.
  induction l as [|[k v] l IH]; simpl; intros Hnodup; [lia|].
  apply NoDup_cons in Hnodup as [Hfresh Hnodup].
  rewrite filter_cons. destruct (decide (fst (k, v) = key)) as [Heq|Hne].
  - simpl in Heq. subst k. rewrite (filter_key_absent _ _ Hfresh). simpl. lia.
  - apply IH, Hnodup.
Qed.

Lemma entries_at_most_one sessionId st :
  length (Opens.entries sessionId st) <= 1.
Proof. apply at_most_one_per_key, NoDup_fst_map_to_list. Qed.

Lemma entries_lookup sessionId st t :
  (sessionId, t) ∈ Opens.entries sessionId st <-> transports st !! sessionId = Some t.
Proof.
  unfold Opens.entries. rewrite list_elem_of_filter, elem_of_map_to_list. simpl. tauto.
Qed.

(** server-http.js: once an id has been opened, opening it again changes
    nothing and yields what the first open yielded. *)
Lemma http_reopen uuid1 uuid2 header st :
  truthy header = true ->
  let first := ServerHttp.mcp uuid1 header st in
  ServerHttp.mcp uuid2 header (snd first) = (fst first, snd first).
Proof.
  intros Htruthy first. unfold first, ServerHttp.mcp.
  assert (Hid : forall uuid, or_else header uuid = to_string header).
  { intros uuid. destruct header as [h|]; [|discriminate Htruthy].
    unfold or_else. rewrite Htruthy. reflexivity. }
  rewrite !Hid. set (sessionId := to_string header).
  destruct (get (transports st) sessionId) as [t| |] eqn:Hget; simpl.
  - rewrite Hget. reflexivity.
  - rewrite Hget. reflexivity.
  - unfold get. rewrite lookup_insert_eq. reflexivity.
Qed.

(** part_000: an open binds the id of the new transport to the new
    transport. *)
Lemma sse_open_binds sessionId st :
  sessionId <> "__proto__"%string ->
  fst (ServerSse.sse sessionId st) = created st /\
  transports (snd (ServerSse.sse sessionId st)) !! sessionId = Some (created st).
Proof.
  intros Hne. unfold ServerSse.sse, set; simpl.
  destruct (decide _) as [Heq|_]; [contradiction|].
  split; [reflexivity | apply lookup_insert_eq].
Qed.

End Registries.

(** C5, as the code has it.  After any sequence of stream-open requests,
    on either registry, at most one entry is stored under a given session
    id.  In server-http.js a second open that carries the same id reuses the
    mapping: it is handed the transport the first open was handed, creates no
    transport and leaves the registry as it was.  In the SSE server of
    part_000 an open stores the transport it has just created under the id
    that transport generated, over any entry already stored under that id. *)
Theorem C5_one_entry_per_session_reused_on_reopen :
  (forall trace sessionId,
      length (Opens.entries sessionId (Opens.http trace Registry.init)) <= 1)
  /\
  (forall trace sessionId,
      length (Opens.entries sessionId (Opens.sse trace Registry.init)) <= 1)
  /\
  (forall uuid1 uuid2 header st,
      Js.truthy header = true ->
      let first := ServerHttp.get_mcp uuid1 header st in
      ServerHttp.get_mcp uuid2 header (snd first) = (fst first, snd first))
  /\
  (forall sessionId st,
      sessionId <> "__proto__"%string ->
      fst (ServerSse.sse sessionId st) = Registry.created st /\
      Registry.transports (snd (ServerSse.sse sessionId st)) !! sessionId
      = Some (Registry.created st)).
Proof.
  split; [|split; [|split]].
  - intros trace sessionId. apply entries_at_most_one.
  - intros trace sessionId. apply entries_at_most_one.
  - exact http_reopen.
  - exact sse_open_binds.
Qed.

Lemma C5_one_entry_per_session_reused_on_reopen_witness :
  let header := Some "session-1"%string in
  let first := ServerHttp.get_mcp "uuid-1" header Registry.init in
  let reopened := ServerSse.sse "session-1" (snd (ServerSse.sse "session-1" Registry.init)) in
  fst first = ServerHttp.Handled "session-1" 0
  /\ ServerHttp.get_mcp "uuid-2" header (snd first) = (fst first, snd first)
  /\ fst reopened = 1
  /\ Registry.transports (snd reopened) !! "session-1"%string = Some 1.
Proof.
  intros header first reopened.
  destruct C5_one_entry_per_session_reused_on_reopen as (_ & _ & Hhttp & Hsse).
  split; [reflexivity|].
  split; [exact (Hhttp "uuid-1"%string "uuid-2"%string header Registry.init eq_refl)|].
  assert (Hne : "session-1"%string <> "__proto__"%string) by discriminate.
  exact (Hsse "session-1"%string (snd (ServerSse.sse "session-1" Registry.init)) Hne).
Defined.

(** C5, as stated, fails on server-http.js: after two opens with the id
    session-1 the entry is the transport created by the first open, the
    second open was handed that same transport, and no second transport was
    ever created. *)
Lemma C5_second_open_keeps_first_transport :
  let first := ServerHttp.get_mcp "uuid-1" (Some "session-1"%string) Registry.init in
  let second := ServerHttp.get_mcp "uuid-2" (Some "session-1"%string) (snd first) in
  fst first = ServerHttp.Handled "session-1" 0
  /\ fst second = ServerHttp.Handled "session-1" 0
  /\ Registry.transports (snd second) !! "session-1"%string = Some 0
  /\ Registry.created (snd second) = 1.
Proof. vm_compute. repeat split; reflexivity. Qed.

Section CommandPost.
Import Js Express Registry.



End CommandPost.




(** ** The tool handlers *)

Section ToolHandlers.
Import Js Tools.

Lemma bind_ok {A B} (a : A) (f : A -> result B) : (Ok a ≫= f) = f a.
Proof. reflexivity. Qed.

Lemma bind_throw {A B} (message : string) (f : A -> result B) :
  (Throw message ≫= f) = Throw message.
Proof. reflexivity. Qed.

(** When the awaited reply rejects, the switch of server-chatgpt.js throws:
    the rejection itself, or an error raised before the call was made. *)
Lemma chatgpt_dispatch_rejected name args reply message :
  await_json reply = Throw message ->
  exists m, Chatgpt.dispatch name args reply = Throw m.
Proof.
  intros Hreject. unfold Chatgpt.dispatch.
  destruct (String.eqb name "search"); [|destruct (String.eqb name "fetch")].
  - destruct (get args "query") as [query|m]; [|rewrite bind_throw; eauto].
    rewrite bind_ok.
    destruct (template query) as [s|m]; [|rewrite bind_throw; eauto].
    rewrite bind_ok, Hreject, bind_throw. eauto.
  - destruct (get args "id") as [movieId|m]; [|rewrite bind_throw; eauto].
    rewrite bind_ok.
    destruct (template movieId) as [s|m]; [|rewrite bind_throw; eauto].
    rewrite bind_ok, Hreject, bind_throw. eauto.
  - eauto.
Qed.

(** The same for the switch of server-final.js and server-sse-oauth.js. *)
Lemma dispatch_rejected fetch_document name args reply message :
  await_json reply = Throw message ->
  exists m, dispatch fetch_document name args reply = Throw m.
Proof.
  intros Hreject. unfold dispatch.
  destruct (String.eqb name "search"); [|destruct (String.eqb name "fetch")].
  - destruct (get args "query") as [query|m]; [|rewrite bind_throw; eauto].
    rewrite bind_ok.
    destruct (template query) as [s|m]; [|rewrite bind_throw; eauto].
    rewrite bind_ok, Hreject, bind_throw. eauto.
  - destruct (get args "id") as [movieId|m]; [|rewrite bind_throw; eauto].
    rewrite bind_ok.
    destruct (template movieId) as [s|m]; [|rewrite bind_throw; eauto].
    rewrite bind_ok, Hreject, bind_throw. eauto.
  - eauto.
Qed.

(** The handler of server-chatgpt.js always returns. *)
Lemma chatgpt_callTool_returns name args reply :
  exists r, Chatgpt.callTool name args reply = Ok r.
Proof.
  unfold Chatgpt.callTool.
  destruct (Chatgpt.dispatch name args reply); simpl; eauto.
Qed.

End ToolHandlers.

(** C7, as the code has it.  The handler of server-chatgpt.js always
    returns a result; when the awaited collaborator call rejects (fetch
    rejects, or response.json() rejects) the result has isError true and one
    text block, Error: followed by a message, which is not empty.  The status
    of a reply is never consulted: a reply whose body parses as JSON is
    answered as it would be with status 200.  The handlers of server-final.js
    and server-sse-oauth.js rethrow: when the awaited call rejects they throw
    an Error whose message starts with their prefix. *)
Theorem C7_collaborator_failure :
  (forall name args reply, exists r, Tools.Chatgpt.callTool name args reply = Tools.Ok r)
  /\
  (forall name args reply message,
      Tools.await_json reply = Tools.Throw message ->
      exists m,
        Tools.Chatgpt.callTool name args reply
        = Tools.Ok {| Tools.content := [ {| Tools.type := "text";
                                           Tools.text := "Error: " +:+ m |} ];
                      Tools.isError := true |}
        /\ "Error: " +:+ m <> EmptyString)
  /\
  (forall name args status data,
      Tools.Chatgpt.callTool name args (Tools.Responded status (Tools.Parsed data))
      = Tools.Chatgpt.callTool name args (Tools.Responded 200 (Tools.Parsed data)))
  /\
  (forall fetch_document key_required failed_prefix apiKey name args reply message,
      Js.truthy apiKey = true ->
      Tools.await_json reply = Tools.Throw message ->
      exists m,
        Tools.callTool fetch_document key_required failed_prefix apiKey name args reply
        = Tools.Throw (failed_prefix +:+ m)).
Proof.
  split; [|split; [|split]].
  - exact chatgpt_callTool_returns.
  - intros name args reply message Hreject.
    destruct (chatgpt_dispatch_rejected name args reply message Hreject) as [m Hm].
    exists m. unfold Tools.Chatgpt.callTool. rewrite Hm. split; [reflexivity|discriminate].
  - reflexivity.
  - intros fetch_document key_required failed_prefix apiKey name args reply message
           Hkey Hreject.
    destruct (dispatch_rejected fetch_document name args reply message Hreject) as [m Hm].
    exists m. unfold Tools.callTool. rewrite Hkey, Hm. reflexivity.
Qed.

Lemma C7_collaborator_failure_witness :
  let reply := Tools.NetworkError "socket hang up" in
  (exists m,
      Tools.Chatgpt.callTool "fetch" ToolScenario.fetch_args reply
      = Tools.Ok {| Tools.content := [ {| Tools.type := "text";
                                         Tools.text := "Error: " +:+ m |} ];
                    Tools.isError := true |}
      /\ "Error: " +:+ m <> EmptyString)
  /\
  (exists m,
      Tools.Final_callTool ToolScenario.no_document (Some "key"%string)
        "fetch" ToolScenario.fetch_args reply
      = Tools.Throw ("Tool failed: " +:+ m)).
Proof.
  intros reply.
  destruct C7_collaborator_failure as (_ & Hcaught & _ & Hrethrown).
  split.
  - exact (Hcaught "fetch"%string ToolScenario.fetch_args reply
             "socket hang up"%string eq_refl).
  - exact (Hrethrown ToolScenario.no_document "TMDB_API_KEY required"%string
             "Tool failed: "%string (Some "key"%string) "fetch"%string
             ToolScenario.fetch_args reply "socket hang up"%string eq_refl eq_refl).
Defined.

(** C7, as stated, fails twice.  In server-final.js a fetch whose outbound
    call rejects makes the handler throw, no result is returned.  In
    server-chatgpt.js a reply with status 404 and a JSON body is returned as
    an ordinary result, without the error flag. *)
Lemma C7_failure_rethrown_or_unflagged :
  Tools.Final_callTool ToolScenario.no_document (Some "key"%string)
    "fetch" ToolScenario.fetch_args (Tools.NetworkError "socket hang up")
  = Tools.Throw "Tool failed: socket hang up"
  /\
  Tools.Chatgpt.callTool "fetch" ToolScenario.fetch_args
    (Tools.Responded 404 (Tools.Parsed ToolScenario.not_found))
  = Tools.Ok {| Tools.content :=
                  [ {| Tools.type := "text";
                       Tools.text :=
                         Tools.stringify_indented EmptyString ToolScenario.not_found |} ];
                Tools.isError := false |}.
Proof. split; reflexivity. Qed.

(** ** The formatted search *)

Section FormattedSearch.
Import Js Tools.

Lemma map_entries_length movies entries :
  map_entries movies = Ok entries -> length entries = length movies.
Proof.
  revert entries. induction movies as [|movie rest IH]; simpl; intros entries Hmap.
  - inversion Hmap. reflexivity.
  - destruct (search_entry movie) as [entry|m]; [|discriminate Hmap].
    rewrite bind_ok in Hmap.
    destruct (map_entries rest) as [entries'|m]; [|discriminate Hmap].
    rewrite bind_ok in Hmap. inversion Hmap. simpl. f_equal. apply IH. reflexivity.
Qed.




End FormattedSearch.

(** ** The text of the search result *)

Section SearchText.
Import Js Tools.















End SearchText.



(** The text returned for the Fight Club reply, spelled out. *)
Example fight_club_text :
  Tools.results_text
    [ {| Tools.id := "550"; Tools.title := "Fight Club (1999)";
         Tools.url := "https://www.themoviedb.org/movie/550" |} ]
  = ("{" +:+ Tools.quote "results" +:+ ":[{"
       +:+ Tools.quote "id" +:+ ":" +:+ Tools.quote "550" +:+ ","
       +:+ Tools.quote "title" +:+ ":" +:+ Tools.quote "Fight Club (1999)" +:+ ","
       +:+ Tools.quote "url" +:+ ":" +:+ Tools.quote "https://www.themoviedb.org/movie/550"
       +:+ "}]}")%string.
Proof. vm_compute. reflexivity. Qed.

(** A record without release_date, and one whose release_date is empty, get
    the year Unknown. *)
Example year_unknown :
  Tools.search_results
    (Tools.JObj [ ("results"%string,
                   Tools.JArr [ Tools.JObj [ ("id"%string, Tools.JNum 7);
                                             ("title"%string, Tools.JStr "Untitled") ];
                                Tools.JObj [ ("id"%string, Tools.JNum 8);
                                             ("title"%string, Tools.JStr "Undated");
                                             ("release_date"%string, Tools.JStr EmptyString) ] ]) ])
  = Tools.Ok [ {| Tools.id := "7"; Tools.title := "Untitled (Unknown)";
                  Tools.url := "https://www.themoviedb.org/movie/7" |};
               {| Tools.id := "8"; Tools.title := "Undated (Unknown)";
                  Tools.url := "https://www.themoviedb.org/movie/8" |} ].
Proof. vm_compute. reflexivity. Qed.

(** A reply of twelve records is cut to ten entries. *)
Example twelve_records_cut_to_ten :
  (fun r => match r with Tools.Ok entries => Some (length entries) | Tools.Throw _ => None end)
    (Tools.search_results
       (Tools.JObj [ ("results"%string, Tools.JArr (repeat ToolScenario.fight_club 12)) ]))
  = Some 10.
Proof. vm_compute. reflexivity. Qed.

(** ** A spent code stays spent *)

Section SpentCodes.
Import Js Express OAuth OAuthServer.
Context {U : UrlApi}.

Lemma token_keeps_spent accessToken t b st c :
  authorizationCodes st !! c = None ->
  authorizationCodes (snd (token accessToken t b st)) !! c = None.
Proof.
  intros Hspent. unfold token.
  destruct (decide _); simpl; [exact Hspent|].
  destruct (decide _); simpl; [|exact Hspent].
  destruct (code b) as [c0|]; [|exact Hspent].
  destruct (authorizationCodes st !! c0) as [authData|]; [|exact Hspent].
  destruct (code_expires_at authData <? t)%Z; [exact Hspent|].
  destruct (pkce_failed authData (code_verifier b)); [exact Hspent|].
  simpl. apply lookup_delete_None. right. exact Hspent.
Qed.

Lemma step_keeps_spent d r st c :
  uuid d <> c ->
  authorizationCodes st !! c = None ->
  authorizationCodes (step d r st) !! c = None.
Proof.
  intros Hother Hspent. destruct r as [uris sc|q|b|authHeader|]; simpl.
  - exact Hspent.
  - rewrite authorize_stores, lookup_insert_ne; [exact Hspent | exact Hother].
  - apply token_keeps_spent, Hspent.
  - rewrite requireAuth_state. exact Hspent.
  - exact Hspent.
Qed.

(** Through any sequence of requests in which the code is never drawn again,
    a code that is out of the Map stays out of it, and exchanging it is
    answered with invalid_grant. *)
Lemma replay_refused trace st c accessToken t b :
  Forall (fun dr => uuid (fst dr) <> c) trace ->
  authorizationCodes st !! c = None ->
  grant_type b = Some "authorization_code"%string ->
  code b = Some c ->
  fst (token accessToken t b (run trace st))
  = invalid_grant "Code not found or expired".
Proof.
  intros Hfresh Hspent Hgrant Hcode.
  assert (Hstill : authorizationCodes (run trace st) !! c = None).
  { revert st Hspent. induction Hfresh as [|[d r] rest Hd _ IH]; intros st Hspent; simpl.
    - exact Hspent.
    - apply IH, step_keeps_spent; [exact Hd | exact Hspent]. }
  rewrite (token_unknown_code _ _ _ _ _ Hgrant Hcode Hstill). reflexivity.
Qed.

End SpentCodes.

(** ** The gate of server-sse-oauth.js does not look at the clock *)

Section SimpleGate.
Import Js Express SseOAuth.

(** An entry stored as an access token is admitted whatever its created_at:
    the records of this server carry no expiry. *)
Lemma simple_gate_ignores_age token (tokens : gmap string Entry) entry :
  tokens !! token = Some entry ->
  type entry = Some "access_token"%string ->
  fst (requireAuth (Some ("Bearer " +:+ token)) tokens) = Next ().
Proof.
  intros Hstored Htype.
  destruct (bearer_header token) as (Htruthy & Hstarts & Hslice).
  unfold requireAuth, to_string. rewrite Htruthy, Hstarts, Hslice, Hstored. simpl.
  destruct (decide _) as [_|Hne]; [reflexivity | contradiction].
Qed.

End SimpleGate.

(** * Further properties *)

(** ** Strings *)

Section Strings.
Import Js.

(** A string that starts with a prefix is the prefix followed by what
    slice leaves. *)
Lemma startsWith_split (s p : string) :
  startsWith s p = true -> s = p +:+ slice (String.length p) s.
Proof.
  revert s. induction p as [|a p IH]; intros s Hstarts; [reflexivity|].
  destruct s as [|b s]; [discriminate Hstarts|].
  simpl in Hstarts. apply andb_true_iff in Hstarts as [Hab Hrest].
  apply Ascii.eqb_eq in Hab. subst b.
  change (String a s = String a (p +:+ slice (String.length p) s)).
  f_equal. apply IH, Hrest.
Qed.

Lemma startsWith_append (p s : string) : startsWith (p +:+ s) p = true.
Proof.
  induction p as [|a p IH]; [reflexivity|].
  change (Ascii.eqb a a && startsWith (p +:+ s) p = true).
  rewrite Ascii.eqb_refl. exact IH.
Qed.

(** A truthy header is a header. *)
Lemma truthy_Some (x : option string) : truthy x = true -> exists s, x = Some s.
Proof. destruct x as [s|]; [eauto | discriminate]. Qed.

(** The header the gates accept: Bearer, a space, and a token. *)
Lemma bearer_shape (auth : option string) :
  negb (truthy auth) || negb (startsWith (to_string auth) "Bearer ") = false ->
  auth = Some ("Bearer " +:+ slice 7 (to_string auth)).
Proof.
  intros Hok. apply orb_false_iff in Hok as [Htruthy Hstarts].
  apply negb_false_iff in Htruthy. apply negb_false_iff in Hstarts.
  destruct (truthy_Some _ Htruthy) as [h ->]. simpl in *.
  f_equal. exact (startsWith_split h "Bearer " Hstarts).
Qed.

End Strings.

(** ** The gate of part_002, characterised *)

Section GateOutcomes.
Import Js Express OAuth.

Lemma requireAuth_next_iff now authHeader st tokenData :
  fst (requireAuth now authHeader st) = Next tokenData <->
  exists token,
    authHeader = Some ("Bearer " +:+ token)
    /\ accessTokens st !! token = Some tokenData
    /\ (now <= token_expires_at tokenData)%Z.
Proof.
  split.
  - unfold requireAuth.
    destruct (negb (truthy authHeader) || _) eqn:Hheader; [discriminate|].
    pose proof (bearer_shape _ Hheader) as Hshape.
    destruct (accessTokens st !! _) as [td|] eqn:Hstored; [|discriminate].
    destruct (token_expires_at td <? now)%Z eqn:Hexpired; [discriminate|].
    simpl. intros Hnext. inversion Hnext. subst td.
    eexists. split; [exact Hshape|]. split; [exact Hstored|].
    apply Z.ltb_ge. exact Hexpired.
  - intros (token & -> & Hstored & Hlive).
    rewrite requireAuth_bearer, Hstored.
    apply Z.ltb_ge in Hlive. rewrite Hlive. reflexivity.
Qed.

Lemma requireAuth_cases now authHeader st :
  (exists tokenData, fst (requireAuth now authHeader st) = Next tokenData)
  \/ fst (requireAuth now authHeader st)
     = Reject (Json 401 (ErrorBody "invalid_token" None)).
Proof.
  unfold requireAuth.
  destruct (negb (truthy authHeader) || _); [right; reflexivity|].
  destruct (accessTokens st !! _) as [td|]; [|right; reflexivity].
  destruct (token_expires_at td <? now)%Z; [right; reflexivity|].
  left. eexists. reflexivity.
Qed.

End GateOutcomes.

(** X1.  requireAuth of part_002 calls next() exactly when the header is
    Bearer, a space and a token that is a key of accessTokens whose record
    has not expired, and the record it attaches is that record; every other
    request gets 401 invalid_token. *)
Theorem requireAuth_admits_exactly :
  forall now authHeader st,
    (forall tokenData,
        fst (OAuth.requireAuth now authHeader st) = Express.Next tokenData <->
        exists token,
          authHeader = Some ("Bearer " +:+ token)
          /\ OAuth.accessTokens st !! token = Some tokenData
          /\ (now <= OAuth.token_expires_at tokenData)%Z)
    /\
    ((exists tokenData, fst (OAuth.requireAuth now authHeader st) = Express.Next tokenData)
     \/ fst (OAuth.requireAuth now authHeader st)
        = Express.Reject (Express.Json 401 (Express.ErrorBody "invalid_token" None))).
Proof.
  intros now authHeader st. split.
  - intros tokenData. apply requireAuth_next_iff.
  - apply requireAuth_cases.
Qed.

(** ** Tokens of part_002, from the token endpoint to the gate *)

Section IssuedTokens.
Import Js Express OAuth.
Local Open Scope Z_scope.

(** A 200 answer stores a record under the drawn UUID that expires one hour
    after the request. *)
Lemma token_success_stores accessToken now b st resp st' :
  token accessToken now b st = (resp, st') ->
  status_of resp = 200 ->
  exists tokenData,
    accessTokens st' !! accessToken = Some tokenData
    /\ token_expires_at tokenData = now + 3600000.
Proof.
  unfold token. intros Hrun Hok.
  destruct (decide _).
  { inversion Hrun; subst; simpl. eexists. split; [apply lookup_insert_eq | reflexivity]. }
  destruct (decide _); [|inversion Hrun; subst; discriminate Hok].
  destruct (code b) as [c|]; [|inversion Hrun; subst; discriminate Hok].
  destruct (authorizationCodes st !! c) as [authData|];
    [|inversion Hrun; subst; discriminate Hok].
  destruct (code_expires_at authData <? now);
    [inversion Hrun; subst; discriminate Hok|].
  destruct (pkce_failed authData (code_verifier b));
    [inversion Hrun; subst; discriminate Hok|].
  inversion Hrun; subst; simpl. eexists. split; [apply lookup_insert_eq | reflexivity].
Qed.

End IssuedTokens.

(** X2.  In part_002, the access token of a 200 answer of the token endpoint,
    under either grant, presented as Bearer token, is admitted by requireAuth
    at every time up to and including one hour (3600000 ms) after the
    request, and is rejected with 401 invalid_token at every later time. *)
Theorem issued_token_admitted_for_one_hour :
  forall accessToken now b st resp st',
    OAuth.token accessToken now b st = (resp, st') ->
    Express.status_of resp = 200%Z ->
    forall t,
      ((t <= now + 3600000)%Z ->
       exists tokenData,
         OAuth.requireAuth t (Some ("Bearer " +:+ accessToken)) st'
         = (Express.Next tokenData, st'))
      /\
      ((now + 3600000 < t)%Z ->
       OAuth.requireAuth t (Some ("Bearer " +:+ accessToken)) st'
       = (Express.Reject (Express.Json 401 (Express.ErrorBody "invalid_token" None)), st')).
Proof.
  intros accessToken now b st resp st' Hrun Hok t.
  destruct (token_success_stores _ _ _ _ _ _ Hrun Hok) as (tokenData & Hstored & Hexpires).
  rewrite requireAuth_bearer, Hstored, Hexpires. split.
  - intros Hlive. apply Z.ltb_ge in Hlive. rewrite Hlive. eauto.
  - intros Hlate. apply Z.ltb_lt in Hlate. rewrite Hlate. reflexivity.
Qed.

Lemma issued_token_admitted_for_one_hour_witness :
  let b := Scenario.exchange "code-1" None in
  let st := snd (Scenario.authorized None) in
  let st' := snd (OAuth.token "token-1" 1000 b st) in
  (exists tokenData,
      OAuth.requireAuth 3601000 (Some "Bearer token-1"%string) st'
      = (Express.Next tokenData, st'))
  /\
  OAuth.requireAuth 3601001 (Some "Bearer token-1"%string) st'
  = (Express.Reject (Express.Json 401 (Express.ErrorBody "invalid_token" None)), st').
Proof.
  intros b st st'.
  assert (Hrun : OAuth.token "token-1" 1000 b st
                 = (fst (OAuth.token "token-1" 1000 b st), st'))
    by (unfold st'; destruct (OAuth.token "token-1" 1000 b st); reflexivity).
  assert (Hok : Express.status_of (fst (OAuth.token "token-1" 1000 b st)) = 200%Z)
    by (vm_compute; reflexivity).
  split.
  - apply (proj1 (issued_token_admitted_for_one_hour _ _ _ _ _ _ Hrun Hok 3601000%Z)).
    vm_compute. discriminate.
  - apply (proj2 (issued_token_admitted_for_one_hour _ _ _ _ _ _ Hrun Hok 3601001%Z)).
    reflexivity.
Defined.

(** ** Codes of part_002, from the authorization endpoint to the token endpoint *)

Section IssuedCodes.
Import Js Express OAuth.
Local Open Scope Z_scope.

(** A record stored without a truthy challenge passes the PKCE test. *)
Lemma pkce_unchallenged authData verifier :
  truthy (code_challenge authData) = false -> pkce_failed authData verifier = false.
Proof.
  intros Hnone. unfold pkce_failed.
  destruct (code_challenge authData) as [challenge|]; [|reflexivity].
  destruct verifier as [v|]; [|reflexivity].
  rewrite Hnone. reflexivity.
Qed.

End IssuedCodes.

(** X3.  In part_002, a code issued by the authorization endpoint at time
    now for a request without code_challenge is exchanged successfully at
    every time up to and including now + 600000 ms: the answer carries the
    scope of the authorization request (tmdb:read when it had none), the
    stored token is bound to its client_id (tmdb-mcp-client when it had
    none) and the code leaves the Map.  At every later time the exchange is
    answered with invalid_grant and the expired record stays in the Map. *)
Theorem issued_code_exchangeable_for_ten_minutes :
  forall (U : UrlApi) authCode now q st accessToken t b,
    Js.truthy (OAuth.q_code_challenge q) = false ->
    OAuth.grant_type b = Some "authorization_code"%string ->
    OAuth.code b = Some authCode ->
    let st1 := snd (OAuth.authorize authCode now q st) in
    let exchanged := OAuth.token accessToken t b st1 in
    ((t <= now + 600000)%Z ->
     fst exchanged
     = Express.Json 200 (Express.TokenBody accessToken "Bearer" 3600
                           (default "tmdb:read"%string (OAuth.q_scope q)))
     /\ OAuth.accessTokens (snd exchanged) !! accessToken
        = Some {| OAuth.token_client_id :=
                    Js.or_else (OAuth.q_client_id q) "tmdb-mcp-client";
                  OAuth.token_scope := default "tmdb:read"%string (OAuth.q_scope q);
                  OAuth.token_expires_at := (t + 3600000)%Z |}
     /\ OAuth.authorizationCodes (snd exchanged) !! authCode = None)
    /\
    ((now + 600000 < t)%Z ->
     exchanged = (OAuth.invalid_grant "Code not found or expired", st1)
     /\ OAuth.authorizationCodes st1 !! authCode = Some (OAuth.issued now q)).
Proof.
  intros U authCode now q st accessToken t b Hplain Hgrant Hcode st1 exchanged.
  assert (Hstored : OAuth.authorizationCodes st1 !! authCode = Some (OAuth.issued now q)).
  { unfold st1. rewrite authorize_stores. apply lookup_insert_eq. }
  unfold exchanged.
  rewrite (token_authorization_code _ _ _ _ authCode Hgrant Hcode), Hstored.
  change (OAuth.code_expires_at (OAuth.issued now q)) with (now + 600000)%Z.
  split.
  - intros Hlive. apply Z.ltb_ge in Hlive. rewrite Hlive.
    rewrite (pkce_unchallenged (OAuth.issued now q) _ Hplain). simpl.
    split; [reflexivity|]. split; [apply lookup_insert_eq | apply lookup_delete_eq].
  - intros Hlate. apply Z.ltb_lt in Hlate. rewrite Hlate. split; reflexivity.
Qed.

Lemma issued_code_exchangeable_for_ten_minutes_witness :
  let b := Scenario.exchange "code-1" None in
  let st1 := snd (Scenario.authorized None) in
  fst (OAuth.token "token-1" 600000 b st1)
  = Express.Json 200 (Express.TokenBody "token-1" "Bearer" 3600 "tmdb:read")
  /\
  OAuth.token "token-1" 600001 b st1
  = (OAuth.invalid_grant "Code not found or expired", st1).
Proof.
  intros b st1.
  pose proof (issued_code_exchangeable_for_ten_minutes SimpleUrl.api
                "code-1"%string 0%Z (Scenario.query Scenario.callback None)
                (OAuth.init "secret") "token-1"%string) as Hround.
  split.
  - refine (proj1 (proj1 (Hround 600000%Z b eq_refl eq_refl eq_refl) _)).
    vm_compute. discriminate.
  - refine (proj1 (proj2 (Hround 600001%Z b eq_refl eq_refl eq_refl) _)).
    reflexivity.
Defined.

(** X4.  The token endpoint of part_002 never looks at client_secret, at
    the redirect_uri of the request, or at the clients Map: two requests that
    agree on grant_type, code, code_verifier and client_id, on stores that
    agree on authorizationCodes and accessTokens, get the same answer and
    leave the same codes and tokens; the clients Map is never changed. *)
Theorem token_ignores_secret_and_clients :
  forall accessToken now b b' st st',
    OAuth.grant_type b = OAuth.grant_type b' ->
    OAuth.code b = OAuth.code b' ->
    OAuth.code_verifier b = OAuth.code_verifier b' ->
    OAuth.b_client_id b = OAuth.b_client_id b' ->
    OAuth.authorizationCodes st = OAuth.authorizationCodes st' ->
    OAuth.accessTokens st = OAuth.accessTokens st' ->
    let r := OAuth.token accessToken now b st in
    let r' := OAuth.token accessToken now b' st' in
    fst r = fst r'
    /\ OAuth.authorizationCodes (snd r) = OAuth.authorizationCodes (snd r')
    /\ OAuth.accessTokens (snd r) = OAuth.accessTokens (snd r')
    /\ OAuth.clients (snd r) = OAuth.clients st.
Proof.
  intros accessToken now b b' st st' Hgrant Hcode Hverifier Hclient Hcodes Htokens r r'.
  destruct st as [codes tokens registered], st' as [codes' tokens' registered'].
  destruct b as [grant c uri client secret verifier],
           b' as [grant' c' uri' client' secret' verifier'].
  simpl in *. subst grant' c' verifier' client' codes' tokens'.
  unfold r, r', OAuth.token. simpl.
  destruct (decide _); [repeat split|].
  destruct (decide _); [|repeat split].
  destruct c as [c|]; [|repeat split].
  destruct (codes !! c) as [authData|]; [|repeat split].
  destruct (OAuth.code_expires_at authData <? now)%Z; [repeat split|].
  destruct (OAuth.pkce_failed authData verifier); repeat split.
Qed.

Lemma token_ignores_secret_and_clients_witness :
  let b := {| OAuth.grant_type := Some "client_credentials"%string;
              OAuth.code := None; OAuth.redirect_uri := None;
              OAuth.b_client_id := Some "nobody"%string;
              OAuth.b_client_secret := None; OAuth.code_verifier := None |} in
  let b' := {| OAuth.grant_type := Some "client_credentials"%string;
               OAuth.code := None;
               OAuth.redirect_uri := Some "https://elsewhere.example/"%string;
               OAuth.b_client_id := Some "nobody"%string;
               OAuth.b_client_secret := Some "wrong secret"%string;
               OAuth.code_verifier := None |} in
  fst (OAuth.token "token-1" 0 b (OAuth.init "secret"))
  = fst (OAuth.token "token-1" 0 b' (OAuth.init "another secret")).
Proof.
  intros b b'.
  exact (proj1 (token_ignores_secret_and_clients "token-1"%string 0%Z b b'
                  (OAuth.init "secret") (OAuth.init "another secret")
                  eq_refl eq_refl eq_refl eq_refl eq_refl eq_refl)).
Defined.

(** ** Grant types and the discovery documents *)

Section GrantTypes.
Import Js Express.

Lemma oauth_unsupported accessToken now b st :
  OAuth.grant_type b <> Some "client_credentials"%string ->
  OAuth.grant_type b <> Some "authorization_code"%string ->
  OAuth.token accessToken now b st
  = (Json 400 (ErrorBody "unsupported_grant_type" None), st).
Proof.
  intros Hcc Hac. unfold OAuth.token.
  destruct (decide _); [contradiction|]. destruct (decide _); [contradiction|]. reflexivity.
Qed.

Lemma oauth_supported accessToken now b st :
  OAuth.grant_type b = Some "client_credentials"%string
  \/ OAuth.grant_type b = Some "authorization_code"%string ->
  fst (OAuth.token accessToken now b st)
  <> Json 400 (ErrorBody "unsupported_grant_type" None).
Proof.
  intros Hgrant. unfold OAuth.token.
  destruct (decide _); [discriminate|].
  destruct (decide _) as [_|Hne]; [|destruct Hgrant; contradiction].
  destruct (OAuth.code b) as [c|]; [|discriminate].
  destruct (OAuth.authorizationCodes st !! c) as [authData|]; [|discriminate].
  destruct (OAuth.code_expires_at authData <? now)%Z; [discriminate|].
  destruct (OAuth.pkce_failed authData (OAuth.code_verifier b)); discriminate.
Qed.

End GrantTypes.

(** X5.  Each token endpoint supports exactly the grant types its discovery
    document lists: the answer is the 400 unsupported_grant_type failure if
    and only if the grant_type of the request is not an element of
    grant_types_supported (part_002: authorization_code and
    client_credentials; server-sse-oauth.js and server-final.js:
    authorization_code only). *)
Theorem grant_types_as_advertised :
  forall protocol host accessToken now,
    (forall b st,
        fst (OAuth.token accessToken now b st)
        = Express.Json 400 (Express.ErrorBody "unsupported_grant_type" None)
        <->
        ~ exists g, OAuth.grant_type b = Some g
                    /\ g ∈ Discovery.grant_types_supported (Discovery.oauth protocol host))
    /\
    (forall b (tokens : gmap string SseOAuth.Entry),
        fst (SseOAuth.token accessToken now b tokens)
        = Express.Json 400 (Express.ErrorBody "unsupported_grant_type" None)
        <->
        ~ exists g, SseOAuth.grant_type b = Some g
                    /\ g ∈ Discovery.grant_types_supported (Discovery.sse_oauth protocol host))
    /\
    (forall grant_type code (tokens : gmap string SseOAuth.Entry),
        fst (FinalOAuth.token accessToken now grant_type code tokens)
        = Express.Json 400 (Express.ErrorBody "unsupported_grant_type" None)
        <->
        ~ exists g, grant_type = Some g
                    /\ g ∈ Discovery.grant_types_supported (Discovery.sse_oauth protocol host)).
Proof.
  intros protocol host accessToken now. split; [|split].
  - intros b st. split.
    + intros Hanswer (g & Hg & Hin). simpl in Hin.
      apply (oauth_supported accessToken now b st); [|exact Hanswer].
      rewrite Hg.
      apply elem_of_cons in Hin as [->|Hin]; [right; reflexivity|].
      apply elem_of_cons in Hin as [->|Hin]; [left; reflexivity|].
      inversion Hin.
    + intros Hnot. rewrite oauth_unsupported; [reflexivity| |];
        intros Hg; apply Hnot; eexists; (split; [exact Hg|]); simpl.
      * apply elem_of_cons. right. apply elem_of_cons. left. reflexivity.
      * apply elem_of_cons. left. reflexivity.
  - intros b tokens. unfold SseOAuth.token. split.
    + intros Hanswer (g & Hg & Hin). simpl in Hin.
      apply elem_of_cons in Hin as [->|Hin]; [|inversion Hin].
      rewrite Hg in Hanswer.
      destruct (decide _) as [_|Hne]; [|contradiction].
      destruct (SseOAuth.code b) as [c|]; [|discriminate].
      destruct (tokens !! c); discriminate.
    + intros Hnot. destruct (decide _) as [Hg|_]; [|reflexivity].
      exfalso. apply Hnot. eexists. split; [exact Hg|]. simpl.
      apply elem_of_cons. left. reflexivity.
  - intros grant_type code tokens. unfold FinalOAuth.token. split.
    + intros Hanswer (g & Hg & Hin). simpl in Hin.
      apply elem_of_cons in Hin as [->|Hin]; [|inversion Hin].
      rewrite Hg in Hanswer.
      destruct (decide _) as [_|Hne]; [|contradiction].
      destruct code as [c|]; [|discriminate].
      destruct (tokens !! c); discriminate.
    + intros Hnot. destruct (decide _) as [Hg|_]; [|reflexivity].
      exfalso. apply Hnot. eexists. split; [exact Hg|]. simpl.
      apply elem_of_cons. left. reflexivity.
Qed.

(** ** The gates of server-sse-oauth.js and server-final.js *)

Section SimpleGates.
Import Js Express.

Lemma simple_requireAuth_bearer token (tokens : gmap string SseOAuth.Entry) :
  SseOAuth.requireAuth (Some ("Bearer " +:+ token)) tokens =
    match tokens !! token with
    | None => (Reject (Json 401 (ErrorBody "invalid_token" None)), tokens)
    | Some tokenData =>
        if decide (SseOAuth.type tokenData = Some "access_token"%string)
        then (Next (), tokens)
        else (Reject (Json 401 (ErrorBody "invalid_token" None)), tokens)
    end.
Proof.
  destruct (bearer_header token) as (Htruthy & Hstarts & Hslice).
  unfold SseOAuth.requireAuth, to_string. rewrite Htruthy, Hstarts, Hslice. reflexivity.
Qed.

(** A header is of the Bearer form exactly when the first test of the gates
    lets it through. *)
Lemma bearer_form (auth : option string) :
  (exists token, auth = Some ("Bearer " +:+ token)) <->
  negb (truthy auth) || negb (startsWith (to_string auth) "Bearer ") = false.
Proof.
  split.
  - intros [token ->]. destruct (bearer_header token) as (Htruthy & Hstarts & _).
    unfold to_string. rewrite Htruthy, Hstarts. reflexivity.
  - intros Hok. eexists. exact (bearer_shape _ Hok).
Qed.

End SimpleGates.

(** X6.  requireAuth of server-sse-oauth.js calls next() exactly when the
    header is Bearer, a space and a key of tokens whose record has the type
    access_token; it answers 401 unauthorized exactly when the header is
    absent or not of that form, and 401 invalid_token in the remaining
    cases. *)
Theorem simple_requireAuth_outcomes :
  forall auth (tokens : gmap string SseOAuth.Entry),
    (fst (SseOAuth.requireAuth auth tokens) = Express.Next () <->
     exists token entry,
       auth = Some ("Bearer " +:+ token)
       /\ tokens !! token = Some entry
       /\ SseOAuth.type entry = Some "access_token"%string)
    /\
    (fst (SseOAuth.requireAuth auth tokens)
     = Express.Reject (Express.Json 401 (Express.ErrorBody "unauthorized" None)) <->
     ~ exists token, auth = Some ("Bearer " +:+ token))
    /\
    (fst (SseOAuth.requireAuth auth tokens) = Express.Next ()
     \/ fst (SseOAuth.requireAuth auth tokens)
        = Express.Reject (Express.Json 401 (Express.ErrorBody "unauthorized" None))
     \/ fst (SseOAuth.requireAuth auth tokens)
        = Express.Reject (Express.Json 401 (Express.ErrorBody "invalid_token" None))).
Proof.
  intros auth tokens. split; [|split].
  - split.
    + unfold SseOAuth.requireAuth.
      destruct (negb (Js.truthy auth) || _) eqn:Hheader; [discriminate|].
      pose proof (bearer_shape _ Hheader) as Hshape.
      destruct (tokens !! _) as [entry|] eqn:Hstored; [|discriminate].
      destruct (decide _) as [Htype|_]; [|discriminate].
      intros _. eauto.
    + intros (token & entry & -> & Hstored & Htype).
      rewrite simple_requireAuth_bearer, Hstored.
      destruct (decide _); [reflexivity | contradiction].
  - rewrite bearer_form. unfold SseOAuth.requireAuth.
    destruct (negb (Js.truthy auth) || _).
    + split; [intros _; discriminate | reflexivity].
    + split; [|intros Hno; now destruct Hno].
      destruct (tokens !! _) as [entry|]; [|discriminate].
      destruct (decide _); discriminate.
  - unfold SseOAuth.requireAuth.
    destruct (negb (Js.truthy auth) || _); [right; left; reflexivity|].
    destruct (tokens !! _) as [entry|]; [|right; right; reflexivity].
    destruct (decide _); [left | right; right]; reflexivity.
Qed.

(** X7.  In server-sse-oauth.js a code issued by the authorization endpoint
    is not a bearer token (the gate answers 401 invalid_token for it), it is
    exchanged successfully however much time has passed, the answer carries
    the scope of the authorization request (read when it had none), the
    access token drawn, if it differs from the code, is admitted by the gate,
    and the code is gone. *)
Theorem simple_code_round_trip :
  forall (U : UrlApi) code now q (tokens : gmap string SseOAuth.Entry) accessToken t b,
    SseOAuth.grant_type b = Some "authorization_code"%string ->
    SseOAuth.code b = Some code ->
    accessToken <> code ->
    let tokens1 := snd (SseOAuth.authorize code now q tokens) in
    let exchanged := SseOAuth.token accessToken t b tokens1 in
    fst (SseOAuth.requireAuth (Some ("Bearer " +:+ code)) tokens1)
    = Express.Reject (Express.Json 401 (Express.ErrorBody "invalid_token" None))
    /\ fst exchanged
       = Express.Json 200 (Express.TokenBody accessToken "Bearer" 3600
                             (Js.or_else (SseOAuth.q_scope q) "read"))
    /\ fst (SseOAuth.requireAuth (Some ("Bearer " +:+ accessToken)) (snd exchanged))
       = Express.Next ()
    /\ snd exchanged !! code = None.
Proof.
  intros U code now q tokens accessToken t b Hgrant Hcode Hother tokens1 exchanged.
  assert (Hstored : tokens1 !! code
                    = Some {| SseOAuth.type := None;
                              SseOAuth.client_id := Js.or_else (SseOAuth.q_client_id q) "default";
                              SseOAuth.scope := Js.or_else (SseOAuth.q_scope q) "read";
                              SseOAuth.created_at := now |}).
  { unfold tokens1, SseOAuth.authorize. destruct (URL_new _); simpl; apply lookup_insert_eq. }
  split.
  { rewrite simple_requireAuth_bearer, Hstored. reflexivity. }
  unfold exchanged, SseOAuth.token. rewrite Hgrant, Hcode, Hstored.
  destruct (decide _) as [_|Hne]; [|contradiction]. simpl.
  split; [reflexivity|]. split; [|apply lookup_delete_eq].
  rewrite simple_requireAuth_bearer, lookup_delete_ne, lookup_insert_eq by congruence.
  reflexivity.
Qed.

Lemma simple_code_round_trip_witness :
  let tokens1 :=
    snd (SseOAuth.authorize (U := SimpleUrl.api) "code-1" 0
           (Scenario.simple_query Scenario.callback) ∅) in
  let exchanged :=
    SseOAuth.token "token-1" 86400000000 (Scenario.simple_exchange "code-1") tokens1 in
  fst (SseOAuth.requireAuth (Some "Bearer code-1"%string) tokens1)
  = Express.Reject (Express.Json 401 (Express.ErrorBody "invalid_token" None))
  /\ fst exchanged = Express.Json 200 (Express.TokenBody "token-1" "Bearer" 3600 "read")
  /\ fst (SseOAuth.requireAuth (Some "Bearer token-1"%string) (snd exchanged))
     = Express.Next ().
Proof.
  intros tokens1 exchanged.
  assert (Hother : "token-1"%string <> "code-1"%string) by discriminate.
  destruct (simple_code_round_trip SimpleUrl.api "code-1"%string 0%Z
              (Scenario.simple_query Scenario.callback) ∅ "token-1"%string
              86400000000%Z (Scenario.simple_exchange "code-1") eq_refl eq_refl Hother)
    as (Hcode & Hanswer & Hadmitted & _).
  split; [exact Hcode|]. split; [exact Hanswer | exact Hadmitted].
Defined.

(** X8.  The token endpoint of server-sse-oauth.js takes any key of tokens
    for a code: a request that presents a stored access token as its code is
    answered with a new access token of the same scope, which the gate
    admits, and the presented token is deleted, so that the gate then
    rejects it. *)
Theorem access_token_taken_for_code :
  forall accessToken fresh now b (tokens : gmap string SseOAuth.Entry) entry,
    SseOAuth.grant_type b = Some "authorization_code"%string ->
    SseOAuth.code b = Some accessToken ->
    tokens !! accessToken = Some entry ->
    SseOAuth.type entry = Some "access_token"%string ->
    fresh <> accessToken ->
    let r := SseOAuth.token fresh now b tokens in
    fst r = Express.Json 200 (Express.TokenBody fresh "Bearer" 3600 (SseOAuth.scope entry))
    /\ fst (SseOAuth.requireAuth (Some ("Bearer " +:+ fresh)) (snd r)) = Express.Next ()
    /\ fst (SseOAuth.requireAuth (Some ("Bearer " +:+ accessToken)) (snd r))
       = Express.Reject (Express.Json 401 (Express.ErrorBody "invalid_token" None)).
Proof.
  intros accessToken fresh now b tokens entry Hgrant Hcode Hstored Htype Hother r.
  unfold r, SseOAuth.token. rewrite Hgrant, Hcode, Hstored.
  destruct (decide _) as [_|Hne]; [|contradiction]. simpl.
  split; [reflexivity|]. split.
  - rewrite simple_requireAuth_bearer, lookup_delete_ne, lookup_insert_eq by congruence.
    reflexivity.
  - rewrite simple_requireAuth_bearer, lookup_delete_eq. reflexivity.
Qed.

Lemma access_token_taken_for_code_witness :
  let tokens1 :=
    snd (SseOAuth.authorize (U := SimpleUrl.api) "code-1" 0
           (Scenario.simple_query Scenario.callback) ∅) in
  let tokens2 :=
    snd (SseOAuth.token "token-1" 1000 (Scenario.simple_exchange "code-1") tokens1) in
  let r := SseOAuth.token "token-2" 2000 (Scenario.simple_exchange "token-1") tokens2 in
  fst r = Express.Json 200 (Express.TokenBody "token-2" "Bearer" 3600 "read")
  /\ fst (SseOAuth.requireAuth (Some "Bearer token-1"%string) (snd r))
     = Express.Reject (Express.Json 401 (Express.ErrorBody "invalid_token" None)).
Proof.
  intros tokens1 tokens2 r.
  pose (entry := {| SseOAuth.type := Some "access_token"%string;
                    SseOAuth.client_id := "default"; SseOAuth.scope := "read";
                    SseOAuth.created_at := 1000 |}).
  assert (Hstored : tokens2 !! "token-1"%string = Some entry) by (vm_compute; reflexivity).
  assert (Hother : "token-2"%string <> "token-1"%string) by discriminate.
  destruct (access_token_taken_for_code "token-1"%string "token-2"%string 2000%Z
              (Scenario.simple_exchange "token-1") tokens2 entry
              eq_refl eq_refl Hstored eq_refl Hother) as (Hanswer & _ & Hold).
  split; [exact Hanswer | exact Hold].
Defined.

(** X9.  GET /sse of server-sse-oauth.js checks a token only when one is
    presented: the connection goes ahead exactly when the header is absent
    or not of the Bearer form, or when requireAuth would admit it; the only
    refusal is 401 invalid_token. *)
Theorem sse_connection_gate :
  forall auth (tokens : gmap string SseOAuth.Entry),
    (SseOAuthRoutes.sse auth tokens = Express.Next () <->
     (~ exists token, auth = Some ("Bearer " +:+ token))
     \/ fst (SseOAuth.requireAuth auth tokens) = Express.Next ())
    /\
    (SseOAuthRoutes.sse auth tokens = Express.Next ()
     \/ SseOAuthRoutes.sse auth tokens
        = Express.Reject (Express.Json 401 (Express.ErrorBody "invalid_token" None))).
Proof.
  intros auth tokens. rewrite bearer_form.
  unfold SseOAuthRoutes.sse, SseOAuth.requireAuth.
  set (bearer := Js.startsWith (Js.to_string auth) "Bearer ").
  set (token := Js.slice 7 (Js.to_string auth)).
  destruct (Js.truthy auth), bearer; cbn [negb orb fst].
  - destruct (tokens !! token) as [entry|]; [destruct (decide _)|]; cbn [fst].
    + split; [split; [right|]; reflexivity | left; reflexivity].
    + split; [|right; reflexivity].
      split; [discriminate | intros [Hno|Hnext]; [now destruct Hno | discriminate]].
    + split; [|right; reflexivity].
      split; [discriminate | intros [Hno|Hnext]; [now destruct Hno | discriminate]].
  - split; [|left; reflexivity]. split; [intros _; left; discriminate | reflexivity].
  - split; [|left; reflexivity]. split; [intros _; left; discriminate | reflexivity].
  - split; [|left; reflexivity]. split; [intros _; left; discriminate | reflexivity].
Qed.

(** X10.  The routes of server-final.js guarded by checkAuth let a request
    through exactly when requireAuth of server-sse-oauth.js would call
    next() on the same header and store, and answer every other request with
    401 unauthorized, whether the header is missing or the token unknown. *)
Theorem checkAuth_agrees_with_requireAuth :
  forall auth (tokens : gmap string SseOAuth.Entry),
    (FinalOAuth.guarded auth tokens = Express.Next () <->
     fst (SseOAuth.requireAuth auth tokens) = Express.Next ())
    /\
    (FinalOAuth.guarded auth tokens = Express.Next ()
     \/ FinalOAuth.guarded auth tokens
        = Express.Reject (Express.Json 401 (Express.ErrorBody "unauthorized" None))).
Proof.
  intros auth tokens.
  unfold FinalOAuth.guarded, FinalOAuth.checkAuth, SseOAuth.requireAuth.
  set (bearer := Js.startsWith (Js.to_string auth) "Bearer ").
  set (token := Js.slice 7 (Js.to_string auth)).
  destruct (negb (Js.truthy auth) || negb bearer); cbn [negb fst FinalOAuth.passes].
  - split; [split; discriminate | right; reflexivity].
  - destruct (tokens !! token) as [entry|]; cbn [negb fst FinalOAuth.passes].
    + destruct (decide _) as [Htype|Htype].
      * rewrite bool_decide_eq_true_2 by exact Htype. cbn [negb fst].
        split; [split; reflexivity | left; reflexivity].
      * rewrite bool_decide_eq_false_2 by exact Htype. cbn [negb fst].
        split; [split; discriminate | right; reflexivity].
    + split; [split; discriminate | right; reflexivity].
Qed.

(** ** The OAuth routes of server-final.js *)

Section FinalRoutes.
Import Js Express.

(** The token endpoint of server-final.js is that of server-sse-oauth.js,
    which destructures one more field that it only logs. *)
Lemma final_token_agrees accessToken now grant_type code client_id
    (tokens : gmap string SseOAuth.Entry) :
  FinalOAuth.token accessToken now grant_type code tokens
  = SseOAuth.token accessToken now
      {| SseOAuth.grant_type := grant_type; SseOAuth.code := code;
         SseOAuth.b_client_id := client_id |} tokens.
Proof. reflexivity. Qed.

End FinalRoutes.

(** X11.  In server-final.js an exchange answered with status 200 leaves
    the code out of tokens, and every later exchange of that code is answered
    with 400 invalid_grant, the store unchanged. *)
Theorem final_code_single_use :
  forall accessToken now code (tokens tokens' : gmap string SseOAuth.Entry) resp,
    FinalOAuth.token accessToken now (Some "authorization_code"%string) (Some code) tokens
    = (resp, tokens') ->
    Express.status_of resp = 200%Z ->
    tokens' !! code = None
    /\ forall accessToken2 now2,
         FinalOAuth.token accessToken2 now2 (Some "authorization_code"%string)
           (Some code) tokens'
         = (Express.Json 400 (Express.ErrorBody "invalid_grant" None), tokens').
Proof.
  intros accessToken now code tokens tokens' resp Hrun Hok.
  rewrite (final_token_agrees _ _ _ _ None) in Hrun.
  set (b := {| SseOAuth.grant_type := Some "authorization_code"%string;
               SseOAuth.code := Some code; SseOAuth.b_client_id := None |}) in *.
  assert (Hgone : tokens' !! code = None)
    by exact (simple_token_success_deletes accessToken now b tokens tokens' code resp
                eq_refl eq_refl Hrun Hok).
  split; [exact Hgone|].
  intros accessToken2 now2. rewrite (final_token_agrees _ _ _ _ None).
  exact (simple_token_unknown_code accessToken2 now2 b tokens' code eq_refl eq_refl Hgone).
Qed.

Lemma final_code_single_use_witness :
  let tokens1 :=
    snd (FinalOAuth.authorize (U := SimpleUrl.api) "code-1" 0 None Scenario.callback
           None (Some "xyz"%string) ∅) in
  let first :=
    FinalOAuth.token "token-1" 1000 (Some "authorization_code"%string)
      (Some "code-1"%string) tokens1 in
  fst first = Express.Json 200 (Express.TokenBody "token-1" "Bearer" 3600 "read")
  /\ fst (FinalOAuth.token "token-2" 2000 (Some "authorization_code"%string)
            (Some "code-1"%string) (snd first))
     = Express.Json 400 (Express.ErrorBody "invalid_grant" None).
Proof.
  intros tokens1 first.
  assert (Hfirst : first = (fst first, snd first)) by (destruct first; reflexivity).
  destruct (final_code_single_use "token-1"%string 1000%Z "code-1"%string tokens1
              (snd first) (fst first) Hfirst) as [_ Hagain].
  { vm_compute. reflexivity. }
  split; [vm_compute; reflexivity|].
  rewrite (Hagain "token-2"%string 2000%Z). reflexivity.
Defined.

(** X12.  In server-sse-oauth.js and server-final.js the code is stored
    before the redirect_uri is parsed: when the URL constructor rejects the
    redirect_uri the request fails with the uncaught TypeError, and the code
    that no caller has received is in tokens all the same, where an exchange
    that names it succeeds. *)
Theorem unparsable_redirect_leaves_code :
  forall (U : UrlApi) code now accessToken t,
    (forall q (tokens : gmap string SseOAuth.Entry),
        URL_new (Js.to_string (SseOAuth.q_redirect_uri q)) = None ->
        let r := SseOAuth.authorize code now q tokens in
        Express.status_of (fst r) = 500%Z
        /\ Express.status_of
             (fst (SseOAuth.token accessToken t
                     {| SseOAuth.grant_type := Some "authorization_code"%string;
                        SseOAuth.code := Some code;
                        SseOAuth.b_client_id := None |} (snd r))) = 200%Z)
    /\
    (forall client_id redirect_uri scope state (tokens : gmap string SseOAuth.Entry),
        URL_new (Js.to_string redirect_uri) = None ->
        let r := FinalOAuth.authorize code now client_id redirect_uri scope state tokens in
        Express.status_of (fst r) = 500%Z
        /\ Express.status_of
             (fst (FinalOAuth.token accessToken t (Some "authorization_code"%string)
                     (Some code) (snd r))) = 200%Z).
Proof.
  intros U code now accessToken t. split.
  - intros q tokens Hbad r. unfold r, SseOAuth.authorize. rewrite Hbad. simpl.
    split; [reflexivity|].
    unfold SseOAuth.token. simpl. rewrite lookup_insert_eq. reflexivity.
  - intros client_id redirect_uri scope state tokens Hbad r.
    unfold r, FinalOAuth.authorize. rewrite Hbad. simpl.
    split; [reflexivity|].
    unfold FinalOAuth.token. simpl. rewrite lookup_insert_eq. reflexivity.
Qed.

Lemma unparsable_redirect_leaves_code_witness :
  let r := SseOAuth.authorize (U := SimpleUrl.api) "code-1" 0
             (Scenario.simple_query (Some "not-a-url"%string)) ∅ in
  let r' := FinalOAuth.authorize (U := SimpleUrl.api) "code-1" 0 None None None None ∅ in
  (Express.status_of (fst r) = 500%Z
   /\ Express.status_of
        (fst (SseOAuth.token "token-1" 1000 (Scenario.simple_exchange "code-1") (snd r)))
      = 200%Z)
  /\
  (Express.status_of (fst r') = 500%Z
   /\ Express.status_of
        (fst (FinalOAuth.token "token-1" 1000 (Some "authorization_code"%string)
                (Some "code-1"%string) (snd r')))
      = 200%Z).
Proof.
  intros r r'.
  destruct (unparsable_redirect_leaves_code SimpleUrl.api "code-1"%string 0%Z
              "token-1"%string 1000%Z) as [Hsimple Hfinal].
  split.
  - exact (Hsimple (Scenario.simple_query (Some "not-a-url"%string)) ∅ eq_refl).
  - exact (Hfinal None None None None ∅ eq_refl).
Defined.

(** ** The registries, over time *)

Section RegistryInvariants.
Import Js Registry RegistryInvariant.

(** An id that [get] does not find has no entry. *)
Lemma get_Undefined (o : gmap string Transport) key :
  get o key = Undefined -> o !! key = None.
Proof. unfold get. destruct (o !! key); [discriminate | reflexivity]. Qed.

(** Storing the next transport under an id keeps the stored transports
    created and distinct. *)
Lemma distinct_insert st sessionId :
  distinct st ->
  distinct {| transports := <[sessionId := created st]> (transports st);
              created := S (created st) |}.
Proof.
  intros [Hbound Hinj]. split; simpl.
  - intros sid t Hlookup. apply lookup_insert_Some in Hlookup as [[_ <-]|[_ Hold]].
    + lia.
    + specialize (Hbound _ _ Hold). lia.
  - intros sid sid' t H1 H2.
    apply lookup_insert_Some in H1 as [[<- <-]|[Hne1 Hold1]];
      apply lookup_insert_Some in H2 as [[<- Heq]|[Hne2 Hold2]].
    + reflexivity.
    + specialize (Hbound _ _ Hold2). lia.
    + subst t. specialize (Hbound _ _ Hold1). lia.
    + exact (Hinj _ _ _ Hold1 Hold2).
Qed.

Lemma http_step_distinct uuid header st :
  distinct st /\ size (transports st) = created st ->
  distinct (snd (ServerHttp.mcp uuid header st))
  /\ size (transports (snd (ServerHttp.mcp uuid header st)))
     = created (snd (ServerHttp.mcp uuid header st)).
Proof.
  intros [Hdistinct Hsize]. unfold ServerHttp.mcp.
  destruct (get (transports st) (or_else header uuid)) eqn:Hget; simpl;
    [split; assumption | split; assumption |].
  split; [apply distinct_insert, Hdistinct|].
  rewrite map_size_insert_None by exact (get_Undefined _ _ Hget). congruence.
Qed.

Lemma http_step_keeps uuid header st sessionId t :
  transports st !! sessionId = Some t ->
  transports (snd (ServerHttp.mcp uuid header st)) !! sessionId = Some t.
Proof.
  intros Hstored. unfold ServerHttp.mcp.
  destruct (get (transports st) (or_else header uuid)) eqn:Hget; simpl; try exact Hstored.
  rewrite lookup_insert_ne; [exact Hstored|].
  intros <-. rewrite (get_Undefined _ _ Hget) in Hstored. discriminate.
Qed.

Lemma sse_step_distinct e st :
  distinct st -> distinct (SseEvents.step e st).
Proof.
  intros Hdistinct. destruct e as [sessionId|sessionId]; simpl.
  - unfold set. destruct (decide _); [|apply distinct_insert, Hdistinct].
    destruct Hdistinct as [Hbound Hinj]. split; simpl.
    + intros sid t Hlookup. specialize (Hbound _ _ Hlookup). lia.
    + exact Hinj.
  - destruct Hdistinct as [Hbound Hinj]. split; simpl.
    + intros sid t Hlookup. apply lookup_delete_Some in Hlookup as [_ Hold].
      exact (Hbound _ _ Hold).
    + intros sid sid' t H1 H2.
      apply lookup_delete_Some in H1 as [_ H1]. apply lookup_delete_Some in H2 as [_ H2].
      exact (Hinj _ _ _ H1 H2).
Qed.

Lemma init_distinct : distinct init.
Proof. split; simpl; intros *; rewrite lookup_empty; discriminate. Qed.

End RegistryInvariants.

(** X13.  In server-http.js, after any sequence of requests to /mcp on the
    empty registry, every registered transport is one that was created, no
    transport is registered under two session ids, and the registry holds as
    many entries as transports were created. *)
Theorem http_sessions_have_their_own_transport :
  forall trace,
    RegistryInvariant.distinct (Opens.http trace Registry.init)
    /\ size (Registry.transports (Opens.http trace Registry.init))
       = Registry.created (Opens.http trace Registry.init).
Proof.
  intros trace.
  assert (Hall : forall st,
    RegistryInvariant.distinct st /\ size (Registry.transports st) = Registry.created st ->
    RegistryInvariant.distinct (Opens.http trace st)
    /\ size (Registry.transports (Opens.http trace st))
       = Registry.created (Opens.http trace st)).
  { induction trace as [|[uuid header] rest IH]; intros st Hst; simpl; [exact Hst|].
    apply IH, http_step_distinct, Hst. }
  apply Hall. split; [exact init_distinct | reflexivity].
Qed.

(** X14.  server-http.js never removes a session: an id that is registered
    stays registered, with the same transport, through any sequence of
    requests to /mcp, and a later request that carries the id is handed that
    transport. *)
Theorem http_session_never_removed :
  forall trace st sessionId t,
    Registry.transports st !! sessionId = Some t ->
    Registry.transports (Opens.http trace st) !! sessionId = Some t
    /\ forall uuid,
         Js.truthy (Some sessionId) = true ->
         fst (ServerHttp.mcp uuid (Some sessionId) (Opens.http trace st))
         = ServerHttp.Handled sessionId t.
Proof.
  intros trace st sessionId t Hstored.
  assert (Hkept : Registry.transports (Opens.http trace st) !! sessionId = Some t).
  { revert st Hstored. induction trace as [|[uuid header] rest IH]; intros st Hstored; simpl.
    - exact Hstored.
    - apply IH, http_step_keeps, Hstored. }
  split; [exact Hkept|].
  intros uuid Htruthy. unfold ServerHttp.mcp, Js.or_else. rewrite Htruthy.
  unfold Registry.get. rewrite Hkept. reflexivity.
Qed.

Lemma http_session_never_removed_witness :
  let st := snd (ServerHttp.mcp "uuid-1" (Some "session-1"%string) Registry.init) in
  let later := Opens.http [ ("uuid-2"%string, None); ("uuid-3"%string, Some "session-3"%string) ] st in
  Registry.transports later !! "session-1"%string = Some 0
  /\ fst (ServerHttp.mcp "uuid-4" (Some "session-1"%string) later)
     = ServerHttp.Handled "session-1" 0.
Proof.
  intros st later.
  destruct (http_session_never_removed
              [ ("uuid-2"%string, None); ("uuid-3"%string, Some "session-3"%string) ]
              st "session-1"%string 0 eq_refl) as [Hkept Hhanded].
  split; [exact Hkept | exact (Hhanded "uuid-4"%string eq_refl)].
Defined.

(** X15.  In the SSE server of part_000, after any sequence of stream opens
    and stream closes on the empty registry, every registered transport is
    one that was created and no transport is registered under two session
    ids. *)
Theorem sse_sessions_have_their_own_transport :
  forall trace, RegistryInvariant.distinct (SseEvents.run trace Registry.init).
Proof.
  intros trace.
  assert (Hall : forall st, RegistryInvariant.distinct st ->
                            RegistryInvariant.distinct (SseEvents.run trace st)).
  { induction trace as [|e rest IH]; intros st Hst; simpl; [exact Hst|].
    apply IH, sse_step_distinct, Hst. }
  apply Hall, init_distinct.
Qed.

(** X16.  In the SSE server of part_000: a command posted with the id of a
    stream that has just been opened is delivered to the transport of that
    stream; once the stream has closed the command is answered with 400;
    closing twice is closing once; and opening or closing one id changes
    nothing for a command posted with another id. *)
Theorem sse_open_post_close :
  forall sessionId st,
    sessionId <> "__proto__"%string ->
    let opened := ServerSse.sse sessionId st in
    ServerSse.messages (Some sessionId) (snd opened) = ServerSse.Delivered (fst opened)
    /\ ServerSse.messages (Some sessionId) (ServerSse.close sessionId (snd opened))
       = ServerSse.Answered (Express.Send 400 "No transport found for sessionId")
    /\ ServerSse.close sessionId (ServerSse.close sessionId st) = ServerSse.close sessionId st
    /\ forall other,
         other <> sessionId ->
         ServerSse.messages (Some other) (snd opened) = ServerSse.messages (Some other) st
         /\ ServerSse.messages (Some other) (ServerSse.close sessionId st)
            = ServerSse.messages (Some other) st.
Proof.
  intros sessionId st Hne opened.
  unfold opened, ServerSse.sse, ServerSse.messages, ServerSse.close, Registry.set,
    Registry.get; simpl.
  destruct (decide _) as [Heq|_]; [contradiction|].
  split; [rewrite lookup_insert_eq; reflexivity|].
  split; [rewrite lookup_delete_eq; destruct (bool_decide _); reflexivity|].
  split; [rewrite delete_delete_eq; reflexivity|].
  intros other Hother. split.
  - rewrite lookup_insert_ne by congruence. reflexivity.
  - rewrite lookup_delete_ne by congruence. reflexivity.
Qed.

Lemma sse_open_post_close_witness :
  let opened := ServerSse.sse "session-1" Registry.init in
  ServerSse.messages (Some "session-1"%string) (snd opened) = ServerSse.Delivered 0
  /\ ServerSse.messages (Some "session-1"%string) (ServerSse.close "session-1" (snd opened))
     = ServerSse.Answered (Express.Send 400 "No transport found for sessionId").
Proof.
  intros opened.
  assert (Hne : "session-1"%string <> "__proto__"%string) by discriminate.
  destruct (sse_open_post_close "session-1"%string Registry.init Hne) as (Hpost & Hclosed & _).
  split; [exact Hpost | exact Hclosed].
Defined.

(** X17.  Behind requireAuth, the /mcp routes of part_002 never change the
    credential Maps; a request that the gate refuses is answered with 401
    invalid_token and changes nothing at all; and the registry changes only
    for a request whose header is Bearer, a space and a stored, unexpired
    access token. *)
Theorem protected_mcp_needs_a_token :
  forall now authHeader uuid header st,
    let r := ProtectedMcp.mcp now authHeader uuid header st in
    ProtectedMcp.oauth (snd r) = ProtectedMcp.oauth st
    /\
    (forall answer,
        fst r = ProtectedMcp.Refused answer ->
        answer = Express.Json 401 (Express.ErrorBody "invalid_token" None)
        /\ snd r = st)
    /\
    (ProtectedMcp.registry (snd r) <> ProtectedMcp.registry st ->
     exists token tokenData,
       authHeader = Some ("Bearer " +:+ token)
       /\ OAuth.accessTokens (ProtectedMcp.oauth st) !! token = Some tokenData
       /\ (now <= OAuth.token_expires_at tokenData)%Z).
Proof.
  intros now authHeader uuid header [credentials sessions] r.
  unfold r, ProtectedMcp.mcp. simpl.
  pose proof (requireAuth_state now authHeader credentials) as Hsame.
  pose proof (requireAuth_next_iff now authHeader credentials) as Hexact.
  pose proof (requireAuth_cases now authHeader credentials) as Hcases.
  destruct (OAuth.requireAuth now authHeader credentials) as [[answer|tokenData] credentials'].
  - simpl in *. subst credentials'.
    split; [reflexivity|]. split.
    + intros answer' Hrefused. inversion Hrefused. subst answer'.
      destruct Hcases as [[td Hnext]|Hreject]; [discriminate Hnext|].
      inversion Hreject. split; reflexivity.
    + intros Hchanged. now destruct Hchanged.
  - simpl in *. subst credentials'.
    split; [reflexivity|]. split; [discriminate|].
    intros _. destruct (proj1 (Hexact tokenData) eq_refl) as (token & Hheader & Hstored & Hlive).
    eauto.
Qed.

(** ** The tools that are listed and the tools that are handled *)

Section ListedTools.
Import Js Tools.

Lemma eqb_other (a b : string) : a <> b -> String.eqb a b = false.
Proof. apply String.eqb_neq. Qed.

End ListedTools.

(** X18.  In server-http.js and part_002 the tools that tools/list
    announces are the tools that tools/call handles: a call of a listed tool
    whose arguments hold a string under the required property of its schema
    returns the parsed reply, printed with an indentation of two, whatever
    the status of the reply and whatever the string (the enum of timeWindow
    is not enforced); a call of any other name throws Tool execution failed:
    Unknown tool: and the name. *)
Theorem http_tools_as_listed :
  forall apiKey,
    Js.truthy apiKey = true ->
    (forall tool value status data,
        tool ∈ ToolList.http ->
        RawTools.callTool apiKey (ToolList.name tool)
          (Some (Tools.JObj [ (ToolList.property tool, Tools.JStr value) ]))
          (Tools.Responded status (Tools.Parsed data))
        = Tools.Ok (Tools.text_result (Tools.stringify_indented EmptyString data)))
    /\
    (forall name args reply,
        name ∉ ToolList.names ToolList.http ->
        RawTools.callTool apiKey name args reply
        = Tools.Throw ("Tool execution failed: Unknown tool: " +:+ name)).
Proof.
  intros apiKey Hkey. split.
  - intros tool value status data Hin. unfold RawTools.callTool. rewrite Hkey.
    unfold ToolList.http in Hin.
    repeat (apply elem_of_cons in Hin as [->|Hin]; [reflexivity|]).
    inversion Hin.
  - intros name args reply Hout. unfold ToolList.names in Hout. simpl in Hout.
    repeat (apply not_elem_of_cons in Hout as [? Hout]).
    unfold RawTools.callTool, RawTools.dispatch. rewrite Hkey.
    rewrite !eqb_other by assumption. reflexivity.
Qed.

Lemma http_tools_as_listed_witness :
  let q := Tools.dquote in
  let key := fun indent name : string => indent +:+ q +:+ name +:+ q +:+ ": " in
  RawTools.callTool (Some "key"%string) "get_trending"
    (Some (Tools.JObj [ ("timeWindow"%string, Tools.JStr "month") ]))
    (Tools.Responded 200 (Tools.Parsed ToolScenario.rated_page))
  = Tools.Ok
      {| Tools.content :=
           [ {| Tools.type := "text";
                Tools.text :=
                  String.concat Tools.newline
                    [ "{"%string;
                      key "  " "page" +:+ "1,";
                      key "  " "results" +:+ "[";
                      "    {"%string;
                      key "      " "adult" +:+ "false,";
                      key "      " "backdrop_path" +:+ "null,";
                      key "      " "genre_ids" +:+ "[";
                      "        18,"%string;
                      "        53"%string;
                      "      ],"%string;
                      key "      " "id" +:+ "550,";
                      key "      " "title" +:+ q +:+ "Fight Club" +:+ q +:+ ",";
                      key "      " "popularity" +:+ "61.416,";
                      key "      " "vote_average" +:+ "8.433";
                      "    }"%string;
                      "  ],"%string;
                      key "  " "total_pages" +:+ "1,";
                      key "  " "warnings" +:+ "[]";
                      "}"%string ] |} ];
         Tools.isError := false |}
  /\
  RawTools.callTool (Some "key"%string) "search_movies" ToolScenario.search_args
    (Tools.Responded 200 (Tools.Parsed ToolScenario.one_record))
  = Tools.Throw "Tool execution failed: Unknown tool: search_movies".
Proof.
  intros q key.
  destruct (http_tools_as_listed (Some "key"%string) eq_refl) as [Hlisted Hother].
  split.
  - etransitivity.
    + refine (Hlisted {| ToolList.name := "get_trending";
                         ToolList.description :=
                           "Get trending movies for a specified time window";
                         ToolList.property := "timeWindow";
                         ToolList.property_description := _;
                         ToolList.enum := Some [ "day"%string; "week"%string ] |}
                      "month"%string 200%Z ToolScenario.rated_page _).
      unfold ToolList.http. do 3 (apply elem_of_cons; right).
      apply elem_of_cons. left. reflexivity.
    + vm_compute. reflexivity.
  - apply Hother. unfold ToolList.names. simpl.
    repeat (apply not_elem_of_cons; split; [discriminate|]). apply not_elem_of_nil.
Defined.

(** X19.  In server-chatgpt.js (first file) the tools that tools/list
    announces are the tools that tools/call handles: a call of search or
    fetch whose arguments hold a string under the required property returns
    the parsed reply without the error flag; a call of any other name
    returns a result with isError true and the text Error: Unknown tool: and
    the name. *)
Theorem chatgpt_tools_as_listed :
  (forall tool value status data,
      tool ∈ ToolList.chatgpt ->
      Tools.Chatgpt.callTool (ToolList.name tool)
        (Some (Tools.JObj [ (ToolList.property tool, Tools.JStr value) ]))
        (Tools.Responded status (Tools.Parsed data))
      = Tools.Ok (Tools.text_result (Tools.stringify_indented EmptyString data)))
  /\
  (forall name args reply,
      name ∉ ToolList.names ToolList.chatgpt ->
      Tools.Chatgpt.callTool name args reply
      = Tools.Ok {| Tools.content :=
                      [ {| Tools.type := "text";
                           Tools.text := "Error: Unknown tool: " +:+ name |} ];
                    Tools.isError := true |}).
Proof.
  split.
  - intros tool value status data Hin. unfold ToolList.chatgpt in Hin.
    repeat (apply elem_of_cons in Hin as [->|Hin]; [reflexivity|]).
    inversion Hin.
  - intros name args reply Hout. unfold ToolList.names in Hout. simpl in Hout.
    repeat (apply not_elem_of_cons in Hout as [? Hout]).
    unfold Tools.Chatgpt.callTool, Tools.Chatgpt.dispatch.
    rewrite !eqb_other by assumption. reflexivity.
Qed.

Lemma chatgpt_tools_as_listed_witness :
  let q := Tools.dquote in
  let key := fun indent name : string => indent +:+ q +:+ name +:+ q +:+ ": " in
  Tools.Chatgpt.callTool "fetch" ToolScenario.fetch_args
    (Tools.Responded 200 (Tools.Parsed ToolScenario.details))
  = Tools.Ok
      {| Tools.content :=
           [ {| Tools.type := "text";
                Tools.text :=
                  String.concat Tools.newline
                    [ "{"%string;
                      key "  " "id" +:+ "550,";
                      key "  " "title" +:+ q +:+ "Fight Club" +:+ q +:+ ",";
                      key "  " "tagline" +:+ q +:+ "Mischief." +:+ Tools.backslash
                        +:+ "nMayhem." +:+ q +:+ ",";
                      key "  " "vote_average" +:+ "8.433,";
                      key "  " "genres" +:+ "[";
                      "    {"%string;
                      key "      " "id" +:+ "18,";
                      key "      " "name" +:+ q +:+ "Drama" +:+ q;
                      "    }"%string;
                      "  ],"%string;
                      key "  " "belongs_to_collection" +:+ "null,";
                      key "  " "production_companies" +:+ "[]";
                      "}"%string ] |} ];
         Tools.isError := false |}
  /\
  Tools.Chatgpt.callTool "get_trending" None (Tools.NetworkError "unreachable")
  = Tools.Ok {| Tools.content :=
                  [ {| Tools.type := "text";
                       Tools.text := "Error: Unknown tool: get_trending" |} ];
                Tools.isError := true |}.
Proof.
  intros q key.
  destruct chatgpt_tools_as_listed as [Hlisted Hother].
  split.
  - etransitivity.
    + refine (Hlisted {| ToolList.name := "fetch";
                         ToolList.description := "Fetch detailed movie information by ID";
                         ToolList.property := "id";
                         ToolList.property_description := "TMDB movie ID";
                         ToolList.enum := None |}
                      "550"%string 200%Z ToolScenario.details _).
      unfold ToolList.chatgpt. apply elem_of_cons. right. apply elem_of_cons. left.
      reflexivity.
    + vm_compute. reflexivity.
  - apply Hother. unfold ToolList.names. simpl.
    repeat (apply not_elem_of_cons; split; [discriminate|]). apply not_elem_of_nil.
Defined.

(** ** More on the formatted search *)

Section SearchEntries.
Import Js Tools.

(** Where toString() returns, the template literal prints the same text. *)
Lemma call_toString_template callee value s :
  call_toString callee value = Ok s -> template value = Ok s.
Proof.
  destruct value as [[| | | | |fields]|]; simpl; try discriminate; try (intros H; exact H).
  destruct (get_own "toString" fields); [discriminate | intros H; exact H].
Qed.

(** The url of an entry is built from the id of the entry. *)
Lemma search_entry_url movie entry :
  search_entry movie = Ok entry ->
  url entry = "https://www.themoviedb.org/movie/" +:+ id entry.
Proof.
  unfold search_entry.
  destruct (get (Some movie) "id") as [movie_id|m]; [|discriminate]. rewrite bind_ok.
  destruct (call_toString "movie.id" movie_id) as [s|m] eqn:Hid; [|discriminate].
  rewrite bind_ok, (call_toString_template _ _ _ Hid).
  destruct (get (Some movie) "title") as [movie_title|m]; [|discriminate]. rewrite bind_ok.
  destruct (template movie_title) as [t|m]; [|discriminate]. rewrite bind_ok.
  destruct (get (Some movie) "release_date") as [release_date|m]; [|discriminate].
  rewrite bind_ok.
  destruct (release_year release_date) as [y|m]; [|discriminate].
  rewrite !bind_ok. intros Hentry. inversion Hentry. reflexivity.
Qed.

(** The entries are those of the records, in their order. *)
Lemma map_entries_Forall2 movies entries :
  map_entries movies = Ok entries ->
  Forall2 (fun movie entry => search_entry movie = Ok entry) movies entries.
Proof.
  revert entries. induction movies as [|movie rest IH]; simpl; intros entries Hmap.
  - inversion Hmap. constructor.
  - destruct (search_entry movie) as [entry|m] eqn:Hentry; [|discriminate Hmap].
    rewrite bind_ok in Hmap.
    destruct (map_entries rest) as [entries'|m]; [|discriminate Hmap].
    rewrite bind_ok in Hmap. inversion Hmap. constructor; [exact Hentry|]. apply IH. reflexivity.
Qed.

(** One record that fails makes the whole list fail. *)
Lemma map_entries_throws movies movie message :
  movie ∈ movies ->
  search_entry movie = Throw message ->
  exists m, map_entries movies = Throw m.
Proof.
  induction movies as [|first rest IH]; intros Hin Hfails; [inversion Hin|].
  simpl. apply elem_of_cons in Hin as [<-|Hin].
  - rewrite Hfails. rewrite bind_throw. eauto.
  - destruct (search_entry first) as [entry|m]; [|rewrite bind_throw; eauto].
    rewrite bind_ok. destruct (IH Hin Hfails) as [m ->]. rewrite bind_throw. eauto.
Qed.

Lemma search_results_array top movies :
  get_own "results" top = Some (JArr movies) ->
  search_results (JObj top) = map_entries (firstn 10 movies).
Proof. intros Hresults. unfold search_results, get. rewrite bind_ok, Hresults. reflexivity. Qed.

End SearchEntries.

(** X20.  The formatted search (server-final.js, server-sse-oauth.js,
    part_000) answers a reply that has no results, or whose results is null,
    with the empty list: the text is the JSON of an object whose results is
    the empty array, whatever the status of the reply, for the handler of
    server-final.js as for the search tool of part_000. *)
Theorem search_without_results_is_empty :
  forall fetch_document key_required failed_prefix apiKey query status top,
    Js.truthy apiKey = true ->
    Tools.get_own "results" top = None \/ Tools.get_own "results" top = Some Tools.JNull ->
    let reply := Tools.Responded status (Tools.Parsed (Tools.JObj top)) in
    let empty := Tools.text_result ("{" +:+ Tools.quote "results" +:+ ":[]}") in
    Tools.callTool fetch_document key_required failed_prefix apiKey "search"
      (Some (Tools.JObj [ ("query"%string, Tools.JStr query) ])) reply
    = Tools.Ok empty
    /\ McpTools.search apiKey query reply = Tools.Ok empty.
Proof.
  intros fetch_document key_required failed_prefix apiKey query status top Hkey Hnone
         reply empty.
  assert (Hempty : Tools.search_results (Tools.JObj top) = Tools.Ok []).
  { unfold Tools.search_results, Tools.get. rewrite bind_ok.
    destruct Hnone as [-> | ->]; reflexivity. }
  unfold Tools.callTool, McpTools.search, Tools.dispatch. rewrite Hkey. simpl.
  rewrite Hempty. split; reflexivity.
Qed.

Lemma search_without_results_is_empty_witness :
  Tools.Final_callTool ToolScenario.no_document (Some "key"%string) "search"
    ToolScenario.search_args (Tools.Responded 401 (Tools.Parsed ToolScenario.not_found))
  = Tools.Ok (Tools.text_result ("{" +:+ Tools.quote "results" +:+ ":[]}")).
Proof.
  exact (proj1 (search_without_results_is_empty ToolScenario.no_document
                  "TMDB_API_KEY required"%string "Tool failed: "%string
                  (Some "key"%string) "fight club"%string 401%Z
                  [ ("success"%string, Tools.JBool false);
                    ("status_code"%string, Tools.JNum 34);
                    ("status_message"%string,
                     Tools.JStr "The resource you requested could not be found.") ]
                  eq_refl (or_introl eq_refl))).
Defined.

(** X21.  When the formatted search returns for a reply whose results is
    an array, there is one entry for each of the first ten records, in the
    order of the records, each the entry of its record, and the url of every
    entry is https://www.themoviedb.org/movie/ followed by the id of that
    entry. *)
Theorem search_entries_follow_records :
  forall top movies entries,
    Tools.get_own "results" top = Some (Tools.JArr movies) ->
    Tools.search_results (Tools.JObj top) = Tools.Ok entries ->
    Forall2 (fun movie entry => Tools.search_entry movie = Tools.Ok entry)
            (firstn 10 movies) entries
    /\ length entries = Nat.min 10 (length movies)
    /\ Forall (fun entry =>
                 Tools.url entry = "https://www.themoviedb.org/movie/" +:+ Tools.id entry)
              entries.
Proof.
  intros top movies entries Hresults Hsearch.
  rewrite (search_results_array _ _ Hresults) in Hsearch.
  pose proof (map_entries_Forall2 _ _ Hsearch) as Hpairs.
  split; [exact Hpairs|]. split.
  - rewrite (map_entries_length _ _ Hsearch), length_firstn. reflexivity.
  - clear Hsearch. induction Hpairs as [|movie entry ms es Hentry _ IH]; constructor.
    + exact (search_entry_url _ _ Hentry).
    + exact IH.
Qed.

Lemma search_entries_follow_records_witness :
  exists entries,
    Tools.search_results ToolScenario.one_record = Tools.Ok entries
    /\ length entries = 1
    /\ Forall (fun entry =>
                 Tools.url entry = "https://www.themoviedb.org/movie/" +:+ Tools.id entry)
              entries.
Proof.
  eexists. split; [reflexivity|].
  destruct (search_entries_follow_records
              [ ("page"%string, Tools.JNum 1);
                ("results"%string, Tools.JArr [ToolScenario.fight_club]);
                ("total_results"%string, Tools.JNum 1) ]
              [ToolScenario.fight_club] _ eq_refl eq_refl) as (_ & Hlength & Hurls).
  split; [exact Hlength | exact Hurls].
Defined.

(** X22.  The formatted search looks at the first ten records only: the
    records after the tenth, well-formed or not, change nothing; and a
    record among the first ten for which the entry cannot be built (a null
    record, a record without id) makes the whole search throw. *)
Theorem search_reads_first_ten_only :
  (forall first rest rest',
      length first = 10 ->
      Tools.search_results (Tools.JObj [ ("results"%string, Tools.JArr (first ++ rest)) ])
      = Tools.search_results (Tools.JObj [ ("results"%string, Tools.JArr (first ++ rest')) ]))
  /\
  (forall top movies movie message,
      Tools.get_own "results" top = Some (Tools.JArr movies) ->
      movie ∈ firstn 10 movies ->
      Tools.search_entry movie = Tools.Throw message ->
      exists m, Tools.search_results (Tools.JObj top) = Tools.Throw m).
Proof.
  split.
  - intros first rest rest' Hten.
    rewrite (search_results_array [ ("results"%string, Tools.JArr (first ++ rest)) ]
               (first ++ rest) eq_refl).
    rewrite (search_results_array [ ("results"%string, Tools.JArr (first ++ rest')) ]
               (first ++ rest') eq_refl).
    rewrite !firstn_app, Hten, Nat.sub_diag. simpl. reflexivity.
  - intros top movies movie message Hresults Hin Hfails.
    rewrite (search_results_array _ _ Hresults).
    exact (map_entries_throws _ _ _ Hin Hfails).
Qed.

Lemma search_reads_first_ten_only_witness :
  Tools.search_results
    (Tools.JObj [ ("results"%string,
                   Tools.JArr (repeat ToolScenario.fight_club 10 ++ [Tools.JNull])) ])
  = Tools.search_results
      (Tools.JObj [ ("results"%string,
                     Tools.JArr (repeat ToolScenario.fight_club 10 ++ [])) ])
  /\
  exists m,
    Tools.search_results
      (Tools.JObj [ ("results"%string, Tools.JArr [ToolScenario.fight_club; Tools.JNull]) ])
    = Tools.Throw m.
Proof.
  destruct search_reads_first_ten_only as [Hten Hfails].
  split.
  - exact (Hten (repeat ToolScenario.fight_club 10) [Tools.JNull] [] eq_refl).
  - refine (Hfails [ ("results"%string, Tools.JArr [ToolScenario.fight_club; Tools.JNull]) ]
                   [ToolScenario.fight_club; Tools.JNull] Tools.JNull
                   "Cannot read properties of null (reading 'id')"%string eq_refl _ eq_refl).
    simpl. apply elem_of_cons. right. apply elem_of_cons. left. reflexivity.
Defined.

(** ** The length of a challenge *)

Section ChallengeLength.
Import Sha256.

Lemma compress_length h block : length (compress h block) = 8.
Proof. reflexivity. Qed.

Lemma blocks_length n : forall h bytes, length h = 8 -> length (blocks n h bytes) = 8.
Proof.
  induction n as [|n IH]; intros h bytes Hh; simpl; [exact Hh|].
  apply IH, compress_length.
Qed.

Lemma digest_length msg : length (digest msg) = 32.
Proof.
  unfold digest.
  pose proof (blocks_length (Nat.div (length (pad msg)) 64) H0 (pad msg) eq_refl) as Hh.
  destruct (blocks _ H0 (pad msg)) as [|a [|b [|c [|d [|e [|f [|g [|h [|i rest]]]]]]]]];
    try discriminate Hh.
  reflexivity.
Qed.

Lemma base64url_of_32 bytes : length bytes = 32 -> String.length (base64url bytes) = 43.
Proof.
  intros Hlen.
  do 32 (destruct bytes as [|? bytes]; [discriminate Hlen|]).
  destruct bytes; [reflexivity | discriminate Hlen].
Qed.

(** The S256 challenge of any verifier has 43 characters. *)
Lemma sha256_base64url_length verifier :
  String.length (sha256_base64url verifier) = 43.
Proof. apply base64url_of_32, digest_length. Qed.

End ChallengeLength.

(** X23.  The token endpoint of part_002 always compares the stored
    challenge with the S256 digest of the verifier, which has 43 characters,
    whatever code_challenge_method was stored: a code whose challenge is not
    empty and does not have 43 characters (a challenge of the plain method,
    a padded challenge) is refused with invalid_grant for every non-empty
    verifier. *)
Theorem challenge_of_other_length_never_matches :
  forall accessToken now b st c authData challenge verifier,
    OAuth.grant_type b = Some "authorization_code"%string ->
    OAuth.code b = Some c ->
    OAuth.authorizationCodes st !! c = Some authData ->
    OAuth.code_challenge authData = Some challenge ->
    challenge <> EmptyString ->
    String.length challenge <> 43 ->
    OAuth.code_verifier b = Some verifier ->
    verifier <> EmptyString ->
    exists details,
      OAuth.token accessToken now b st = (OAuth.invalid_grant details, st).
Proof.
  intros accessToken now b st c authData challenge verifier
         Hgrant Hcode Hstored Hch Hne Hlen Hv Hvne.
  rewrite (token_authorization_code _ _ _ _ c Hgrant Hcode), Hstored.
  destruct (OAuth.code_expires_at authData <? now)%Z; [eauto|].
  rewrite Hv, (pkce_compared _ _ _ Hch Hne Hvne).
  assert (Hdiff : Sha256.sha256_base64url verifier <> challenge).
  { intros Heq. apply Hlen. rewrite <- Heq. apply sha256_base64url_length. }
  apply String.eqb_neq in Hdiff. rewrite Hdiff. simpl. eauto.
Qed.

Lemma challenge_of_other_length_never_matches_witness :
  let padded := "E9Melhoa2OwvFrEMTJguCHaoeK1t8URWbuGJSstw-cM="%string in
  let st := snd (Scenario.authorized (Some padded)) in
  exists details,
    OAuth.token "token-1" 1000 (Scenario.exchange "code-1" (Some Scenario.verifier)) st
    = (OAuth.invalid_grant details, st).
Proof.
  intros padded st.
  pose (authData := OAuth.issued 0 (Scenario.query Scenario.callback (Some padded))).
  assert (Hstored : OAuth.authorizationCodes st !! "code-1"%string = Some authData)
    by (vm_compute; reflexivity).
  refine (challenge_of_other_length_never_matches "token-1"%string 1000%Z
            (Scenario.exchange "code-1" (Some Scenario.verifier)) st "code-1"%string
            authData padded Scenario.verifier
            eq_refl eq_refl Hstored eq_refl _ _ eq_refl _);
    discriminate.
Defined.

(** ** The document of the fetch tool of server-final.js *)

Section FetchDocument.
Import Js Tools.

Lemma append_nonempty_l (a b : string) : a <> EmptyString -> a +:+ b <> EmptyString.
Proof. destruct a as [|c a']; [congruence|]. intros _. discriminate. Qed.

Lemma append_nonempty_r (a b : string) : b <> EmptyString -> a +:+ b <> EmptyString.
Proof. destruct a as [|c a']; [intros Hb; exact Hb|]. intros _. discriminate. Qed.

Lemma decimal_nonempty n : decimal n <> EmptyString.
Proof. unfold decimal. destruct (Z.to_int n) as [d|d]; destruct d; discriminate. Qed.

Lemma decimal_text_nonempty s t : decimal_text s t <> EmptyString.
Proof.
  unfold decimal_text.
  repeat match goal with |- context [if ?c then _ else _] => destruct c end.
  - apply append_nonempty_l, decimal_nonempty.
  - apply append_nonempty_r. discriminate.
  - discriminate.
  - apply append_nonempty_l, decimal_nonempty.
  - apply append_nonempty_r. discriminate.
Qed.

(** The text of a number is not empty. *)
Lemma number_toString_nonempty x : number_toString x <> EmptyString.
Proof.
  destruct x as [m e|[|]]; unfold number_toString; try discriminate.
  destruct (m =? 0)%Z; [discriminate|].
  destruct (round (Z.abs m) e) as [[f x]|]; [|destruct (m <? 0)%Z; discriminate].
  destruct (f =? 0)%Z; [discriminate|].
  apply append_nonempty_r. unfold positive_text.
  destruct (shortest _ _ _ _ _) as [s t]. destruct (strip _ _ _) as [s' t'].
  apply decimal_text_nonempty.
Qed.

Lemma number_toString_truthy x : truthy (Some (number_toString x)) = true.
Proof. apply truthy_nonempty, number_toString_nonempty. Qed.

End FetchDocument.

(** X24.  The fetch tool of server-final.js does not notice a reply that
    is not a movie: for a reply object that has none of the fields it reads
    (the body the collaborator sends with status 404, say) it returns, without
    the error flag, a document whose id is the id of the request, whose title
    is undefined (Unknown), whose url ends in undefined and whose metadata is
    empty. *)
Theorem fetch_of_reply_without_fields :
  forall apiKey id status top,
    Js.truthy apiKey = true ->
    (forall key,
        key ∈ [ "id"%string; "title"%string; "release_date"%string;
                "vote_average"%string; "overview"%string; "genres"%string;
                "runtime"%string; "credits"%string; "popularity"%string;
                "budget"%string; "revenue"%string ] ->
        Tools.get_own key top = None) ->
    FinalFetch.callTool apiKey "fetch"
      (Some (Tools.JObj [ ("id"%string, Tools.JStr id) ]))
      (Tools.Responded status (Tools.Parsed (Tools.JObj top)))
    = Tools.Ok (Tools.text_result (Tools.stringify (Tools.JObj
        [ ("id"%string, Tools.JStr id);
          ("title"%string, Tools.JStr "undefined (Unknown)");
          ("text"%string,
           Tools.JStr ("undefined" +:+ Tools.newline +:+ Tools.newline
                       +:+ "Release Date: undefined" +:+ Tools.newline
                       +:+ "Rating: undefined/10" +:+ Tools.newline +:+ Tools.newline
                       +:+ "Overview: undefined" +:+ Tools.newline +:+ Tools.newline
                       +:+ "Genres: undefined" +:+ Tools.newline
                       +:+ "Runtime: undefined minutes" +:+ Tools.newline
                       +:+ "Director: undefined" +:+ Tools.newline
                       +:+ "Main Cast: undefined"));
          ("url"%string, Tools.JStr "https://www.themoviedb.org/movie/undefined");
          ("metadata"%string, Tools.JObj []) ]))).
Proof.
  intros apiKey id status top Hkey Hnone.
  assert (Hget : forall key,
    key ∈ [ "id"%string; "title"%string; "release_date"%string;
            "vote_average"%string; "overview"%string; "genres"%string;
            "runtime"%string; "credits"%string; "popularity"%string;
            "budget"%string; "revenue"%string ] ->
    Tools.get (Some (Tools.JObj top)) key = Tools.Ok None).
  { intros key Hin. unfold Tools.get. rewrite (Hnone key Hin). reflexivity. }
  unfold FinalFetch.callTool, Tools.Final_callTool, Tools.callTool, Tools.dispatch.
  rewrite Hkey. cbn [negb String.eqb Ascii.eqb Bool.eqb].
  change (Tools.get (Some (Tools.JObj [ ("id"%string, Tools.JStr id) ])) "id")
    with (Tools.Ok (Some (Tools.JStr id)) : Tools.result (option Tools.json)).
  rewrite bind_ok. cbn [Tools.template Tools.to_string]. rewrite bind_ok.
  cbn [Tools.await_json]. rewrite bind_ok.
  unfold FinalFetch.fetch_document, FinalFetch.document.
  rewrite !Hget
    by (repeat (apply elem_of_cons; first [ left; reflexivity | right ])).
  reflexivity.
Qed.

Lemma fetch_of_reply_without_fields_witness :
  exists text,
    FinalFetch.callTool (Some "key"%string) "fetch" ToolScenario.fetch_args
      (Tools.Responded 404 (Tools.Parsed ToolScenario.not_found))
    = Tools.Ok (Tools.text_result text).
Proof.
  eexists.
  refine (fetch_of_reply_without_fields (Some "key"%string) "550"%string 404%Z
            [ ("success"%string, Tools.JBool false);
              ("status_code"%string, Tools.JNum 34);
              ("status_message"%string,
               Tools.JStr "The resource you requested could not be found.") ]
            eq_refl _).
  intros key Hin.
  repeat (apply elem_of_cons in Hin as [->|Hin]; [reflexivity|]).
  inversion Hin.
Defined.

Section DocumentId.
Import Js Tools.

(** What [data.id?.toString() || args.id] is for a numeric id and for a
    missing id. *)
Lemma document_id_number n args_id :
  FinalFetch.document_id (Some (JNum n)) args_id = Ok (Some (JStr (number_toString n))).
Proof.
  unfold FinalFetch.document_id. cbn [FinalFetch.nullish call_toString to_string].
  rewrite bind_ok, number_toString_truthy. reflexivity.
Qed.

Lemma document_id_missing args_id : FinalFetch.document_id None args_id = Ok args_id.
Proof. reflexivity. Qed.

(** The id and the url of a document, read off the id of the reply. *)
Lemma document_id_url top args_id fields data_id :
  get_own "id" top = data_id ->
  FinalFetch.document (JObj top) args_id = Ok (JObj fields) ->
  exists id id',
    FinalFetch.document_id data_id args_id = Ok id
    /\ template data_id = Ok id'
    /\ get_own "id" fields = id
    /\ get_own "url" fields = Some (JStr ("https://www.themoviedb.org/movie/" +:+ id')).
Proof.
  intros Hid Hdoc. unfold FinalFetch.document in Hdoc.
  change (get (Some (JObj top)) "id") with (Ok (get_own "id" top) : result (option json)) in Hdoc.
  rewrite Hid, bind_ok in Hdoc.
  destruct (FinalFetch.document_id data_id args_id) as [id|m]; [|discriminate Hdoc].
  rewrite bind_ok in Hdoc.
  destruct (get (Some (JObj top)) "title") as [data_title|m]; [|discriminate Hdoc].
  rewrite bind_ok in Hdoc.
  destruct (template data_title) as [title|m]; [|discriminate Hdoc].
  rewrite bind_ok in Hdoc.
  destruct (get (Some (JObj top)) "release_date") as [release_date|m]; [|discriminate Hdoc].
  rewrite bind_ok in Hdoc.
  destruct (FinalFetch.year release_date) as [y|m]; [|discriminate Hdoc].
  rewrite !bind_ok in Hdoc.
  destruct (template release_date) as [release_date'|m]; [|discriminate Hdoc].
  rewrite bind_ok in Hdoc.
  destruct (get (Some (JObj top)) "vote_average") as [vote_average|m]; [|discriminate Hdoc].
  rewrite bind_ok in Hdoc.
  destruct (template vote_average) as [rating|m]; [|discriminate Hdoc].
  rewrite bind_ok in Hdoc.
  destruct (get (Some (JObj top)) "overview") as [data_overview|m]; [|discriminate Hdoc].
  rewrite bind_ok in Hdoc.
  destruct (template data_overview) as [overview|m]; [|discriminate Hdoc].
  rewrite bind_ok in Hdoc.
  destruct (get (Some (JObj top)) "genres") as [data_genres|m]; [|discriminate Hdoc].
  rewrite bind_ok in Hdoc.
  destruct (FinalFetch.genres data_genres) as [gs|m]; [|discriminate Hdoc].
  rewrite bind_ok in Hdoc.
  destruct (get (Some (JObj top)) "runtime") as [data_runtime|m]; [|discriminate Hdoc].
  rewrite bind_ok in Hdoc.
  destruct (template data_runtime) as [runtime|m]; [|discriminate Hdoc].
  rewrite bind_ok in Hdoc.
  destruct (get (Some (JObj top)) "credits") as [credits|m]; [|discriminate Hdoc].
  rewrite bind_ok in Hdoc.
  destruct (FinalFetch.director credits) as [who|m]; [|discriminate Hdoc].
  rewrite bind_ok in Hdoc.
  destruct (template who) as [directed|m]; [|discriminate Hdoc].
  rewrite bind_ok in Hdoc.
  destruct (FinalFetch.main_cast credits) as [cast|m]; [|discriminate Hdoc].
  rewrite bind_ok in Hdoc.
  destruct (template data_id) as [id'|m]; [|discriminate Hdoc].
  rewrite bind_ok in Hdoc.
  destruct (get (Some (JObj top)) "popularity") as [popularity|m]; [|discriminate Hdoc].
  rewrite bind_ok in Hdoc.
  destruct (get (Some (JObj top)) "budget") as [budget|m]; [|discriminate Hdoc].
  rewrite bind_ok in Hdoc.
  destruct (get (Some (JObj top)) "revenue") as [revenue|m]; [|discriminate Hdoc].
  rewrite bind_ok in Hdoc.
  inversion Hdoc. exists id, id'.
  split; [reflexivity|]. split; [reflexivity|].
  destruct id; split; reflexivity.
Qed.

End DocumentId.

(** X25.  In the document of the fetch tool of server-final.js the id is
    the text that toString gives for the id of the reply when that is a
    number, whatever id the request named, and the url ends in the same text;
    for an integer below 2 ^ 53 in absolute value that text is its decimal
    digits.  When the reply has no id, the id of the document is the id of the
    request (the property is left out when the request named none) and the url
    ends in undefined. *)
Theorem document_id_follows_reply :
  forall top args_id fields,
    FinalFetch.document (Tools.JObj top) args_id = Tools.Ok (Tools.JObj fields) ->
    (forall x : Js.number,
        Tools.get_own "id" top = Some (Tools.JNum x) ->
        Tools.get_own "id" fields = Some (Tools.JStr (Js.number_toString x))
        /\ Tools.get_own "url" fields
           = Some (Tools.JStr ("https://www.themoviedb.org/movie/" +:+ Js.number_toString x))
        /\ forall n : Z,
             x = Js.of_Z n -> (Z.abs n < 2 ^ 53)%Z -> Js.number_toString x = Js.decimal n)
    /\
    (Tools.get_own "id" top = None ->
     Tools.get_own "id" fields = args_id
     /\ Tools.get_own "url" fields
        = Some (Tools.JStr "https://www.themoviedb.org/movie/undefined")).
Proof.
  intros top args_id fields Hdoc. split.
  - intros x Hid.
    destruct (document_id_url _ _ _ _ Hid Hdoc) as (id & id' & Hdid & Hshown & Hfield & Hurl).
    rewrite document_id_number in Hdid. injection Hdid as Hdid.
    change (Tools.Ok (Js.number_toString x) = Tools.Ok id') in Hshown.
    injection Hshown as Hshown.
    split; [rewrite Hfield, <- Hdid; reflexivity|].
    split; [rewrite Hurl, <- Hshown; reflexivity|].
    intros n -> Hsafe. apply number_toString_integer, Hsafe.
  - intros Hid.
    destruct (document_id_url _ _ _ _ Hid Hdoc) as (id & id' & Hdid & Hshown & Hfield & Hurl).
    rewrite document_id_missing in Hdid. injection Hdid as Hdid.
    change (Tools.Ok "undefined"%string = Tools.Ok id') in Hshown.
    injection Hshown as Hshown.
    split; [rewrite Hfield, <- Hdid | rewrite Hurl, <- Hshown]; reflexivity.
Qed.

Lemma document_id_follows_reply_witness :
  (exists fields,
      FinalFetch.document ToolScenario.fight_club (Some (Tools.JStr "999"))
      = Tools.Ok (Tools.JObj fields)
      /\ Tools.get_own "id" fields = Some (Tools.JStr "550")
      /\ Tools.get_own "url" fields
         = Some (Tools.JStr "https://www.themoviedb.org/movie/550"))
  /\
  (exists fields,
      FinalFetch.document ToolScenario.live_album (Some (Tools.JStr "999"))
      = Tools.Ok (Tools.JObj fields)
      /\ Tools.get_own "id" fields = Some (Tools.JStr "1152921504606847000")
      /\ Tools.get_own "url" fields
         = Some (Tools.JStr "https://www.themoviedb.org/movie/1152921504606847000")).
Proof.
  split.
  - destruct (FinalFetch.document ToolScenario.fight_club (Some (Tools.JStr "999")))
      as [[| | | | |fields]|m] eqn:Hdoc; try (vm_compute in Hdoc; discriminate Hdoc).
    exists fields. split; [reflexivity|].
    destruct (proj1 (document_id_follows_reply
                       [ ("id"%string, Tools.JNum 550);
                         ("title"%string, Tools.JStr "Fight Club");
                         ("release_date"%string, Tools.JStr "1999-10-15") ]
                       (Some (Tools.JStr "999")) fields Hdoc) 550%Z eq_refl)
      as (Hid & Hurl & Hdigits).
    rewrite (Hdigits 550%Z eq_refl eq_refl) in Hid, Hurl.
    split; [exact Hid | exact Hurl].
  - destruct (FinalFetch.document ToolScenario.live_album (Some (Tools.JStr "999")))
      as [[| | | | |fields]|m] eqn:Hdoc; try (vm_compute in Hdoc; discriminate Hdoc).
    exists fields. split; [reflexivity|].
    assert (Htext : Js.number_toString 1152921504606846976%Z
                    = "1152921504606847000"%string) by (vm_compute; reflexivity).
    rewrite <- Htext.
    destruct (proj1 (document_id_follows_reply
                       [ ("id"%string, Tools.JNum 1152921504606846976);
                         ("title"%string,
                          Tools.JStr ("AC" +:+ Tools.backslash +:+ "DC: " +:+ Tools.dquote
                                        +:+ "Live" +:+ Tools.dquote)) ]
                       (Some (Tools.JStr "999")) fields Hdoc)
                1152921504606846976%Z eq_refl)
      as (Hid & Hurl & _).
    split; [exact Hid | exact Hurl].
Defined.

Lemma protected_mcp_needs_a_token_witness :
  let st := {| ProtectedMcp.oauth := OAuth.init "secret";
               ProtectedMcp.registry := Registry.init |} in
  let r := ProtectedMcp.mcp 0 (Some "Basic dXNlcjpwdw=="%string) "uuid-1"
             (Some "session-1"%string) st in
  fst r = ProtectedMcp.Refused (Express.Json 401 (Express.ErrorBody "invalid_token" None))
  /\ snd r = st.
Proof.
  intros st r.
  destruct (protected_mcp_needs_a_token 0%Z (Some "Basic dXNlcjpwdw=="%string)
              "uuid-1"%string (Some "session-1"%string) st) as (_ & Hrefused & _).
  destruct (Hrefused (Express.Json 401 (Express.ErrorBody "invalid_token" None)) eq_refl)
    as [_ Hsame].
  split; [reflexivity | exact Hsame].
Defined.

(** ** The director of the fetch tool *)

Section Director.
Import Js Tools.

(** X26.  [crew.find(p => p.job === 'Director')] of the fetch tool of
    server-final.js: when the search returns, a person found is the first of
    the crew whose job is the string Director, every person before them has
    another job (or none), and when nobody is found no person of the crew has
    that job. *)
Theorem find_director_first crew found :
  FinalFetch.find_director crew = Ok found ->
  match found with
  | Some p =>
      exists before after,
        crew = before ++ p :: after
        /\ get (Some p) "job" = Ok (Some (JStr "Director"))
        /\ Forall (fun q => exists job, get (Some q) "job" = Ok job
                                      /\ job <> Some (JStr "Director")) before
  | None =>
      Forall (fun q => exists job, get (Some q) "job" = Ok job
                                   /\ job <> Some (JStr "Director")) crew
  end.
Proof.
  revert found. induction crew as [|p rest IH]; cbn [FinalFetch.find_director];
    intros found Hfound.
  - inversion Hfound. constructor.
  - destruct (get (Some p) "job") as [job|m] eqn:Hjob;
      [rewrite bind_ok in Hfound | rewrite bind_throw in Hfound; discriminate Hfound].
    assert (Hcases :
      (job = Some (JStr "Director") /\ found = Some p)
      \/ (job <> Some (JStr "Director") /\ FinalFetch.find_director rest = Ok found)).
    { destruct job as [[| | |s| |]|];
        try (right; split; [discriminate | exact Hfound]).
      destruct (String.eqb_spec s "Director") as [->|Hne].
      - left. inversion Hfound. split; reflexivity.
      - right. split; [congruence | exact Hfound]. }
    destruct Hcases as [[-> ->] | [Hother Hrest]].
    + exists [], rest. split; [reflexivity|]. split; [exact Hjob | constructor].
    + specialize (IH _ Hrest). destruct found as [q|].
      * destruct IH as (before & after & -> & Hq & Hbefore).
        exists (p :: before), after. repeat split; [exact Hq|].
        constructor; [eauto | exact Hbefore].
      * constructor; [eauto | exact IH].
Qed.

End Director.

Lemma find_director_first_witness :
  let producer := Tools.JObj [("job", Tools.JStr "Producer"); ("name", Tools.JStr "A")] in
  let first := Tools.JObj [("job", Tools.JStr "Director"); ("name", Tools.JStr "B")] in
  let second := Tools.JObj [("job", Tools.JStr "Director"); ("name", Tools.JStr "C")] in
  FinalFetch.find_director [producer; first; second] = Tools.Ok (Some first)
  /\ exists before after,
       [producer; first; second] = before ++ first :: after
       /\ Tools.get (Some first) "job" = Tools.Ok (Some (Tools.JStr "Director"))
       /\ Forall (fun q => exists job, Tools.get (Some q) "job" = Tools.Ok job
                                     /\ job <> Some (Tools.JStr "Director")) before.
Proof.
  intros producer first second.
  split; [reflexivity|].
  exact (find_director_first [producer; first; second] (Some first) eq_refl).
Defined.
